(** * context-bridge: the request store, the serializer and the client hydrator

    A shallow embedding of [lib/bridge.server.tsx] (the request-scoped store,
    [createBridgeProvider], [BridgeSerializer]), of [lib/bridge.client.ts]
    ([getHydratedStore], [createBridgeHook]) and of [createBridge] (the
    React-context bridge), together with the part of the host that these
    functions call: JavaScript values and property lookup, [JSON.stringify]
    and [JSON.parse], React's per-request [cache], and the way a browser
    reads the text of an inline script element. *)

From Stdlib Require Import ZArith String Ascii List Lia Bool.
From Stdlib Require Import DecimalString DecimalPos DecimalN.
From stdpp Require Import gmap strings.
Import ListNotations.
Open Scope string_scope.
Open Scope list_scope.
Set Warnings "-register-all".

(** ** JavaScript values *)

(** The values that can travel through a bridge.  Numbers are the integers
    a double holds exactly ([VNum], up to 2^53 in absolute value), [NaN] and
    the two infinities, fractions are not represented; strings are
    sequences of code units below 256.  Trees only: an object graph with
    a cycle is not representable, [VBigInt] is the value on which
    [JSON.stringify] throws the same [TypeError]. *)
Inductive JsValue : Type :=
| VUndefined
| VNull
| VBool (b : bool)
| VNum (n : Z)
| VNaN
| VInfinity (negative : bool)
| VStr (s : string)
| VBigInt (n : Z)
| VSymbol (description : string)
| VFunction (name : string)
| VObjectPrototype
| VArr (items : list JsValue)
| VObj (props : list (string * JsValue)).

(** The exceptions that occur: two built-in kinds, and [new Error(msg)]. *)
Inductive JsError : Type :=
| TypeError (msg : string)
| SyntaxError (msg : string)
| Error (msg : string).

(** The outcome of evaluating an expression or a call. *)
Inductive Completion (A : Type) : Type :=
| Normal (a : A)
| Throw (e : JsError).
Arguments Normal {A} a.
Arguments Throw {A} e.

(** [ToBoolean]: what [if (x)] and [x || y] test. *)
Definition toBoolean (v : JsValue) : bool :=
  match v with
  | VUndefined | VNull | VNaN => false
  | VBool b => b
  | VNum n => negb (n =? 0)%Z
  | VBigInt n => negb (n =? 0)%Z
  | VStr s => negb (String.eqb s "")
  | _ => true
  end.

(** [x !== undefined] *)
Definition isUndefined (v : JsValue) : bool :=
  match v with VUndefined => true | _ => false end.

(** [x || y] *)
Definition jsOr (x y : JsValue) : JsValue := if toBoolean x then x else y.

(** *** Property tables *)

(** Lookup in an insertion-ordered table: the entries of a [Map], the own
    properties of an object. *)
Fixpoint assoc_get {A : Type} (k : string) (m : list (string * A)) : option A :=
  match m with
  | [] => None
  | (k', v) :: rest => if String.eqb k k' then Some v else assoc_get k rest
  end.

(** [Map.prototype.set] and [CreateDataProperty]: an existing key keeps its
    position and takes the new value, a new key goes to the end.  (An
    engine lists the keys of an object that are array indices before the
    others; that reordering is not modelled, and no statement below depends
    on the order of the members of a text.) *)
Fixpoint assoc_set {A : Type} (k : string) (v : A) (m : list (string * A))
  : list (string * A) :=
  match m with
  | [] => [(k, v)]
  | (k', v') :: rest =>
      if String.eqb k k' then (k, v) :: rest else (k', v') :: assoc_set k v rest
  end.

(** The table a sequence of writes builds. *)
Definition assoc_of_entries {A : Type} (entries : list (string * A))
  : list (string * A) :=
  fold_left (fun o kv => assoc_set (fst kv) (snd kv) o) entries [].

(** The methods every ordinary object inherits from [Object.prototype],
    each a function of the same name. *)
Definition objectPrototypeMethods : list string :=
  [ "hasOwnProperty"; "isPrototypeOf"; "propertyIsEnumerable";
    "toLocaleString"; "toString"; "valueOf";
    "__defineGetter__"; "__defineSetter__"; "__lookupGetter__"; "__lookupSetter__" ].

(** Membership in a list of names. *)
Definition string_mem (k : string) (l : list string) : bool :=
  existsb (String.eqb k) l.

(** [Object.prototype[k]] seen from an object that inherits from it: the
    [constructor] (the function [Object]), a method, the [__proto__]
    accessor (which answers the prototype itself), or nothing. *)
Definition objectPrototypeGet (k : string) : JsValue :=
  if String.eqb k "constructor" then VFunction "Object"
  else if string_mem k objectPrototypeMethods then VFunction k
  else if String.eqb k "__proto__" then VObjectPrototype
  else VUndefined.

(** A canonical array index: ["0"], or digits without a leading zero. *)
Definition indexOfKey (k : string) : option nat :=
  match NilEmpty.uint_of_string k with
  | Some d =>
      if String.eqb (NilEmpty.string_of_uint (N.to_uint (N.of_uint d))) k
      then Some (N.to_nat (N.of_uint d)) else None
  | None => None
  end.

(** The own property [k] of a value, if it has one.  Arrays and strings
    carry their indices and [length]. *)
Definition ownProperty (v : JsValue) (k : string) : option JsValue :=
  match v with
  | VObj props => assoc_get k props
  | VArr items =>
      if String.eqb k "length" then Some (VNum (Z.of_nat (List.length items)))
      else match indexOfKey k with Some i => nth_error items i | None => None end
  | VStr s =>
      if String.eqb k "length" then Some (VNum (Z.of_nat (String.length s)))
      else match indexOfKey k with
           | Some i => option_map (fun c => VStr (String c "")) (String.get i s)
           | None => None
           end
  | _ => None
  end.

(** [v[k]]: a [TypeError] on [undefined] and [null]; otherwise the own
    property, else what the prototype chain answers.  Every chain ends in
    [Object.prototype]; what [Array.prototype], [String.prototype] and the
    other wrappers put in front of it is not listed: the stores the hooks
    are evaluated on below are plain objects. *)
Definition getV (v : JsValue) (k : string) : Completion JsValue :=
  match v with
  | VUndefined | VNull =>
      Throw (TypeError "Cannot read properties of undefined or null")
  | _ =>
      match ownProperty v k with
      | Some x => Normal x
      | None => Normal (objectPrototypeGet k)
      end
  end.

(** ** JSON *)

(** A JSON document, as [JSON.stringify] writes it and [JSON.parse] reads
    it.  Object members are kept in text order, repeated names included. *)
Inductive Json : Type :=
| JNull
| JBool (b : bool)
| JNum (n : Z)
| JStr (s : string)
| JArr (items : list Json)
| JObj (members : list (string * Json)).

(** *** [JSON.stringify] *)

(** [SerializeJSONProperty]: the document of a value, [SOmit] where the
    specification answers [undefined] (the property is left out of an
    object, an array element becomes [null]), [SThrow] where it throws. *)
Inductive Serialized : Type :=
| SThrow
| SOmit
| SJson (j : Json).

(** The elements of an array: a value without a document is written
    [null]; the first exception aborts. *)
Fixpoint arrayElements (l : list Serialized) : option (list Json) :=
  match l with
  | [] => Some []
  | SThrow :: _ => None
  | SOmit :: rest => option_map (cons JNull) (arrayElements rest)
  | SJson j :: rest => option_map (cons j) (arrayElements rest)
  end.

(** The members of an object: a property whose value has no document is
    left out; the first exception aborts. *)
Fixpoint objectMembers (l : list (string * Serialized)) : option (list (string * Json)) :=
  match l with
  | [] => Some []
  | (_, SThrow) :: _ => None
  | (_, SOmit) :: rest => objectMembers rest
  | (k, SJson j) :: rest => option_map (cons (k, j)) (objectMembers rest)
  end.

(** [SerializeJSONProperty] on a value. *)
Fixpoint toJson (v : JsValue) : Serialized :=
  match v with
  | VUndefined | VSymbol _ | VFunction _ => SOmit
  | VNull | VNaN | VInfinity _ => SJson JNull
  | VBool b => SJson (JBool b)
  | VNum n => SJson (JNum n)
  | VStr s => SJson (JStr s)
  | VBigInt _ => SThrow
  | VObjectPrototype => SJson (JObj [])
  | VArr items =>
      match arrayElements (map toJson items) with
      | Some js => SJson (JArr js)
      | None => SThrow
      end
  | VObj props =>
      match objectMembers (map (fun kv => let '(k, x) := kv in (k, toJson x)) props) with
      | Some ms => SJson (JObj ms)
      | None => SThrow
      end
  end.

(** The double quote, and single-quoted writing for texts that contain it. *)
Definition dquote : ascii := Eval cbv in ascii_of_nat 34.

Fixpoint qq (s : string) : string :=
  match s with
  | EmptyString => EmptyString
  | String c rest => String (if (c =? "'")%char then dquote else c) (qq rest)
  end.

(** Decimal digits, and the lower-case hexadecimal digit of a value. *)
Definition is_digit (c : ascii) : bool :=
  let n := nat_of_ascii c in (48 <=? n)%nat && (n <=? 57)%nat.

Definition hex_digit (n : nat) : ascii :=
  ascii_of_nat (if (n <? 10)%nat then 48 + n else 87 + n).

(** [QuoteJSONString] on one code unit. *)
Definition escape_char (c : ascii) : list ascii :=
  let n := nat_of_ascii c in
  if (n =? 34)%nat then ["\"%char; dquote]
  else if (n =? 92)%nat then ["\"; "\"]%char
  else if (n =? 8)%nat then ["\"; "b"]%char
  else if (n =? 12)%nat then ["\"; "f"]%char
  else if (n =? 10)%nat then ["\"; "n"]%char
  else if (n =? 13)%nat then ["\"; "r"]%char
  else if (n =? 9)%nat then ["\"; "t"]%char
  else if (n <? 32)%nat then
    ["\"; "u"; "0"; "0"; hex_digit (n / 16); hex_digit (n mod 16)]%char
  else [c].

(** [QuoteJSONString], and the decimal writing of an integer. *)
Definition quote (s : string) : list ascii :=
  dquote :: flat_map escape_char (list_ascii_of_string s) ++ [dquote].

Definition print_N (n : N) : list ascii :=
  list_ascii_of_string (NilEmpty.string_of_uint (N.to_uint n)).

(** The digits of an integer, which is how an engine writes one up to
    2^53. *)
Definition print_Z (n : Z) : list ascii :=
  if (n <? 0)%Z then "-"%char :: print_N (Z.abs_N n) else print_N (Z.abs_N n).

(** The parts, separated by commas. *)
Fixpoint join_comma (parts : list (list ascii)) : list ascii :=
  match parts with
  | [] => []
  | [p] => p
  | p :: rest => p ++ ","%char :: join_comma rest
  end.

(** The text of a document: no white space, members and elements separated
    by commas. *)
Fixpoint render (j : Json) : list ascii :=
  match j with
  | JNull => list_ascii_of_string "null"
  | JBool true => list_ascii_of_string "true"
  | JBool false => list_ascii_of_string "false"
  | JNum n => print_Z n
  | JStr s => quote s
  | JArr items => "["%char :: join_comma (map render items) ++ ["]"%char]
  | JObj members =>
      "{"%char
        :: join_comma (map (fun kx => let '(k, x) := kx in
                                      quote k ++ ":"%char :: render x) members)
        ++ ["}"%char]
  end.

(** [JSON.stringify(v)]: a string, [undefined] ([None]) for a value that has
    no document, or a [TypeError]. *)
Definition JSON_stringify (v : JsValue) : Completion (option string) :=
  match toJson v with
  | SThrow => Throw (TypeError "Converting circular structure or BigInt to JSON")
  | SOmit => Normal None
  | SJson j => Normal (Some (string_of_list_ascii (render j)))
  end.

(** *** [JSON.parse] *)

(** JSON white space: space, tab, line feed, carriage return. *)
Definition is_ws (c : ascii) : bool :=
  let n := nat_of_ascii c in
  ((n =? 32) || (n =? 9) || (n =? 10) || (n =? 13))%nat.

Fixpoint skip_ws (s : list ascii) : list ascii :=
  match s with
  | c :: r => if is_ws c then skip_ws r else s
  | [] => []
  end.

(** [s] without its prefix [p], if it starts with it. *)
Fixpoint strip_prefix (p s : list ascii) : option (list ascii) :=
  match p, s with
  | [], _ => Some s
  | a :: p', b :: s' => if Ascii.eqb a b then strip_prefix p' s' else None
  | _ :: _, [] => None
  end.

(** The value of a hexadecimal digit, in either case. *)
Definition hex_value (c : ascii) : option nat :=
  let n := nat_of_ascii c in
  if is_digit c then Some (n - 48)
  else if ((97 <=? n) && (n <=? 102))%nat then Some (n - 87)
  else if ((65 <=? n) && (n <=? 70))%nat then Some (n - 55)
  else None.

(** [\uXXXX].  Code units from 256 on are outside the strings modelled here
    and are refused like a malformed escape. *)
Definition read_unicode_escape (a b c d : ascii) : option ascii :=
  match hex_value a, hex_value b, hex_value c, hex_value d with
  | Some 0, Some 0, Some x, Some y => Some (ascii_of_nat (16 * x + y))
  | _, _, _, _ => None
  end.

(** The character a two-character escape stands for. *)
Definition simple_escape (e : ascii) : option ascii :=
  if (e =? dquote)%char then Some dquote
  else if (e =? "\")%char then Some "\"%char
  else if (e =? "/")%char then Some "/"%char
  else if (e =? "b")%char then Some (ascii_of_nat 8)
  else if (e =? "f")%char then Some (ascii_of_nat 12)
  else if (e =? "n")%char then Some (ascii_of_nat 10)
  else if (e =? "r")%char then Some (ascii_of_nat 13)
  else if (e =? "t")%char then Some (ascii_of_nat 9)
  else None.

(** The characters of a string literal after its opening quote, up to and
    including the closing one. *)
Fixpoint read_string_body (s : list ascii) : option (list ascii * list ascii) :=
  match s with
  | [] => None
  | c :: r =>
      if (c =? dquote)%char then Some ([], r)
      else if (c =? "\")%char then
        match r with
        | [] => None
        | e :: r' =>
            if (e =? "u")%char then
              match r' with
              | h1 :: h2 :: h3 :: h4 :: r'' =>
                  match read_unicode_escape h1 h2 h3 h4, read_string_body r'' with
                  | Some x, Some (cs, t) => Some (x :: cs, t)
                  | _, _ => None
                  end
              | _ => None
              end
            else
              match simple_escape e, read_string_body r' with
              | Some x, Some (cs, t) => Some (x :: cs, t)
              | _, _ => None
              end
        end
      else if (nat_of_ascii c <? 32)%nat then None
      else
        match read_string_body r with
        | Some (cs, t) => Some (c :: cs, t)
        | None => None
        end
  end.

(** The longest run of digits at the head of [s], and the rest. *)
Fixpoint span_digits (s : list ascii) : list ascii * list ascii :=
  match s with
  | c :: r =>
      if is_digit c then let (ds, t) := span_digits r in (c :: ds, t) else ([], s)
  | [] => ([], [])
  end.

(** The integer part of a number: a run of digits that is the decimal
    writing of its value, so neither empty nor with a leading zero. *)
Definition read_nat (s : list ascii) : option (N * list ascii) :=
  let (ds, t) := span_digits s in
  match NilEmpty.uint_of_string (string_of_list_ascii ds) with
  | Some d =>
      if String.eqb (string_of_list_ascii (print_N (N.of_uint d))) (string_of_list_ascii ds)
      then Some (N.of_uint d, t) else None
  | None => None
  end.

(** A fraction or an exponent follows. *)
Definition number_continues (t : list ascii) : bool :=
  match t with
  | c :: _ => ((c =? ".") || (c =? "e") || (c =? "E"))%char
  | [] => false
  end.

(** A number literal.  One with a fraction or an exponent denotes a double
    outside [VNum] and is refused. *)
Definition read_number (s : list ascii) : option (Json * list ascii) :=
  match s with
  | c :: r =>
      if (c =? "-")%char then
        match read_nat r with
        | Some (n, t) => if number_continues t then None else Some (JNum (- Z.of_N n), t)
        | None => None
        end
      else
        match read_nat s with
        | Some (n, t) => if number_continues t then None else Some (JNum (Z.of_N n), t)
        | None => None
        end
  | [] => None
  end.

(** [null], [true] or [false]. *)
Definition read_literal (s : list ascii) : option (Json * list ascii) :=
  match strip_prefix (list_ascii_of_string "null") s with
  | Some t => Some (JNull, t)
  | None =>
      match strip_prefix (list_ascii_of_string "true") s with
      | Some t => Some (JBool true, t)
      | None =>
          match strip_prefix (list_ascii_of_string "false") s with
          | Some t => Some (JBool false, t)
          | None => None
          end
      end
  end.

(** Recursive descent.  [fuel] bounds the depth of the descent; [JSON_parse]
    below supplies twice the length of the text and two more, which no
    descent into it uses up ([parse_fuel_suffices]). *)
Fixpoint read_value (fuel : nat) (s : list ascii) {struct fuel}
  : option (Json * list ascii) :=
  match fuel with
  | O => None
  | S fuel' =>
      match skip_ws s with
      | [] => None
      | c :: r =>
          if (c =? dquote)%char then
            match read_string_body r with
            | Some (cs, t) => Some (JStr (string_of_list_ascii cs), t)
            | None => None
            end
          else if (c =? "[")%char then
            match skip_ws r with
            | [] => None
            | c' :: t =>
                if (c' =? "]")%char then Some (JArr [], t)
                else
                  match read_elements fuel' r with
                  | Some (xs, t') => Some (JArr xs, t')
                  | None => None
                  end
            end
          else if (c =? "{")%char then
            match skip_ws r with
            | [] => None
            | c' :: t =>
                if (c' =? "}")%char then Some (JObj [], t)
                else
                  match read_members fuel' r with
                  | Some (ms, t') => Some (JObj ms, t')
                  | None => None
                  end
            end
          else if ((c =? "-")%char || is_digit c) then read_number (c :: r)
          else read_literal (c :: r)
      end
  end

with read_elements (fuel : nat) (s : list ascii) {struct fuel}
  : option (list Json * list ascii) :=
  match fuel with
  | O => None
  | S fuel' =>
      match read_value fuel' s with
      | None => None
      | Some (x, t) =>
          match skip_ws t with
          | [] => None
          | c :: t' =>
              if (c =? ",")%char then
                match read_elements fuel' t' with
                | Some (xs, u) => Some (x :: xs, u)
                | None => None
                end
              else if (c =? "]")%char then Some ([x], t')
              else None
          end
      end
  end

with read_members (fuel : nat) (s : list ascii) {struct fuel}
  : option (list (string * Json) * list ascii) :=
  match fuel with
  | O => None
  | S fuel' =>
      match skip_ws s with
      | [] => None
      | q :: r =>
          if (q =? dquote)%char then
            match read_string_body r with
            | None => None
            | Some (k, t) =>
                match skip_ws t with
                | [] => None
                | c :: t' =>
                    if (c =? ":")%char then
                      match read_value fuel' t' with
                      | None => None
                      | Some (x, u) =>
                          match skip_ws u with
                          | [] => None
                          | d :: u' =>
                              if (d =? ",")%char then
                                match read_members fuel' u' with
                                | Some (ms, w) =>
                                    Some ((string_of_list_ascii k, x) :: ms, w)
                                | None => None
                                end
                              else if (d =? "}")%char then
                                Some ([(string_of_list_ascii k, x)], u')
                              else None
                          end
                      end
                    else None
                end
            end
          else None
      end
  end.

(** The value a document denotes.  A repeated member name keeps the place
    of its first occurrence and the value of its last. *)
Fixpoint fromJson (j : Json) : JsValue :=
  match j with
  | JNull => VNull
  | JBool b => VBool b
  | JNum n => VNum n
  | JStr s => VStr s
  | JArr items => VArr (map fromJson items)
  | JObj members =>
      VObj (assoc_of_entries
              (map (fun kx => let '(k, x) := kx in (k, fromJson x)) members))
  end.

(** The fuel [JSON_parse] supplies. *)
Definition parse_fuel (s : list ascii) : nat := 2 * List.length s + 2.

(** [JSON.parse(text)]: the value, or a [SyntaxError].  It reads the texts
    [JSON_stringify] writes, and rejects what is left of one that was cut
    short, as an engine does; a number with a fraction or an exponent and an
    escape of a code unit from 256 on have no value here and are rejected
    too.  The statements about documents that [BridgeSerializer] did not
    write therefore take the [JSON.parse] of the host as a parameter
    ([getHydratedStoreWith] below). *)
Definition JSON_parse (text : string) : Completion JsValue :=
  let s := list_ascii_of_string text in
  match read_value (parse_fuel s) s with
  | Some (j, t) =>
      match skip_ws t with
      | [] => Normal (fromJson j)
      | _ :: _ => Throw (SyntaxError "Unexpected non-whitespace character after JSON")
      end
  | None => Throw (SyntaxError "Unexpected token or end of JSON input")
  end.

(** ** Effects *)

(** What a call does besides computing: the lookups and parses of the
    hydrator, and the console. *)
Inductive Event : Type :=
| DomLookup (id : string)
| ParseCall (text : string)
| ConsoleError (msg : string)
| ConsoleWarn (msg : string).

(** A computation over a module state [S]: its completion, the state it
    leaves and the events it caused.  State written before a [throw] stays
    written. *)
Definition Eff (S A : Type) : Type := S -> Completion A * S * list Event.

Definition ret {S A : Type} (a : A) : Eff S A := fun s => (Normal a, s, []).

Definition throw {S A : Type} (e : JsError) : Eff S A := fun s => (Throw e, s, []).

Definition bind {S A B : Type} (m : Eff S A) (k : A -> Eff S B) : Eff S B :=
  fun s =>
    match m s with
    | (Normal a, s', log) =>
        match k a s' with (r, s'', log') => (r, s'', log ++ log') end
    | (Throw e, s', log) => (Throw e, s', log)
    end.

(** [try { body } catch (e) { handler }] *)
Definition try_catch {S A : Type} (body : Eff S A) (handler : JsError -> Eff S A)
  : Eff S A :=
  fun s =>
    match body s with
    | (Normal a, s', log) => (Normal a, s', log)
    | (Throw e, s', log) =>
        match handler e s' with (r, s'', log') => (r, s'', log ++ log') end
    end.

(** Reading and writing the state, logging an event, and a pure call. *)
Definition get {S : Type} : Eff S S := fun s => (Normal s, s, []).
Definition put {S : Type} (s : S) : Eff S unit := fun _ => (Normal tt, s, []).
Definition emit {S : Type} (e : Event) : Eff S unit := fun s => (Normal tt, s, [e]).
Definition lift {S A : Type} (c : Completion A) : Eff S A := fun s => (c, s, []).

Notation "'let*' x ':=' m 'in' k" := (bind m (fun x => k))
  (at level 10, x name, m at level 100, k at level 200).
Notation "m ';;' k" := (bind m (fun _ => k))
  (at level 100, k at level 200, right associativity).

(** The three components of what a computation gives. *)
Definition completion {S A : Type} (r : Completion A * S * list Event) : Completion A :=
  fst (fst r).
Definition state_after {S A : Type} (r : Completion A * S * list Event) : S :=
  snd (fst r).
Definition events {S A : Type} (r : Completion A * S * list Event) : list Event :=
  snd r.

(** ** The server module: [lib/bridge.server.tsx] *)

(** A [Map<string, unknown>]: its entries in insertion order. *)
Definition MapObject : Type := list (string * JsValue).

(** The server process: the [Map] objects it has allocated, by reference,
    and the memo table of [cache(() => new Map())], which React keeps per
    request: the first call within a request runs the function and
    remembers its result for that request, later calls within the same
    request answer the remembered reference. *)
Record ServerState : Type := {
  heap : gmap nat MapObject;
  requestCache : gmap nat nat
}.

Definition emptyServer : ServerState := {| heap := ∅; requestCache := ∅ |}.

(** [new Map()] *)
Definition newMap : Eff ServerState nat :=
  let* st := get in
  let ref := fresh (dom (heap st)) in
  put {| heap := <[ref := []]> (heap st); requestCache := requestCache st |};;
  ret ref.

(** The entries of the [Map] at [ref]. *)
Definition deref (st : ServerState) (ref : nat) : MapObject :=
  default [] (heap st !! ref).

(** [const getRequestStore = cache(() => new Map<string, unknown>())] *)
Definition getRequestStore (request : nat) : Eff ServerState nat :=
  let* st := get in
  match requestCache st !! request with
  | Some ref => ret ref
  | None =>
      let* ref := newMap in
      let* st' := get in
      put {| heap := heap st'; requestCache := <[request := ref]> (requestCache st') |};;
      ret ref
  end.

(** [store.size], [store.set(k, v)] and the entries [Object.fromEntries]
    iterates. *)
Definition Map_size (ref : nat) : Eff ServerState nat :=
  let* st := get in ret (List.length (deref st ref)).

Definition Map_set (ref : nat) (k : string) (v : JsValue) : Eff ServerState unit :=
  let* st := get in
  put {| heap := <[ref := assoc_set k v (deref st ref)]> (heap st);
         requestCache := requestCache st |}.

Definition Map_entries (ref : nat) : Eff ServerState MapObject :=
  let* st := get in ret (deref st ref).

(** [Object.fromEntries(entries)] *)
Definition Object_fromEntries (entries : list (string * JsValue)) : JsValue :=
  VObj (assoc_of_entries entries).

(** [process.env.NODE_ENV === 'development'] *)
Definition isDevelopment (node_env : option string) : bool :=
  match node_env with
  | Some s => String.eqb s "development"
  | None => false
  end.

(** [typeof v === 'function'] and [typeof v === 'symbol'] *)
Definition isFunction (v : JsValue) : bool :=
  match v with VFunction _ => true | _ => false end.

Definition isSymbol (v : JsValue) : bool :=
  match v with VSymbol _ => true | _ => false end.

(** The element a component returns: the one script element of
    [BridgeSerializer], with what [dangerouslySetInnerHTML] carries. *)
Record ScriptElement : Type := {
  script_id : string;
  script_type : string;
  innerHTML : string
}.

Definition STORE_ELEMENT_ID : string := "__CONTEXT_BRIDGE_STORE__".

(** The message of the [Error] [BridgeSerializer] throws in development. *)
Definition SERIALIZE_ERROR : string :=
  "ContextBridge: Data cannot be serialized (possibly due to circular reference).".

(** [BridgeSerializer]; [None] is the [null] it returns to render nothing.
    The two [return]s inside [try]/[catch] are the [inl]/[inr] below. *)
Definition BridgeSerializer (node_env : option string) (request : nat)
  : Eff ServerState (option ScriptElement) :=
  let* store := getRequestStore request in
  let* size := Map_size store in
  if (size =? 0)%nat then ret None
  else
    let* entries := Map_entries store in
    let data := Object_fromEntries entries in
    let* outcome :=
      try_catch
        (let* jsonString := lift (JSON_stringify data) in
         ret (inl jsonString))
        (fun error =>
           if isDevelopment node_env then
             emit (ConsoleError "ContextBridge Error: Unable to serialize data.");;
             throw (Error SERIALIZE_ERROR)
           else
             emit (ConsoleError "ContextBridge: Serialization error");;
             ret (inr tt)) in
    match outcome with
    | inl jsonString =>
        ret (Some {| script_id := STORE_ELEMENT_ID;
                     script_type := "application/json";
                     innerHTML := default "" jsonString |})
    | inr _ => ret None
    end.

(** The text of the development warning of a Provider. *)
Definition providerWarningText (bridgeId : string) : string :=
  ("ContextBridge Warning [" ++ bridgeId
   ++ "]: Data passed to Provider is 'undefined', 'function', or 'symbol'. "
   ++ String (ascii_of_nat 10)
        "          It will be lost during serialization. Data must be JSON-serializable.")%string.

(** The component [createBridgeProvider(bridgeId)] returns, rendered with
    [data] during [request].  Its children are passed through. *)
Definition Provider (node_env : option string) (bridgeId : string) (data : JsValue)
  (request : nat) : Eff ServerState unit :=
  (if isDevelopment node_env
   then if isUndefined data || isFunction data || isSymbol data
        then emit (ConsoleWarn (providerWarningText bridgeId))
        else ret tt
   else ret tt);;
  let* store := getRequestStore request in
  Map_set store bridgeId data.

(** [createBridgeProvider(bridgeId)] *)
Definition createBridgeProvider (bridgeId : string)
  : option string -> JsValue -> nat -> Eff ServerState unit :=
  fun node_env data request => Provider node_env bridgeId data request.

(** A render pass: the Providers of the page in the order they render. *)
Fixpoint renderProviders (node_env : option string) (request : nat)
  (providers : list (string * JsValue)) : Eff ServerState unit :=
  match providers with
  | [] => ret tt
  | (bridgeId, data) :: rest =>
      createBridgeProvider bridgeId node_env data request;;
      renderProviders node_env request rest
  end.

(** The Providers, then [BridgeSerializer] at the end of the body. *)
Definition renderPage (node_env : option string) (request : nat)
  (providers : list (string * JsValue)) : Eff ServerState (option ScriptElement) :=
  renderProviders node_env request providers;;
  BridgeSerializer node_env request.

(** ** From the rendered element to the document *)

(** ASCII lower case, and [strip_prefix] up to letter case. *)
Definition lower (c : ascii) : ascii :=
  let n := nat_of_ascii c in
  if ((65 <=? n) && (n <=? 90))%nat then ascii_of_nat (n + 32) else c.

Fixpoint strip_prefix_ci (p s : list ascii) : option (list ascii) :=
  match p, s with
  | [], _ => Some s
  | a :: p', b :: s' => if Ascii.eqb a (lower b) then strip_prefix_ci p' s' else None
  | _ :: _, [] => None
  end.

(** What ends a tag name: tab, line feed, form feed, space, [/] or [>]. *)
Definition ends_tag_name (c : ascii) : bool :=
  let n := nat_of_ascii c in
  ((n =? 9) || (n =? 10) || (n =? 12) || (n =? 32) || (n =? 47) || (n =? 62))%nat.

(** The text starts with the end tag of a script. *)
Definition at_script_end_tag (s : list ascii) : bool :=
  match strip_prefix_ci (list_ascii_of_string "</script") s with
  | Some (d :: _) => ends_tag_name d
  | _ => false
  end.

(** The text an HTML parser gives a script element whose raw content is
    [html]: the content is not decoded, and the element ends at the first
    end tag of a script, in any letter case.  This is the tokenizer's script
    data state; the escaped states that a comment opener switches to are not
    modelled. *)
Fixpoint scriptText (html : list ascii) : list ascii :=
  match html with
  | [] => []
  | c :: rest => if at_script_end_tag html then [] else c :: scriptText rest
  end.

(** An element of the document, as [getElementById] and [textContent] see
    it. *)
Record DomElement : Type := {
  el_id : string;
  textContent : string
}.

(** The elements of the document that carry an id, in tree order. *)
Definition Document : Type := list DomElement.

Definition getElementById (document : Document) (id : string) : option DomElement :=
  find (fun el => String.eqb (el_id el) id) document.

(** The document a browser builds from the server's markup: the elements
    [rendered] produced, each script with the text the parser reads. *)
Definition loadDocument (rendered : list ScriptElement) : Document :=
  map (fun el => {| el_id := script_id el;
                    textContent :=
                      string_of_list_ascii
                        (scriptText (list_ascii_of_string (innerHTML el))) |})
      rendered.

(** ** The client module: [lib/bridge.client.ts] *)

(** Where the module runs: on the server while client components are
    rendered there ([typeof window === 'undefined']), or in a browser with
    its document. *)
Inductive Runtime : Type :=
| ServerRuntime
| Browser (document : Document).

(** The module variable [clientStore], and the cells in which React keeps
    the value of each [useMemo(..., [])] call of each mounted component. *)
Record ClientState : Type := {
  clientStore : JsValue;
  memoCells : gmap nat JsValue
}.

(** [let clientStore = null], nothing mounted. *)
Definition freshClient : ClientState := {| clientStore := VNull; memoCells := ∅ |}.

(** [clientStore = v], [document.getElementById(id)] and
    [JSON.parse(text)], the last two logged.  [parse] is the [JSON.parse] of
    the host. *)
Definition set_clientStore (v : JsValue) : Eff ClientState unit :=
  let* st := get in put {| clientStore := v; memoCells := memoCells st |}.

Definition dom_getElementById (document : Document) (id : string)
  : Eff ClientState (option DomElement) :=
  emit (DomLookup id);; ret (getElementById document id).

Definition json_parse (parse : string -> Completion JsValue) (text : string)
  : Eff ClientState JsValue :=
  emit (ParseCall text);; lift (parse text).

(** [getHydratedStore], over the [JSON.parse] of the host.  The [return]
    inside [try] is the [Some] below; falling out of the [try] statement is
    [None]. *)
Definition getHydratedStoreWith (parse : string -> Completion JsValue) (rt : Runtime)
  : Eff ClientState JsValue :=
  let* st := get in
  if toBoolean (clientStore st) then ret (clientStore st)
  else
    match rt with
    | ServerRuntime => ret (VObj [])
    | Browser document =>
        let* returned :=
          try_catch
            (let* script := dom_getElementById document STORE_ELEMENT_ID in
             match script with
             | Some el =>
                 if negb (String.eqb (textContent el) "") then
                   let* parsed := json_parse parse (textContent el) in
                   set_clientStore parsed;;
                   ret (Some (jsOr parsed (VObj [])))
                 else ret None
             | None => ret None
             end)
            (fun e =>
               emit (ConsoleError "ContextBridge Error: Unable to parse data from server.");;
               ret None) in
        match returned with
        | Some store => ret store
        | None => set_clientStore (VObj []);; ret (VObj [])
        end
    end.

(** [getHydratedStore] with the [JSON.parse] modelled above. *)
Definition getHydratedStore (rt : Runtime) : Eff ClientState JsValue :=
  getHydratedStoreWith JSON_parse rt.

(** [useMemo(compute, [])] at the call site [cell] of a mounted component:
    computed at the first render, remembered afterwards. *)
Definition useMemo (cell : nat) (compute : Eff ClientState JsValue)
  : Eff ClientState JsValue :=
  let* st := get in
  match memoCells st !! cell with
  | Some v => ret v
  | None =>
      let* v := compute in
      let* st' := get in
      put {| clientStore := clientStore st'; memoCells := <[cell := v]> (memoCells st') |};;
      ret v
  end.

(** The hook [createBridgeHook(bridgeId, defaultValue)] returns, called by
    the component that owns [cell], over the [JSON.parse] of the host. *)
Definition useBridgeDataWith (parse : string -> Completion JsValue)
  (bridgeId : string) (defaultValue : JsValue) (rt : Runtime) (cell : nat)
  : Eff ClientState JsValue :=
  let* store := useMemo cell (getHydratedStoreWith parse rt) in
  let* data := lift (getV store bridgeId) in
  if negb (isUndefined data) then ret data else ret defaultValue.

(** The hook with the [JSON.parse] modelled above. *)
Definition useBridgeData (bridgeId : string) (defaultValue : JsValue)
  (rt : Runtime) (cell : nat) : Eff ClientState JsValue :=
  useBridgeDataWith JSON_parse bridgeId defaultValue rt cell.

(** [createBridgeHook(bridgeId, defaultValue)] *)
Definition createBridgeHook (bridgeId : string) (defaultValue : JsValue)
  : Runtime -> nat -> Eff ClientState JsValue :=
  useBridgeData bridgeId defaultValue.

(** ** The context bridge: [createBridge] *)

(** [useContext(BridgeContext)]: the [data] of the nearest [BridgeProvider]
    above the caller, or the context's default, [undefined]. *)
Definition useContext (nearestProvider : option JsValue) : JsValue :=
  default VUndefined nearestProvider.

(** The hook [createBridge()] returns. *)
Definition useBridge (nearestProvider : option JsValue) : Completion JsValue :=
  let context := useContext nearestProvider in
  if isUndefined context
  then Throw (Error "useBridge must be used within a BridgeProvider")
  else Normal context.

(** [createBridge()].  [createContext(undefined)] gives a new context
    object at every call; the module state of React counts them, and a
    bridge is the context its two functions close over. *)
Record Bridge : Type := { bridgeContext : nat }.

Definition createContext : Eff nat nat :=
  let* next := get in put (S next);; ret next.

Definition createBridge : Eff nat Bridge :=
  let* BridgeContext := createContext in
  ret {| bridgeContext := BridgeContext |}.

(** A tree of client components: [BridgeProvider] of a bridge around its
    children, a component that calls [useBridge] of a bridge and shows what
    it reads, and any other element around its children. *)
Inductive Element : Type :=
| BridgeProviderEl (bridge : Bridge) (data : JsValue) (children : list Element)
| UseBridgeEl (bridge : Bridge)
| HostEl (children : list Element).

(** [useBridge] of [bridge], called where [contexts] holds the values of
    the contexts with a [Provider] above the caller, the nearest one for
    each context. *)
Definition callUseBridge (bridge : Bridge) (contexts : gmap nat JsValue)
  : Completion JsValue :=
  useBridge (contexts !! bridgeContext bridge).

(** One render of a tree: the values its [useBridge] calls read, in the
    order they run; the first exception ends the render.
    [<BridgeContext.Provider value={data}>] provides [data] to the
    children, and to them only. *)
Fixpoint renderTree (contexts : gmap nat JsValue) (e : Element)
  : Completion (list JsValue) :=
  let renderAll :=
    fun contexts' =>
      fix renderAll (children : list Element) : Completion (list JsValue) :=
        match children with
        | [] => Normal []
        | child :: rest =>
            match renderTree contexts' child with
            | Normal reads =>
                match renderAll rest with
                | Normal reads' => Normal (reads ++ reads')
                | Throw err => Throw err
                end
            | Throw err => Throw err
            end
        end in
  match e with
  | BridgeProviderEl bridge data children =>
      renderAll (<[bridgeContext bridge := data]> contexts) children
  | UseBridgeEl bridge =>
      match callUseBridge bridge contexts with
      | Normal context => Normal [context]
      | Throw err => Throw err
      end
  | HostEl children => renderAll contexts children
  end.

(** * Reading the model *)

(** Definitions the statements below are written with. *)

(** ** The server *)

(** What the requests of a server process see: every remembered reference
    is allocated, no two requests remember the same one, and a [Map] holds
    a key once. *)
Record wf (st : ServerState) : Prop := {
  wf_allocated :
    forall request ref, requestCache st !! request = Some ref -> is_Some (heap st !! ref);
  wf_separate :
    forall r1 r2 ref,
      requestCache st !! r1 = Some ref -> requestCache st !! r2 = Some ref -> r1 = r2;
  wf_keys :
    forall ref m, heap st !! ref = Some m -> List.NoDup (map fst m)
}.

(** The entries of the store of [request]; none before its first use. *)
Definition requestEntries (st : ServerState) (request : nat) : MapObject :=
  match requestCache st !! request with
  | Some ref => deref st ref
  | None => []
  end.

(** Calls on the server module, of any request, in the order they run. *)
Inductive ServerCall : Type :=
| CallGetRequestStore (request : nat)
| CallProvider (node_env : option string) (bridgeId : string) (data : JsValue) (request : nat)
| CallSerializer (node_env : option string) (request : nat).

(** The state a call leaves. *)
Definition runCall (st : ServerState) (c : ServerCall) : ServerState :=
  match c with
  | CallGetRequestStore request => state_after (getRequestStore request st)
  | CallProvider node_env bridgeId data request =>
      state_after (Provider node_env bridgeId data request st)
  | CallSerializer node_env request => state_after (BridgeSerializer node_env request st)
  end.

Definition runCalls (calls : list ServerCall) (st : ServerState) : ServerState :=
  fold_left runCall calls st.

(** Unfolds the operations of [Eff]. *)
Ltac eff := unfold bind, get, put, ret, emit, lift, throw, try_catch,
  completion, state_after, events in *.

(** The reference [getRequestStore] answers for [request], and the state it
    leaves: the store is allocated at the first use. *)
Definition storeRef (st : ServerState) (request : nat) : nat :=
  match requestCache st !! request with
  | Some ref => ref
  | None => fresh (dom (heap st))
  end.

(** The state after [getRequestStore]. *)
Definition ensureStore (st : ServerState) (request : nat) : ServerState :=
  match requestCache st !! request with
  | Some _ => st
  | None =>
      {| heap := <[fresh (dom (heap st)) := []]> (heap st);
         requestCache := <[request := fresh (dom (heap st))]> (requestCache st) |}
  end.

(** The state after [Map.set] on the [Map] at [ref]. *)
Definition setEntry (st : ServerState) (ref : nat) (k : string) (v : JsValue)
  : ServerState :=
  {| heap := <[ref := assoc_set k v (deref st ref)]> (heap st);
     requestCache := requestCache st |}.

(** What a Provider logs. *)
Definition providerWarning (node_env : option string) (bridgeId : string)
  (data : JsValue) : list Event :=
  if isDevelopment node_env && (isUndefined data || isFunction data || isSymbol data)
  then [ConsoleWarn (providerWarningText bridgeId)]
  else [].

(** The element [BridgeSerializer] returns for the text [jsonString]. *)
Definition storeScript (jsonString : option string) : ScriptElement :=
  {| script_id := STORE_ELEMENT_ID;
     script_type := "application/json";
     innerHTML := default "" jsonString |}.

(** What [BridgeSerializer] answers and logs for the entries it finds. *)
Definition serializerOutcome (node_env : option string) (entries : MapObject)
  : Completion (option ScriptElement) * list Event :=
  match entries with
  | [] => (Normal None, [])
  | _ :: _ =>
      match JSON_stringify (Object_fromEntries entries) with
      | Normal jsonString => (Normal (Some (storeScript jsonString)), [])
      | Throw _ =>
          if isDevelopment node_env
          then (Throw (Error SERIALIZE_ERROR),
                [ConsoleError "ContextBridge Error: Unable to serialize data."])
          else (Normal None, [ConsoleError "ContextBridge: Serialization error"])
      end
  end.

(** The request a call belongs to. *)
Definition callRequest (c : ServerCall) : nat :=
  match c with
  | CallGetRequestStore request => request
  | CallProvider _ _ _ request => request
  | CallSerializer _ request => request
  end.

(** How many entries of a table carry the key [k]. *)
Fixpoint count_key {A : Type} (k : string) (l : list (string * A)) : nat :=
  match l with
  | [] => 0
  | (k', _) :: rest => (if String.eqb k' k then 1 else 0) + count_key k rest
  end.

(** The value the last Provider rendered with [bridgeId] was given. *)
Definition last_set (bridgeId : string) (providers : list (string * JsValue))
  : option JsValue :=
  assoc_get bridgeId (rev providers).

(** The text holds no [<]: nothing in it can start a tag or a comment. *)
Definition no_less_than (text : string) : bool :=
  forallb (fun c => negb (c =? "<")%char) (list_ascii_of_string text).

(** The members of the document [JSON.stringify] writes for an object. *)
Definition serializedEntries (entries : list (string * JsValue))
  : list (string * Serialized) :=
  map (fun kv => let '(k, x) := kv in (k, toJson x)) entries.

(** The entries of the store of [request] once [providers] have rendered. *)
Definition pageEntries (st : ServerState) (request : nat)
  (providers : list (string * JsValue)) : MapObject :=
  fold_left (fun o kv => assoc_set (fst kv) (snd kv) o) providers
    (requestEntries st request).

(** What the Providers of a page log, in the order they render. *)
Definition pageWarnings (node_env : option string) (providers : list (string * JsValue))
  : list Event :=
  flat_map (fun kv => providerWarning node_env (fst kv) (snd kv)) providers.

(** The entries a call leaves in the store of its own request. *)
Definition entriesAfter (c : ServerCall) (entries : MapObject) : MapObject :=
  match c with
  | CallProvider _ bridgeId data _ => assoc_set bridgeId data entries
  | _ => entries
  end.

(** The calls of [calls] that belong to [request]. *)
Definition callsOf (request : nat) (calls : list ServerCall) : list ServerCall :=
  List.filter (fun c => Nat.eqb (callRequest c) request) calls.

(** ** The client *)

(** The text [getHydratedStore] finds in the document, if the element is
    there and its text is not empty. *)
Definition blobText (document : Document) : option string :=
  match getElementById document STORE_ELEMENT_ID with
  | Some el => if String.eqb (textContent el) "" then None else Some (textContent el)
  | None => None
  end.

(** The state after the assignment [clientStore = v]. *)
Definition with_store (st : ClientState) (v : JsValue) : ClientState :=
  {| clientStore := v; memoCells := memoCells st |}.

(** The first call of [getHydratedStore] in a browser, case by case. *)
Definition hydrateWith (parse : string -> Completion JsValue) (document : Document)
  (st : ClientState) : Completion JsValue * ClientState * list Event :=
  match blobText document with
  | Some text =>
      match parse text with
      | Normal v =>
          (Normal (jsOr v (VObj [])), with_store st v,
           [DomLookup STORE_ELEMENT_ID; ParseCall text])
      | Throw e =>
          (Normal (VObj []), with_store st (VObj []),
           [DomLookup STORE_ELEMENT_ID; ParseCall text;
            ConsoleError "ContextBridge Error: Unable to parse data from server."])
      end
  | None => (Normal (VObj []), with_store st (VObj []), [DomLookup STORE_ELEMENT_ID])
  end.

Definition hydrate (document : Document) (st : ClientState)
  : Completion JsValue * ClientState * list Event :=
  hydrateWith JSON_parse document st.

(** The store is hydrated when the module holds one: the test
    [if (clientStore)] of [getHydratedStore]. *)
Definition hydrated (st : ClientState) : Prop := toBoolean (clientStore st) = true.

(** What a hook answers from the store it reads. *)
Definition hookAnswer (store : JsValue) (bridgeId : string) (defaultValue : JsValue)
  : Completion JsValue :=
  match getV store bridgeId with
  | Normal data => Normal (if isUndefined data then defaultValue else data)
  | Throw e => Throw e
  end.

(** The store the component that owns [cell] reads: the one it memoized at
    its first render, else the module's. *)
Definition seenStore (st : ClientState) (cell : nat) : JsValue :=
  default (clientStore st) (memoCells st !! cell).

(** One call of a hook: which hook, where, by which component. *)
Record HookCall : Type := {
  call_bridgeId : string;
  call_default : JsValue;
  call_runtime : Runtime;
  call_cell : nat
}.

(** A client session: hook calls in the order they run; the completions
    they give and the state they leave. *)
Fixpoint runHooks (calls : list HookCall) (st : ClientState)
  : list (Completion JsValue) * ClientState :=
  match calls with
  | [] => ([], st)
  | c :: rest =>
      let r := createBridgeHook (call_bridgeId c) (call_default c)
                 (call_runtime c) (call_cell c) st in
      let '(results, st') := runHooks rest (state_after r) in
      (completion r :: results, st')
  end.

(** A client session over the [JSON.parse] of the host. *)
Fixpoint runHooksWith (parse : string -> Completion JsValue) (calls : list HookCall)
  (st : ClientState) : list (Completion JsValue) * ClientState :=
  match calls with
  | [] => ([], st)
  | c :: rest =>
      let r := useBridgeDataWith parse (call_bridgeId c) (call_default c)
                 (call_runtime c) (call_cell c) st in
      let '(results, st') := runHooksWith parse rest (state_after r) in
      (completion r :: results, st')
  end.

(** The blob is valid JSON for a falsy value: [null], [false], [0] or the
    empty string. *)
Definition blobFalsyWith (parse : string -> Completion JsValue) (document : Document)
  : bool :=
  match blobText document with
  | Some text =>
      match parse text with
      | Normal v => negb (toBoolean v)
      | Throw _ => false
      end
  | None => false
  end.

Definition blobFalsy (document : Document) : bool := blobFalsyWith JSON_parse document.

(** A document whose blob is the JSON text [null]. *)
Definition nullBlobDocument : Document :=
  [ {| el_id := STORE_ELEMENT_ID; textContent := "null" |} ].

(** A sequence of calls of [getHydratedStore]: what each answers and logs,
    and the state they leave. *)
Fixpoint runHydratorWith (parse : string -> Completion JsValue) (rts : list Runtime)
  (st : ClientState) : list (Completion JsValue * list Event) * ClientState :=
  match rts with
  | [] => ([], st)
  | rt :: rest =>
      let r := getHydratedStoreWith parse rt st in
      let '(out, st') := runHydratorWith parse rest (state_after r) in
      ((completion r, events r) :: out, st')
  end.

Definition runHydrator (rts : list Runtime) (st : ClientState)
  : list (Completion JsValue * list Event) * ClientState :=
  runHydratorWith JSON_parse rts st.

(** How many times a log shows [document.getElementById], and
    [JSON.parse]. *)
Definition lookups (log : list Event) : nat :=
  List.length (List.filter (fun e => match e with DomLookup _ => true | _ => false end) log).

Definition parses (log : list Event) : nat :=
  List.length (List.filter (fun e => match e with ParseCall _ => true | _ => false end) log).

(** The document of a page: what the browser builds from the element
    [BridgeSerializer] rendered, if it rendered one. *)
Definition pageDocument (rendered : Completion (option ScriptElement)) : Document :=
  loadDocument match rendered with
               | Normal (Some el) => [el]
               | _ => []
               end.

(** The blob is missing, empty or not JSON. *)
Definition blobUnusableWith (parse : string -> Completion JsValue) (document : Document)
  : bool :=
  match blobText document with
  | Some text =>
      match parse text with
      | Normal _ => false
      | Throw _ => true
      end
  | None => true
  end.

Definition blobUnusable (document : Document) : bool :=
  blobUnusableWith JSON_parse document.

(** Every memoized store is one [getHydratedStore] can have answered. *)
Definition cells_truthy (st : ClientState) : Prop :=
  forall cell store, memoCells st !! cell = Some store -> toBoolean store = true.

(** The document with the one element a script of text [text] becomes when
    the browser reads the text whole. *)
Definition blobDocument (text : string) : Document :=
  [ {| el_id := STORE_ELEMENT_ID; textContent := text |} ].

(** A hydrated store and a session on it, for the examples. *)
Definition sampleStore : JsValue :=
  VObj [("user", VObj [("name", VStr "Ann")]); ("theme", VNull)].

Definition sampleSession : list HookCall :=
  [ {| call_bridgeId := "user"; call_default := VStr "guest";
       call_runtime := Browser []; call_cell := 0 |};
    {| call_bridgeId := "theme"; call_default := VStr "light";
       call_runtime := Browser []; call_cell := 1 |};
    {| call_bridgeId := "user"; call_default := VStr "guest";
       call_runtime := ServerRuntime; call_cell := 2 |};
    {| call_bridgeId := "user"; call_default := VStr "guest";
       call_runtime := Browser []; call_cell := 0 |} ].

(** What a hook answers when the store has no entry for its identifier:
    what [Object.prototype] holds under that name, else its default. *)
Definition unsetAnswer (bridgeId : string) (defaultValue : JsValue) : JsValue :=
  if isUndefined (objectPrototypeGet bridgeId) then defaultValue
  else objectPrototypeGet bridgeId.

(** ** Measures for the parser *)

(** What may follow a value inside a text: nothing, a comma, or the end of
    the array or object it stands in. *)
Definition delimited (rest : list ascii) : bool :=
  match rest with
  | [] => true
  | c :: _ => ((c =? ",") || (c =? "]") || (c =? "}"))%char
  end.

(** The fuel [read_value] needs to read back the text of [j]. *)
Fixpoint weight (j : Json) : nat :=
  match j with
  | JArr items => S (list_sum (map (fun x => S (weight x)) items))
  | JObj members =>
      S (list_sum (map (fun kx => let '(_, x) := kx in S (weight x)) members))
  | _ => 1
  end.

(** The text of one member of an object. *)
Definition render_member (kx : string * Json) : list ascii :=
  let '(k, x) := kx in quote k ++ ":"%char :: render x.

(** Induction on documents, through the lists of elements and members. *)
Section JsonInduction.
Variable P : Json -> Prop.
Hypothesis HNull : P JNull.
Hypothesis HBool : forall b, P (JBool b).
Hypothesis HNum : forall n, P (JNum n).
Hypothesis HStr : forall s, P (JStr s).
Hypothesis HArr : forall items, Forall P items -> P (JArr items).
Hypothesis HObj :
  forall members, Forall (fun kx => P (snd kx)) members -> P (JObj members).

Fixpoint Json_nested_ind (j : Json) : P j :=
  match j with
  | JNull => HNull
  | JBool b => HBool b
  | JNum n => HNum n
  | JStr s => HStr s
  | JArr items =>
      HArr items
        ((fix all (l : list Json) : Forall P l :=
            match l with
            | [] => @List.Forall_nil _ P
            | x :: r => @List.Forall_cons _ P x r (Json_nested_ind x) (all r)
            end) items)
  | JObj members =>
      HObj members
        ((fix all (l : list (string * Json)) : Forall (fun kx => P (snd kx)) l :=
            match l with
            | [] => @List.Forall_nil _ _
            | (k, x) :: r =>
                @List.Forall_cons _ (fun kx => P (snd kx)) (k, x) r
                  (Json_nested_ind x) (all r)
            end) members)
  end.
End JsonInduction.

(** ** The component tree *)

(** The children of an element, rendered one after the other: the local
    function of [renderTree]. *)
Fixpoint renderChildren (contexts : gmap nat JsValue) (children : list Element)
  : Completion (list JsValue) :=
  match children with
  | [] => Normal []
  | child :: rest =>
      match renderTree contexts child with
      | Normal reads =>
          match renderChildren contexts rest with
          | Normal reads' => Normal (reads ++ reads')
          | Throw err => Throw err
          end
      | Throw err => Throw err
      end
  end.

(** [e] below the providers [frames], the outermost first. *)
Fixpoint nest (frames : list (Bridge * JsValue)) (e : Element) : Element :=
  match frames with
  | [] => e
  | (bridge, data) :: inner => BridgeProviderEl bridge data [nest inner e]
  end.

(** The [data] of the innermost provider of [bridge] among [frames]. *)
Fixpoint nearest (bridge : Bridge) (frames : list (Bridge * JsValue)) : option JsValue :=
  match frames with
  | [] => None
  | (bridge', data) :: inner =>
      match nearest bridge inner with
      | Some v => Some v
      | None => if decide (bridgeContext bridge' = bridgeContext bridge)
                then Some data else None
      end
  end.

(** Some component of the tree calls [useBridge] of [bridge]. *)
Fixpoint uses (bridge : Bridge) (e : Element) : bool :=
  match e with
  | BridgeProviderEl _ _ children => existsb (uses bridge) children
  | UseBridgeEl bridge' => bool_decide (bridgeContext bridge' = bridgeContext bridge)
  | HostEl children => existsb (uses bridge) children
  end.

(** Induction on trees, through the lists of children. *)
Section ElementInduction.
Variable P : Element -> Prop.
Hypothesis HProvider :
  forall bridge data children, Forall P children -> P (BridgeProviderEl bridge data children).
Hypothesis HUse : forall bridge, P (UseBridgeEl bridge).
Hypothesis HHost : forall children, Forall P children -> P (HostEl children).

Fixpoint Element_nested_ind (e : Element) : P e :=
  let all :=
    fix all (l : list Element) : Forall P l :=
      match l with
      | [] => @List.Forall_nil _ P
      | x :: r => @List.Forall_cons _ P x r (Element_nested_ind x) (all r)
      end in
  match e with
  | BridgeProviderEl bridge data children => HProvider bridge data children (all children)
  | UseBridgeEl bridge => HUse bridge
  | HostEl children => HHost children (all children)
  end.
End ElementInduction.

(** * Properties *)

Example parse_sample :
  JSON_parse (qq "{ 'a': [1, -20, true, null], 'b\n': 'xA\\', 'a': {} }")
  = Normal (VObj [("a", VObj []);
                  (String "b" (String (ascii_of_nat 10) ""), VStr "xA\")]).
Proof. vm_compute. reflexivity. Qed.

Example stringify_sample :
  JSON_stringify (VObj [("k", VArr [VNum (-7); VUndefined; VStr (qq "a'b")]);
                        ("f", VFunction "f"); ("n", VNaN)])
  = Normal (Some (qq "{'k':[-7,null,'a\'b'],'n':null}")).
Proof. vm_compute. reflexivity. Qed.

Example parse_rejects :
  JSON_parse (qq "{'k':'") = Throw (SyntaxError "Unexpected token or end of JSON input")
  /\ JSON_parse "01" = Throw (SyntaxError "Unexpected token or end of JSON input")
  /\ JSON_parse "1 2" = Throw (SyntaxError "Unexpected non-whitespace character after JSON")
  /\ JSON_parse "" = Throw (SyntaxError "Unexpected token or end of JSON input").
Proof. vm_compute. repeat split; reflexivity. Qed.

(** ** [JSON.parse] reads what [JSON.stringify] writes *)

Lemma read_string_escape (c : ascii) (tail : list ascii) :
  read_string_body (escape_char c ++ tail)
  = match read_string_body tail with
    | Some (cs, t) => Some (c :: cs, t)
    | None => None
    end.
Proof.
  destruct c as [[] [] [] [] [] [] [] []]; reflexivity.
Qed.

Lemma read_string_quoted (cs rest : list ascii) :
  read_string_body (flat_map escape_char cs ++ dquote :: rest) = Some (cs, rest).
Proof.
  induction cs as [|c cs IH]; [reflexivity|].
  cbn [flat_map]. rewrite <- app_assoc, read_string_escape, IH. reflexivity.
Qed.

Lemma quote_app (s : string) (rest : list ascii) :
  quote s ++ rest
  = dquote :: flat_map escape_char (list_ascii_of_string s) ++ dquote :: rest.
Proof. unfold quote. cbn. rewrite <- app_assoc. reflexivity. Qed.

Lemma uint_chars_digits (d : Decimal.uint) :
  forallb is_digit (list_ascii_of_string (NilEmpty.string_of_uint d)) = true.
Proof. induction d; cbn; auto. Qed.

Lemma span_digits_app (ds rest : list ascii) :
  forallb is_digit ds = true ->
  match rest with [] => true | c :: _ => negb (is_digit c) end = true ->
  span_digits (ds ++ rest) = (ds, rest).
Proof.
  intros Hds Hrest. induction ds as [|c ds IH]; cbn in *.
  - destruct rest as [|c r]; [reflexivity|]. cbn.
    destruct (is_digit c); [discriminate|reflexivity].
  - apply andb_prop in Hds as [Hc Hds]. rewrite Hc, (IH Hds). reflexivity.
Qed.

Lemma delimited_no_digit (rest : list ascii) :
  delimited rest = true ->
  match rest with [] => true | c :: _ => negb (is_digit c) end = true.
Proof.
  destruct rest as [|c r]; [reflexivity|]. cbn.
  intros H. repeat (apply orb_prop in H as [H|H]);
    apply Ascii.eqb_eq in H; subst c; reflexivity.
Qed.

Lemma delimited_number_ends (rest : list ascii) :
  delimited rest = true -> number_continues rest = false.
Proof.
  destruct rest as [|c r]; [reflexivity|]. cbn.
  intros H. repeat (apply orb_prop in H as [H|H]);
    apply Ascii.eqb_eq in H; subst c; reflexivity.
Qed.

Lemma read_nat_print (n : N) (rest : list ascii) :
  delimited rest = true ->
  read_nat (print_N n ++ rest) = Some (n, rest).
Proof.
  intros Hrest. unfold read_nat, print_N.
  rewrite span_digits_app by (auto using uint_chars_digits, delimited_no_digit).
  rewrite string_of_list_ascii_of_string, NilEmpty.usu, DecimalN.Unsigned.of_to.
  rewrite string_of_list_ascii_of_string, String.eqb_refl. reflexivity.
Qed.

Lemma print_N_head (n : N) :
  exists c r, print_N n = c :: r /\ is_digit c = true.
Proof.
  unfold print_N.
  assert (Hnil : N.to_uint n <> Decimal.Nil).
  { destruct n; cbn; [discriminate|apply DecimalPos.Unsigned.to_uint_nonnil]. }
  pose proof (uint_chars_digits (N.to_uint n)) as Hd.
  destruct (N.to_uint n); try congruence; cbn in *; eauto.
Qed.

Lemma read_number_print (n : Z) (rest : list ascii) :
  delimited rest = true ->
  read_number (print_Z n ++ rest) = Some (JNum n, rest).
Proof.
  intros Hrest. unfold print_Z. destruct (n <? 0)%Z eqn:Hneg.
  - cbn. rewrite read_nat_print, delimited_number_ends by assumption.
    rewrite N2Z.inj_abs_N. apply Z.ltb_lt in Hneg.
    do 2 f_equal. f_equal. lia.
  - destruct (print_N_head (Z.abs_N n)) as (c & r & Hc & Hdig).
    unfold read_number. rewrite Hc. cbn [app].
    assert ((c =? "-")%char = false) as ->.
    { destruct (Ascii.eqb_spec c "-"%char); [subst c; discriminate|reflexivity]. }
    change (c :: r ++ rest) with ((c :: r) ++ rest).
    rewrite <- Hc, read_nat_print, delimited_number_ends by assumption.
    rewrite N2Z.inj_abs_N. apply Z.ltb_ge in Hneg. do 2 f_equal. f_equal. lia.
Qed.

Lemma number_head_class (c : ascii) :
  ((c =? "-")%char || is_digit c) = true ->
  is_ws c = false /\ (c =? dquote)%char = false /\ (c =? "[")%char = false
  /\ (c =? "{")%char = false /\ (c =? "]")%char = false.
Proof.
  destruct c as [[] [] [] [] [] [] [] []]; cbn; intros H;
    try discriminate; repeat split.
Qed.

Lemma print_Z_head (n : Z) :
  exists c r, print_Z n = c :: r /\ ((c =? "-")%char || is_digit c) = true.
Proof.
  unfold print_Z. destruct (n <? 0)%Z.
  - eexists _, _. split; reflexivity.
  - destruct (print_N_head (Z.abs_N n)) as (c & r & -> & Hd).
    exists c, r. rewrite Hd, orb_true_r. auto.
Qed.

Lemma render_head (j : Json) :
  exists c r, render j = c :: r /\ is_ws c = false /\ (c =? "]")%char = false.
Proof.
  destruct j as [| [] | n | s | xs | ms]; cbn [render];
    try (eexists _, _; repeat split; reflexivity).
  destruct (print_Z_head n) as (c & r & -> & Hc).
  apply number_head_class in Hc. exists c, r. tauto.
Qed.

Lemma read_value_array (f : nat) (r : list ascii) :
  read_value (S f) ("["%char :: r)
  = match skip_ws r with
    | [] => None
    | c' :: t =>
        if (c' =? "]")%char then Some (JArr [], t)
        else match read_elements f r with
             | Some (xs, t') => Some (JArr xs, t')
             | None => None
             end
    end.
Proof. reflexivity. Qed.

Lemma read_value_object (f : nat) (r : list ascii) :
  read_value (S f) ("{"%char :: r)
  = match skip_ws r with
    | [] => None
    | c' :: t =>
        if (c' =? "}")%char then Some (JObj [], t)
        else match read_members f r with
             | Some (ms, t') => Some (JObj ms, t')
             | None => None
             end
    end.
Proof. reflexivity. Qed.

Lemma read_value_number (f : nat) (c : ascii) (r : list ascii) :
  ((c =? "-")%char || is_digit c) = true ->
  read_value (S f) (c :: r) = read_number (c :: r).
Proof.
  intros Hc. destruct (number_head_class c Hc) as (Hws & Hq & Ha & Ho & _).
  cbn [read_value skip_ws]. rewrite Hws, Hq, Ha, Ho, Hc. reflexivity.
Qed.

Lemma join_comma_cons (p : list ascii) (ps : list (list ascii)) (tl : list ascii) :
  join_comma (p :: ps) ++ tl
  = p ++ match ps with [] => tl | _ :: _ => ","%char :: join_comma ps ++ tl end.
Proof.
  destruct ps as [|p' ps]; cbn [join_comma]; [reflexivity|].
  rewrite <- app_assoc. reflexivity.
Qed.

Lemma delimited_separator (ps : list (list ascii)) (close : ascii) (tl : list ascii) :
  ((close =? "]") || (close =? "}"))%char = true ->
  delimited match ps with
            | [] => close :: tl
            | _ :: _ => ","%char :: join_comma ps ++ close :: tl
            end = true.
Proof.
  intros H. destruct ps; cbn; [|reflexivity].
  apply orb_prop in H as [H|H]; rewrite H; rewrite ?orb_true_r; reflexivity.
Qed.

Lemma read_render (fuel : nat) :
  (forall j rest, weight j <= fuel -> delimited rest = true ->
     read_value fuel (render j ++ rest) = Some (j, rest))
  /\ (forall x xs rest,
        list_sum (map (fun x => S (weight x)) (x :: xs)) <= fuel ->
        read_elements fuel (join_comma (map render (x :: xs)) ++ "]"%char :: rest)
        = Some (x :: xs, rest))
  /\ (forall m ms rest,
        list_sum (map (fun kx : string * Json => let '(_, x) := kx in S (weight x))
                      (m :: ms)) <= fuel ->
        read_members fuel (join_comma (map render_member (m :: ms)) ++ "}"%char :: rest)
        = Some (m :: ms, rest)).
Proof.
  induction fuel as [|f (IHv & IHe & IHm)].
  { repeat split.
    - intros j rest H. destruct j; cbn in H; lia.
    - intros x xs rest H. cbn in H. lia.
    - intros [k x] ms rest H. cbn in H. lia. }
  repeat split.
  - intros j rest Hw Hrest.
    destruct j as [| [] | n | s | xs | ms]; try reflexivity.
    + cbn [render]. destruct (print_Z_head n) as (c & r & Hp & Hc).
      rewrite Hp. cbn [app]. rewrite read_value_number by assumption.
      change (c :: r ++ rest) with ((c :: r) ++ rest). rewrite <- Hp.
      apply read_number_print; assumption.
    + cbn [render]. rewrite quote_app. cbn [read_value skip_ws].
      change (is_ws dquote) with false. cbv iota.
      change (dquote =? dquote)%char with true. cbv iota.
      rewrite read_string_quoted, string_of_list_ascii_of_string. reflexivity.
    + cbn [render app]. rewrite <- app_assoc. cbn [app].
      rewrite read_value_array. destruct xs as [|x xs]; [reflexivity|].
      cbn [weight] in Hw. apply le_S_n in Hw. rewrite (IHe x xs rest Hw).
      cbn [map]. rewrite join_comma_cons.
      destruct (render_head x) as (c & r & -> & Hws & Hclose).
      cbn [app skip_ws]. rewrite Hws, Hclose. reflexivity.
    + cbn [render app]. rewrite <- app_assoc. cbn [app].
      rewrite read_value_object. destruct ms as [|[k x] ms]; [reflexivity|].
      cbn [weight] in Hw.
      change (map (fun kx : string * Json => let '(k0, x0) := kx in
                     quote k0 ++ ":"%char :: render x0) ((k, x) :: ms))
        with (map render_member ((k, x) :: ms)).
      apply le_S_n in Hw. rewrite (IHm (k, x) ms rest Hw).
      cbn [map]. rewrite join_comma_cons. cbn [render_member].
      rewrite <- app_assoc, quote_app. reflexivity.
  - intros x xs rest Hw. cbn [read_elements map].
    rewrite join_comma_cons. cbn in Hw.
    rewrite IHv; [|lia|apply (delimited_separator _ "]"%char); reflexivity].
    destruct xs as [|x' xs]; [reflexivity|].
    cbn [map skip_ws]. change (is_ws ",") with false. cbv iota.
    change (("," =? ",")%char) with true. cbv iota.
    change (render x' :: map render xs) with (map render (x' :: xs)).
    rewrite IHe; [reflexivity|]. cbn in *. lia.
  - intros [k x] ms rest Hw. cbn [read_members map render_member].
    rewrite join_comma_cons, <- app_assoc, quote_app. cbn [app skip_ws].
    change (is_ws dquote) with false. cbv iota.
    change (dquote =? dquote)%char with true. cbv iota.
    rewrite read_string_quoted. cbn [skip_ws].
    change (is_ws ":") with false. cbv iota.
    change ((":" =? ":")%char) with true. cbv iota.
    cbn in Hw.
    rewrite IHv; [|lia|apply (delimited_separator _ "}"%char); reflexivity].
    rewrite string_of_list_ascii_of_string.
    destruct ms as [|m' ms]; [reflexivity|].
    cbn [map skip_ws]. change (is_ws ",") with false. cbv iota.
    change (("," =? ",")%char) with true. cbv iota.
    change (render_member m' :: map render_member ms) with (map render_member (m' :: ms)).
    rewrite IHm; [reflexivity|]. cbn in *. lia.
Qed.
Lemma sum_le_join {A : Type} (w : A -> nat) (r : A -> list ascii) (l : list A) :
  Forall (fun a => w a <= List.length (r a)) l ->
  list_sum (map (fun a => S (w a)) l) <= S (List.length (join_comma (map r l))).
Proof.
  induction 1 as [|a l Ha Hl IH]; cbn; [lia|].
  destruct l as [|b l]; cbn in *; [lia|].
  rewrite length_app. cbn. lia.
Qed.

Lemma weight_le_length (j : Json) : weight j <= List.length (render j).
Proof.
  induction j as [| b | n | s | xs IH | ms IH] using Json_nested_ind.
  - cbn. lia.
  - destruct b; cbn; lia.
  - cbn. destruct (print_Z_head n) as (c & r & -> & _). cbn. lia.
  - cbn. lia.
  - cbn [weight render]. pose proof (sum_le_join weight render xs IH) as H.
    cbn [List.length]. rewrite length_app. cbn. lia.
  - cbn [weight render].
    assert (Forall (fun kx : string * Json =>
                      (let '(_, x) := kx in weight x) <= List.length (render_member kx)) ms) as H.
    { eapply Forall_impl; [exact IH|]. intros [k x] Hx. cbn in *.
      rewrite length_app. cbn. lia. }
    apply sum_le_join in H.
    replace (map (fun kx : string * Json => let '(_, x) := kx in S (weight x)) ms)
      with (map (fun a : string * Json => S (let '(_, x) := a in weight x)) ms)
      by (apply map_ext; intros [? ?]; reflexivity).
    change (map (fun kx : string * Json => let '(k0, x0) := kx in
                   quote k0 ++ ":"%char :: render x0) ms)
      with (map render_member ms).
    cbn [List.length]. rewrite length_app. cbn. lia.
Qed.

(** Reading back the text of a document gives the document. *)
Lemma read_value_render (j : Json) :
  read_value (parse_fuel (render j)) (render j) = Some (j, []).
Proof.
  pose proof (proj1 (read_render (parse_fuel (render j))) j []) as H.
  rewrite app_nil_r in H. apply H; [|reflexivity].
  pose proof (weight_le_length j). unfold parse_fuel. lia.
Qed.

Lemma JSON_parse_render (j : Json) :
  JSON_parse (string_of_list_ascii (render j)) = Normal (fromJson j).
Proof.
  unfold JSON_parse. rewrite list_ascii_of_string_of_list_ascii.
  rewrite read_value_render. reflexivity.
Qed.

(** [JSON.parse(JSON.stringify(v))] never fails on a value that has a
    document. *)
Lemma JSON_parse_stringify (v : JsValue) (j : Json) :
  toJson v = SJson j ->
  exists text, JSON_stringify v = Normal (Some text)
               /\ JSON_parse text = Normal (fromJson j).
Proof.
  intros H. unfold JSON_stringify. rewrite H.
  eexists. split; [reflexivity|apply JSON_parse_render].
Qed.

(** ** The fuel of the parser is never short *)

Lemma skip_ws_le (s : list ascii) : List.length (skip_ws s) <= List.length s.
Proof.
  induction s as [|c s IH]; cbn; [lia|]. destruct (is_ws c); cbn; lia.
Qed.

Lemma read_string_body_shorter (s cs t : list ascii) :
  read_string_body s = Some (cs, t) -> List.length t < List.length s.
Proof.
  remember (List.length s) as n eqn:Hn. revert s cs t Hn.
  induction n as [n IH] using lt_wf_ind. intros s cs t Hn H.
  destruct s as [|c r]; [discriminate|]. cbn [read_string_body] in H. cbn in Hn.
  destruct (c =? dquote)%char; [inversion H; subst; lia|].
  destruct (c =? "\")%char.
  - destruct r as [|e r']; [discriminate|].
    destruct (e =? "u")%char.
    + destruct r' as [|h1 [|h2 [|h3 [|h4 r'']]]]; try discriminate.
      destruct (read_unicode_escape h1 h2 h3 h4); [|discriminate].
      destruct (read_string_body r'') as [[cs' t']|] eqn:E; [|discriminate].
      inversion H; subst. cbn.
      pose proof (IH (List.length r'') ltac:(cbn; lia) r'' cs' t eq_refl E). lia.
    + destruct (simple_escape e); [|discriminate].
      destruct (read_string_body r') as [[cs' t']|] eqn:E; [|discriminate].
      inversion H; subst. cbn.
      pose proof (IH (List.length r') ltac:(cbn; lia) r' cs' t eq_refl E). lia.
  - destruct (nat_of_ascii c <? 32)%nat; [discriminate|].
    destruct (read_string_body r) as [[cs' t']|] eqn:E; [|discriminate].
    inversion H; subst.
    pose proof (IH (List.length r) ltac:(lia) r cs' t eq_refl E). lia.
Qed.

Lemma span_digits_length (s ds t : list ascii) :
  span_digits s = (ds, t) -> List.length s = List.length ds + List.length t.
Proof.
  revert ds t. induction s as [|c s IH]; intros ds t H; cbn in H.
  - inversion H. reflexivity.
  - destruct (is_digit c).
    + destruct (span_digits s) as [ds' t'] eqn:E. inversion H; subst.
      cbn. rewrite (IH ds' t eq_refl). reflexivity.
    + inversion H; subst. reflexivity.
Qed.

Lemma read_nat_shorter (s : list ascii) (n : N) (t : list ascii) :
  read_nat s = Some (n, t) -> List.length t < List.length s.
Proof.
  unfold read_nat. destruct (span_digits s) as [ds t'] eqn:E.
  apply span_digits_length in E.
  destruct (NilEmpty.uint_of_string (string_of_list_ascii ds)); [|discriminate].
  destruct (String.eqb_spec (string_of_list_ascii (print_N (N.of_uint u)))
              (string_of_list_ascii ds)) as [Heq|]; [|discriminate].
  intros H. inversion H; subst.
  destruct ds as [|d ds]; [|cbn in E; lia].
  destruct (print_N_head (N.of_uint u)) as (c & r & Hc & _).
  rewrite Hc in Heq. discriminate.
Qed.

Lemma read_number_shorter (s : list ascii) (j : Json) (t : list ascii) :
  read_number s = Some (j, t) -> List.length t < List.length s.
Proof.
  unfold read_number. destruct s as [|c r]; [discriminate|].
  destruct (c =? "-")%char.
  - destruct (read_nat r) as [[n t']|] eqn:E; [|discriminate].
    destruct (number_continues t'); [discriminate|].
    intros H. inversion H; subst. apply read_nat_shorter in E. cbn. lia.
  - destruct (read_nat (c :: r)) as [[n t']|] eqn:E; [|discriminate].
    destruct (number_continues t'); [discriminate|].
    intros H. inversion H; subst. apply read_nat_shorter in E. exact E.
Qed.

Lemma strip_prefix_length (p s t : list ascii) :
  strip_prefix p s = Some t -> List.length s = List.length p + List.length t.
Proof.
  revert s. induction p as [|a p IH]; intros s H; cbn in H.
  - inversion H. reflexivity.
  - destruct s as [|b s]; [discriminate|].
    destruct (Ascii.eqb a b); [|discriminate]. cbn. rewrite (IH s H). reflexivity.
Qed.

Lemma read_literal_shorter (s : list ascii) (j : Json) (t : list ascii) :
  read_literal s = Some (j, t) -> List.length t < List.length s.
Proof.
  unfold read_literal.
  destruct (strip_prefix (list_ascii_of_string "null") s) eqn:E1.
  { intros H. inversion H; subst. apply strip_prefix_length in E1. cbn in E1. lia. }
  destruct (strip_prefix (list_ascii_of_string "true") s) eqn:E2.
  { intros H. inversion H; subst. apply strip_prefix_length in E2. cbn in E2. lia. }
  destruct (strip_prefix (list_ascii_of_string "false") s) eqn:E3; [|discriminate].
  intros H. inversion H; subst. apply strip_prefix_length in E3. cbn in E3. lia.
Qed.

Lemma skip_ws_cons (s : list ascii) (c : ascii) (r : list ascii) :
  skip_ws s = c :: r -> List.length r < List.length s.
Proof. intros H. pose proof (skip_ws_le s) as L. rewrite H in L. cbn in L. lia. Qed.

(** A successful read consumes text, and succeeds with any fuel from twice
    the length it consumed. *)
Lemma read_fuel (f : nat) :
  (forall s j t, read_value f s = Some (j, t) ->
     List.length t < List.length s
     /\ forall f', 2 * (List.length s - List.length t) <= f' ->
                   read_value f' s = Some (j, t))
  /\ (forall s xs t, read_elements f s = Some (xs, t) ->
        List.length t < List.length s
        /\ forall f', 2 * (List.length s - List.length t) <= f' ->
                      read_elements f' s = Some (xs, t))
  /\ (forall s ms t, read_members f s = Some (ms, t) ->
        List.length t < List.length s
        /\ forall f', 2 * (List.length s - List.length t) <= f' ->
                      read_members f' s = Some (ms, t)).
Proof.
  induction f as [|f (IHv & IHe & IHm)]; [repeat split; discriminate|].
  split; [|split].
  - intros s j t H. cbn [read_value] in H.
    destruct (skip_ws s) as [|c r] eqn:Hs; [discriminate|].
    pose proof (skip_ws_cons s c r Hs) as Lr.
    destruct (c =? dquote)%char eqn:Eq.
    { destruct (read_string_body r) as [[cs t']|] eqn:Eb; [|discriminate].
      inversion H; subst. pose proof (read_string_body_shorter _ _ _ Eb).
      split; [lia|]. intros [|f'] Hf; [lia|].
      cbn [read_value]. rewrite Hs, Eq, Eb. reflexivity. }
    destruct (c =? "[")%char eqn:Ea.
    { destruct (skip_ws r) as [|c' t0] eqn:Hr; [discriminate|].
      pose proof (skip_ws_cons r c' t0 Hr) as Lt.
      destruct (c' =? "]")%char eqn:Ec.
      - inversion H; subst. split; [lia|]. intros [|f'] Hf; [lia|].
        cbn [read_value]. rewrite Hs, Eq, Ea, Hr, Ec. reflexivity.
      - destruct (read_elements f r) as [[xs t']|] eqn:Ee; [|discriminate].
        inversion H; subst. destruct (IHe _ _ _ Ee) as (L & Hf').
        split; [lia|]. intros [|f'] Hf; [lia|].
        cbn [read_value]. rewrite Hs, Eq, Ea, Hr, Ec, Hf' by lia. reflexivity. }
    destruct (c =? "{")%char eqn:Eo.
    { destruct (skip_ws r) as [|c' t0] eqn:Hr; [discriminate|].
      pose proof (skip_ws_cons r c' t0 Hr) as Lt.
      destruct (c' =? "}")%char eqn:Ec.
      - inversion H; subst. split; [lia|]. intros [|f'] Hf; [lia|].
        cbn [read_value]. rewrite Hs, Eq, Ea, Eo, Hr, Ec. reflexivity.
      - destruct (read_members f r) as [[ms t']|] eqn:Ee; [|discriminate].
        inversion H; subst. destruct (IHm _ _ _ Ee) as (L & Hf').
        split; [lia|]. intros [|f'] Hf; [lia|].
        cbn [read_value]. rewrite Hs, Eq, Ea, Eo, Hr, Ec, Hf' by lia. reflexivity. }
    destruct ((c =? "-")%char || is_digit c) eqn:En.
    { pose proof (read_number_shorter _ _ _ H) as L. cbn in L.
      split; [lia|]. intros [|f'] Hf; [lia|].
      cbn [read_value]. rewrite Hs, Eq, Ea, Eo, En. exact H. }
    pose proof (read_literal_shorter _ _ _ H) as L. cbn in L.
    split; [lia|]. intros [|f'] Hf; [lia|].
    cbn [read_value]. rewrite Hs, Eq, Ea, Eo, En. exact H.
  - intros s xs t H. cbn [read_elements] in H.
    destruct (read_value f s) as [[x t1]|] eqn:Ev; [|discriminate].
    destruct (IHv _ _ _ Ev) as (L1 & Hv).
    destruct (skip_ws t1) as [|c t'] eqn:Hs; [discriminate|].
    pose proof (skip_ws_cons t1 c t' Hs) as Lt.
    destruct (c =? ",")%char eqn:Ec.
    + destruct (read_elements f t') as [[xs' u]|] eqn:Ee; [|discriminate].
      inversion H; subst. destruct (IHe _ _ _ Ee) as (L2 & He).
      split; [lia|]. intros [|f'] Hf; [lia|].
      cbn [read_elements]. rewrite Hv, Hs, Ec, He by lia. reflexivity.
    + destruct (c =? "]")%char eqn:Eb; [|discriminate].
      inversion H; subst. split; [lia|]. intros [|f'] Hf; [lia|].
      cbn [read_elements]. rewrite Hv, Hs, Ec, Eb by lia. reflexivity.
  - intros s ms t H. cbn [read_members] in H.
    destruct (skip_ws s) as [|q r] eqn:Hs; [discriminate|].
    pose proof (skip_ws_cons s q r Hs) as Lr.
    destruct (q =? dquote)%char eqn:Eq; [|discriminate].
    destruct (read_string_body r) as [[k t0]|] eqn:Eb; [|discriminate].
    pose proof (read_string_body_shorter _ _ _ Eb) as L0.
    destruct (skip_ws t0) as [|c t'] eqn:Hc; [discriminate|].
    pose proof (skip_ws_cons t0 c t' Hc) as Lc.
    destruct (c =? ":")%char eqn:Ec; [|discriminate].
    destruct (read_value f t') as [[x u]|] eqn:Ev; [|discriminate].
    destruct (IHv _ _ _ Ev) as (L1 & Hv).
    destruct (skip_ws u) as [|d u'] eqn:Hu; [discriminate|].
    pose proof (skip_ws_cons u d u' Hu) as Lu.
    destruct (d =? ",")%char eqn:Ed.
    + destruct (read_members f u') as [[ms' w]|] eqn:Em; [|discriminate].
      inversion H; subst. destruct (IHm _ _ _ Em) as (L2 & Hm).
      split; [lia|]. intros [|f'] Hf; [lia|].
      cbn [read_members]. rewrite Hs, Eq, Eb, Hc, Ec, Hv, Hu, Ed, Hm by lia.
      reflexivity.
    + destruct (d =? "}")%char eqn:Ee; [|discriminate].
      inversion H; subst. split; [lia|]. intros [|f'] Hf; [lia|].
      cbn [read_members]. rewrite Hs, Eq, Eb, Hc, Ec, Hv, Hu, Ed, Ee by lia.
      reflexivity.
Qed.

(** [JSON_parse] does not depend on its fuel: a text that some amount of
    fuel reads is read with the fuel [JSON_parse] supplies, so a
    [SyntaxError] is never a shortage of fuel. *)
Theorem parse_fuel_suffices (f : nat) (s : list ascii) (j : Json) (t : list ascii) :
  read_value f s = Some (j, t) -> read_value (parse_fuel s) s = Some (j, t).
Proof.
  intros H. destruct (proj1 (read_fuel f) _ _ _ H) as (L & Hf).
  apply Hf. unfold parse_fuel. lia.
Qed.

(** ** Insertion-ordered tables *)

Lemma assoc_get_set_eq {A : Type} (k : string) (v : A) (m : list (string * A)) :
  assoc_get k (assoc_set k v m) = Some v.
Proof.
  induction m as [|[k' v'] m IH]; cbn.
  - rewrite String.eqb_refl. reflexivity.
  - destruct (String.eqb k k') eqn:E; cbn; rewrite ?String.eqb_refl, ?E; auto.
Qed.

Lemma assoc_get_set_ne {A : Type} (k k' : string) (v : A) (m : list (string * A)) :
  k <> k' -> assoc_get k' (assoc_set k v m) = assoc_get k' m.
Proof.
  intros Hne. induction m as [|[k0 v0] m IH]; cbn.
  - destruct (String.eqb_spec k' k); congruence.
  - destruct (String.eqb_spec k k0); cbn.
    + subst k0. destruct (String.eqb_spec k' k); congruence.
    + rewrite IH. reflexivity.
Qed.

Lemma assoc_set_keys {A : Type} (k : string) (v : A) (m : list (string * A)) :
  map fst (assoc_set k v m)
  = if string_mem k (map fst m) then map fst m else map fst m ++ [k].
Proof.
  unfold string_mem. induction m as [|[k' v'] m IH]; cbn; [reflexivity|].
  destruct (String.eqb_spec k k'); cbn.
  - subst. reflexivity.
  - rewrite IH. destruct (existsb (String.eqb k) (map fst m)); reflexivity.
Qed.

Lemma string_mem_In (k : string) (l : list string) :
  string_mem k l = true <-> In k l.
Proof.
  unfold string_mem. rewrite existsb_exists. split.
  - intros (x & Hx & E). apply String.eqb_eq in E. subst. exact Hx.
  - intros H. exists k. split; [exact H|apply String.eqb_refl].
Qed.

Lemma assoc_set_NoDup {A : Type} (k : string) (v : A) (m : list (string * A)) :
  List.NoDup (map fst m) -> List.NoDup (map fst (assoc_set k v m)).
Proof.
  intros H. rewrite assoc_set_keys.
  destruct (string_mem k (map fst m)) eqn:E; [exact H|].
  apply List.NoDup_app; [exact H|repeat constructor; intros []|].
  intros x Hx [<-|[]]. apply string_mem_In in Hx. congruence.
Qed.

Lemma assoc_get_None {A : Type} (k : string) (m : list (string * A)) :
  assoc_get k m = None <-> ~ In k (map fst m).
Proof.
  induction m as [|[k' v'] m IH]; cbn; [tauto|].
  destruct (String.eqb_spec k k'); [subst; split; [discriminate|tauto]|].
  rewrite IH. split; [intros H [E|I]; [congruence|tauto]|tauto].
Qed.

Lemma assoc_set_fresh {A : Type} (k : string) (v : A) (m : list (string * A)) :
  ~ In k (map fst m) -> assoc_set k v m = m ++ [(k, v)].
Proof.
  induction m as [|[k' v'] m IH]; cbn; [reflexivity|]. intros H.
  destruct (String.eqb_spec k k'); [subst; tauto|].
  rewrite IH by tauto. reflexivity.
Qed.

Lemma fold_assoc_set_NoDup {A : Type} (l acc : list (string * A)) :
  List.NoDup (map fst (acc ++ l)) ->
  fold_left (fun o kv => assoc_set (fst kv) (snd kv) o) l acc = acc ++ l.
Proof.
  revert acc. induction l as [|[k v] l IH]; intros acc H; cbn.
  - rewrite app_nil_r. reflexivity.
  - rewrite assoc_set_fresh.
    + rewrite IH; rewrite <- app_assoc; [reflexivity|exact H].
    + rewrite map_app in H. cbn in H. apply NoDup_remove_2 in H.
      intros Hin. apply H. apply in_or_app. auto.
Qed.

(** [Object.fromEntries] of the entries of a [Map] has exactly these
    properties. *)
Lemma assoc_of_entries_NoDup {A : Type} (l : list (string * A)) :
  List.NoDup (map fst l) -> assoc_of_entries l = l.
Proof. intros H. apply (fold_assoc_set_NoDup l []). exact H. Qed.

Lemma fold_assoc_set_keys_NoDup {A : Type} (l acc : list (string * A)) :
  List.NoDup (map fst acc) ->
  List.NoDup (map fst (fold_left (fun o kv => assoc_set (fst kv) (snd kv) o) l acc)).
Proof.
  revert acc. induction l as [|[k v] l IH]; intros acc H; cbn; [exact H|].
  apply IH, assoc_set_NoDup, H.
Qed.

(** ** The request store *)

Lemma getRequestStore_hit (request ref : nat) (st : ServerState) :
  requestCache st !! request = Some ref ->
  getRequestStore request st = (Normal ref, st, []).
Proof. intros H. unfold getRequestStore. eff. rewrite H. reflexivity. Qed.

Lemma getRequestStore_miss (request : nat) (st : ServerState) :
  requestCache st !! request = None ->
  getRequestStore request st
  = (Normal (fresh (dom (heap st))),
     {| heap := <[fresh (dom (heap st)) := []]> (heap st);
        requestCache := <[request := fresh (dom (heap st))]> (requestCache st) |},
     []).
Proof. intros H. unfold getRequestStore, newMap. eff. rewrite H. reflexivity. Qed.

Lemma fresh_unallocated (st : ServerState) : heap st !! fresh (dom (heap st)) = None.
Proof. apply not_elem_of_dom, is_fresh. Qed.

Lemma getRequestStore_wf (request : nat) (st : ServerState) :
  wf st -> wf (state_after (getRequestStore request st)).
Proof.
  intros [Ha Hs Hk]. destruct (requestCache st !! request) as [ref|] eqn:Hc.
  - rewrite (getRequestStore_hit _ _ _ Hc). split; assumption.
  - rewrite (getRequestStore_miss _ _ Hc). cbn.
    pose proof (fresh_unallocated st) as Hf.
    split; cbn.
    + intros r ref. rewrite lookup_insert. case_decide; intros Hr.
      * inversion Hr; subst. rewrite lookup_insert_eq. eauto.
      * rewrite lookup_insert_ne; [eauto|]. intros <-.
        destruct (Ha _ _ Hr) as [? ?]. congruence.
    + intros r1 r2 ref. rewrite !lookup_insert.
      repeat case_decide; intros H1 H2; simplify_eq; auto.
      * destruct (Ha _ _ H2) as [? ?]. congruence.
      * destruct (Ha _ _ H1) as [? ?]. congruence.
      * eauto.
    + intros ref m. rewrite lookup_insert. case_decide; intros Hm; simplify_eq.
      * constructor.
      * eauto.
Qed.
Lemma getRequestStore_eq (request : nat) (st : ServerState) :
  getRequestStore request st
  = (Normal (storeRef st request), ensureStore st request, []).
Proof.
  unfold storeRef, ensureStore.
  destruct (requestCache st !! request) as [ref|] eqn:Hc.
  - apply getRequestStore_hit, Hc.
  - apply getRequestStore_miss, Hc.
Qed.

Lemma ensureStore_cached (request : nat) (st : ServerState) :
  requestCache (ensureStore st request) !! request = Some (storeRef st request).
Proof.
  unfold ensureStore, storeRef.
  destruct (requestCache st !! request) eqn:Hc; [exact Hc|].
  cbn. apply lookup_insert_eq.
Qed.

Lemma ensureStore_entries (request : nat) (st : ServerState) :
  deref (ensureStore st request) (storeRef st request) = requestEntries st request.
Proof.
  unfold ensureStore, storeRef, requestEntries.
  destruct (requestCache st !! request) eqn:Hc; [reflexivity|].
  unfold deref. cbn. rewrite lookup_insert_eq. reflexivity.
Qed.

Lemma Provider_eq (node_env : option string) (bridgeId : string) (data : JsValue)
  (request : nat) (st : ServerState) :
  Provider node_env bridgeId data request st
  = (Normal tt,
     setEntry (ensureStore st request) (storeRef st request) bridgeId data,
     providerWarning node_env bridgeId data).
Proof.
  unfold Provider, Map_set, providerWarning. unfold bind at 1.
  destruct (isDevelopment node_env); cbn [andb].
  - destruct (isUndefined data || isFunction data || isSymbol data);
      eff; rewrite getRequestStore_eq; reflexivity.
  - eff. rewrite getRequestStore_eq. reflexivity.
Qed.

Lemma BridgeSerializer_eq (node_env : option string) (request : nat) (st : ServerState) :
  BridgeSerializer node_env request st
  = (fst (serializerOutcome node_env (requestEntries st request)),
     ensureStore st request,
     snd (serializerOutcome node_env (requestEntries st request))).
Proof.
  unfold BridgeSerializer, Map_size, Map_entries, serializerOutcome.
  unfold bind at 1. rewrite getRequestStore_eq.
  eff. cbv beta iota. rewrite ensureStore_entries.
  destruct (requestEntries st request) as [|e entries] eqn:He; [reflexivity|].
  cbn [List.length Nat.eqb]. cbv beta iota. rewrite ensureStore_entries, He.
  destruct (JSON_stringify (Object_fromEntries (e :: entries))) as [js|err];
    [reflexivity|].
  destruct (isDevelopment node_env); reflexivity.
Qed.

Lemma emptyServer_wf : wf emptyServer.
Proof.
  split; cbn; intros *; rewrite lookup_empty; discriminate.
Qed.

Lemma ensureStore_wf (request : nat) (st : ServerState) :
  wf st -> wf (ensureStore st request).
Proof.
  intros H. pose proof (getRequestStore_wf request st H) as H'.
  rewrite getRequestStore_eq in H'. exact H'.
Qed.

Lemma deref_NoDup (st : ServerState) (ref : nat) :
  wf st -> List.NoDup (map fst (deref st ref)).
Proof.
  intros [_ _ Hk]. unfold deref.
  destruct (heap st !! ref) eqn:E; cbn; [eauto|constructor].
Qed.

Lemma setEntry_wf (st : ServerState) (ref : nat) (k : string) (v : JsValue) :
  wf st -> wf (setEntry st ref k v).
Proof.
  intros Hwf. pose proof (deref_NoDup st ref Hwf) as Hnd.
  destruct Hwf as [Ha Hs Hk]. split; cbn.
  - intros r ref' Hc. rewrite lookup_insert. case_decide; eauto.
  - exact Hs.
  - intros ref' m. rewrite lookup_insert. case_decide; intros Hm; simplify_eq; eauto.
    apply assoc_set_NoDup, Hnd.
Qed.

Lemma requestEntries_ensureStore (st : ServerState) (request r : nat) :
  wf st -> requestEntries (ensureStore st request) r = requestEntries st r.
Proof.
  intros [Ha _ _]. unfold ensureStore.
  destruct (requestCache st !! request) eqn:Hc; [reflexivity|].
  unfold requestEntries, deref. cbn. rewrite lookup_insert. case_decide.
  - subst r. rewrite Hc, lookup_insert_eq. reflexivity.
  - destruct (requestCache st !! r) as [ref|] eqn:Hr; [|reflexivity].
    rewrite lookup_insert_ne; [reflexivity|]. intros <-.
    destruct (Ha _ _ Hr) as [m Hm]. rewrite fresh_unallocated in Hm. discriminate.
Qed.

Lemma requestEntries_setEntry (st : ServerState) (request ref r : nat)
  (k : string) (v : JsValue) :
  wf st -> requestCache st !! request = Some ref ->
  requestEntries (setEntry st ref k v) r
  = if decide (r = request) then assoc_set k v (requestEntries st request)
    else requestEntries st r.
Proof.
  intros [_ Hs _] Hc. unfold requestEntries, setEntry, deref. cbn.
  case_decide.
  - subst r. rewrite Hc, lookup_insert_eq. reflexivity.
  - destruct (requestCache st !! r) as [ref'|] eqn:Hr; [|reflexivity].
    rewrite lookup_insert_ne; [reflexivity|]. intros <-. eauto.
Qed.

Lemma requestEntries_written (st : ServerState) (request r : nat)
  (k : string) (v : JsValue) :
  wf st ->
  requestEntries (setEntry (ensureStore st request) (storeRef st request) k v) r
  = if decide (r = request) then assoc_set k v (requestEntries st request)
    else requestEntries st r.
Proof.
  intros Hwf.
  rewrite (requestEntries_setEntry _ request)
    by auto using ensureStore_wf, ensureStore_cached.
  rewrite !requestEntries_ensureStore by assumption. reflexivity.
Qed.

(** A Provider writes its entry into the store of its own request and into
    no other. *)
Lemma Provider_entries (node_env : option string) (bridgeId : string) (data : JsValue)
  (request r : nat) (st : ServerState) :
  wf st ->
  requestEntries (state_after (Provider node_env bridgeId data request st)) r
  = if decide (r = request) then assoc_set bridgeId data (requestEntries st request)
    else requestEntries st r.
Proof.
  intros Hwf. rewrite Provider_eq. apply requestEntries_written, Hwf.
Qed.

Lemma Provider_wf (node_env : option string) (bridgeId : string) (data : JsValue)
  (request : nat) (st : ServerState) :
  wf st -> wf (state_after (Provider node_env bridgeId data request st)).
Proof.
  intros Hwf. rewrite Provider_eq. apply setEntry_wf, ensureStore_wf, Hwf.
Qed.

Lemma BridgeSerializer_entries (node_env : option string) (request r : nat)
  (st : ServerState) :
  wf st ->
  requestEntries (state_after (BridgeSerializer node_env request st)) r
  = requestEntries st r.
Proof.
  intros Hwf. rewrite BridgeSerializer_eq. apply requestEntries_ensureStore, Hwf.
Qed.

Lemma BridgeSerializer_wf (node_env : option string) (request : nat) (st : ServerState) :
  wf st -> wf (state_after (BridgeSerializer node_env request st)).
Proof. intros Hwf. rewrite BridgeSerializer_eq. apply ensureStore_wf, Hwf. Qed.

Lemma runCall_wf (c : ServerCall) (st : ServerState) : wf st -> wf (runCall st c).
Proof.
  intros H. destruct c; unfold runCall;
    [apply getRequestStore_wf|apply Provider_wf|apply BridgeSerializer_wf]; exact H.
Qed.

Lemma runCalls_wf (calls : list ServerCall) (st : ServerState) :
  wf st -> wf (runCalls calls st).
Proof.
  revert st. induction calls as [|c calls IH]; intros st H; cbn; [exact H|].
  apply IH, runCall_wf, H.
Qed.




(** The store after the Providers of a page have rendered. *)
Lemma renderProviders_eq (node_env : option string) (request : nat)
  (providers : list (string * JsValue)) (st : ServerState) :
  wf st ->
  completion (renderProviders node_env request providers st) = Normal tt
  /\ wf (state_after (renderProviders node_env request providers st))
  /\ forall r,
       requestEntries (state_after (renderProviders node_env request providers st)) r
       = if decide (r = request)
         then fold_left (fun o kv => assoc_set (fst kv) (snd kv) o) providers
                (requestEntries st request)
         else requestEntries st r.
Proof.
  revert st. induction providers as [|[k v] providers IH]; intros st Hwf.
  - cbn. split; [reflexivity|split; [exact Hwf|]].
    intros r. case_decide; subst; reflexivity.
  - cbn [renderProviders]. unfold createBridgeProvider, bind.
    pose proof (Provider_wf node_env k v request st Hwf) as Hwf'.
    rewrite Provider_eq in *. unfold state_after in *. cbn [fst snd] in *.
    destruct (IH _ Hwf') as (Hc & Hw & Hr).
    destruct (renderProviders node_env request providers _) as [[c st'] log].
    unfold completion, state_after in *. cbn [fst snd] in *.
    split; [exact Hc|split; [exact Hw|]].
    intros r. rewrite Hr. case_decide.
    + cbn [fold_left fst snd]. rewrite requestEntries_written by assumption.
      case_decide; [reflexivity|congruence].
    + rewrite requestEntries_written by assumption.
      case_decide; [congruence|reflexivity].
Qed.

(** ** The hydrator and the hooks *)

Section AnyParse.
Variable parse : string -> Completion JsValue.

Lemma getHydratedStoreWith_cached (rt : Runtime) (st : ClientState) :
  toBoolean (clientStore st) = true ->
  getHydratedStoreWith parse rt st = (Normal (clientStore st), st, []).
Proof.
  intros H. unfold getHydratedStoreWith, bind, get. cbn. rewrite H. reflexivity.
Qed.

Lemma getHydratedStoreWith_server (st : ClientState) :
  toBoolean (clientStore st) = false ->
  getHydratedStoreWith parse ServerRuntime st = (Normal (VObj []), st, []).
Proof.
  intros H. unfold getHydratedStoreWith, bind, get. cbn. rewrite H. reflexivity.
Qed.

Lemma getHydratedStoreWith_browser (document : Document) (st : ClientState) :
  toBoolean (clientStore st) = false ->
  getHydratedStoreWith parse (Browser document) st = hydrateWith parse document st.
Proof.
  intros H. unfold getHydratedStoreWith, hydrateWith, blobText, bind, get. cbn.
  rewrite H.
  unfold try_catch, bind, dom_getElementById, json_parse, set_clientStore,
    bind, emit, ret, lift, get, put, with_store.
  cbn.
  destruct (getElementById document STORE_ELEMENT_ID) as [el|]; cbn; [|reflexivity].
  destruct (String.eqb (textContent el) ""); cbn; [reflexivity|].
  destruct (parse (textContent el)); cbn; reflexivity.
Qed.

(** [getHydratedStore] completes normally, with a store that is not
    [null] or [undefined], and leaves the memo cells alone. *)
Lemma getHydratedStoreWith_total (rt : Runtime) (st : ClientState) :
  exists store,
    completion (getHydratedStoreWith parse rt st) = Normal store
    /\ toBoolean store = true
    /\ memoCells (state_after (getHydratedStoreWith parse rt st)) = memoCells st.
Proof.
  destruct (toBoolean (clientStore st)) eqn:Hc.
  - rewrite getHydratedStoreWith_cached by assumption. eauto.
  - destruct rt as [|document].
    + rewrite getHydratedStoreWith_server by assumption. eexists. repeat split.
    + rewrite getHydratedStoreWith_browser by assumption. unfold hydrateWith.
      destruct (blobText document) as [text|]; [|eexists; repeat split].
      destruct (parse text) as [v|e]; [|eexists; repeat split].
      exists (jsOr v (VObj [])). repeat split.
      unfold jsOr. destruct (toBoolean v) eqn:E; [exact E|reflexivity].
Qed.

Lemma useBridgeDataWith_memoized (bridgeId : string) (defaultValue : JsValue)
  (rt : Runtime) (cell : nat) (st : ClientState) (store : JsValue) :
  memoCells st !! cell = Some store ->
  useBridgeDataWith parse bridgeId defaultValue rt cell st
  = (hookAnswer store bridgeId defaultValue, st, []).
Proof.
  intros H. unfold useBridgeDataWith, useMemo, hookAnswer, bind, get, lift, ret.
  rewrite H. destruct (getV store bridgeId) as [data|e]; [|reflexivity].
  destruct (isUndefined data); reflexivity.
Qed.

Lemma useBridgeDataWith_first_render (bridgeId : string) (defaultValue : JsValue)
  (rt : Runtime) (cell : nat) (st st' : ClientState) (store : JsValue)
  (log : list Event) :
  memoCells st !! cell = None ->
  getHydratedStoreWith parse rt st = (Normal store, st', log) ->
  useBridgeDataWith parse bridgeId defaultValue rt cell st
  = (hookAnswer store bridgeId defaultValue,
     {| clientStore := clientStore st'; memoCells := <[cell := store]> (memoCells st') |},
     log).
Proof.
  intros H Hg. unfold useBridgeDataWith, useMemo, hookAnswer, bind, get, put, lift, ret.
  rewrite H, Hg. destruct (getV store bridgeId) as [data|e];
    [destruct (isUndefined data)|]; cbn; rewrite ?app_nil_r; reflexivity.
Qed.

End AnyParse.

Lemma getHydratedStore_cached (rt : Runtime) (st : ClientState) :
  toBoolean (clientStore st) = true ->
  getHydratedStore rt st = (Normal (clientStore st), st, []).
Proof. apply getHydratedStoreWith_cached. Qed.

Lemma getHydratedStore_server (st : ClientState) :
  toBoolean (clientStore st) = false ->
  getHydratedStore ServerRuntime st = (Normal (VObj []), st, []).
Proof. apply getHydratedStoreWith_server. Qed.

Lemma getHydratedStore_browser (document : Document) (st : ClientState) :
  toBoolean (clientStore st) = false ->
  getHydratedStore (Browser document) st = hydrate document st.
Proof. apply getHydratedStoreWith_browser. Qed.

Lemma getHydratedStore_total (rt : Runtime) (st : ClientState) :
  exists store,
    completion (getHydratedStore rt st) = Normal store
    /\ toBoolean store = true
    /\ memoCells (state_after (getHydratedStore rt st)) = memoCells st.
Proof. apply getHydratedStoreWith_total. Qed.

Lemma useBridgeData_memoized (bridgeId : string) (defaultValue : JsValue)
  (rt : Runtime) (cell : nat) (st : ClientState) (store : JsValue) :
  memoCells st !! cell = Some store ->
  useBridgeData bridgeId defaultValue rt cell st
  = (hookAnswer store bridgeId defaultValue, st, []).
Proof. apply useBridgeDataWith_memoized. Qed.

Lemma useBridgeData_first_render (bridgeId : string) (defaultValue : JsValue)
  (rt : Runtime) (cell : nat) (st st' : ClientState) (store : JsValue)
  (log : list Event) :
  memoCells st !! cell = None ->
  getHydratedStore rt st = (Normal store, st', log) ->
  useBridgeData bridgeId defaultValue rt cell st
  = (hookAnswer store bridgeId defaultValue,
     {| clientStore := clientStore st'; memoCells := <[cell := store]> (memoCells st') |},
     log).
Proof. apply useBridgeDataWith_first_render. Qed.

(** A truthy store has properties to read. *)
Lemma getV_truthy (store : JsValue) (k : string) :
  toBoolean store = true ->
  getV store k = Normal (match ownProperty store k with
                         | Some x => x
                         | None => objectPrototypeGet k
                         end).
Proof.
  intros H. destruct store; try discriminate; cbn;
    try reflexivity; match goal with |- context [match ?o with _ => _ end] =>
                                       destruct o; reflexivity end.
Qed.

(** One hook call once the store is hydrated. *)
Lemma useBridgeData_hydrated (bridgeId : string) (defaultValue : JsValue)
  (rt : Runtime) (cell : nat) (st : ClientState) :
  hydrated st ->
  completion (useBridgeData bridgeId defaultValue rt cell st)
  = hookAnswer (seenStore st cell) bridgeId defaultValue
  /\ clientStore (state_after (useBridgeData bridgeId defaultValue rt cell st))
     = clientStore st
  /\ forall c,
       seenStore (state_after (useBridgeData bridgeId defaultValue rt cell st)) c
       = seenStore st c.
Proof.
  intros Hh. unfold seenStore.
  destruct (memoCells st !! cell) as [store|] eqn:Hm.
  - rewrite (useBridgeData_memoized _ _ _ _ _ _ Hm). cbn. auto.
  - rewrite (useBridgeData_first_render _ _ _ _ _ _ _ _ Hm
               (getHydratedStore_cached rt st Hh)).
    cbn. repeat split. intros c. rewrite lookup_insert. case_decide.
    + subst c. rewrite Hm. reflexivity.
    + reflexivity.
Qed.

(** ** From the store to the blob and back *)

Lemma assoc_get_app {A : Type} (k : string) (l1 l2 : list (string * A)) :
  assoc_get k (l1 ++ l2)
  = match assoc_get k l1 with Some v => Some v | None => assoc_get k l2 end.
Proof.
  induction l1 as [|[k' v'] l1 IH]; cbn; [reflexivity|].
  destruct (String.eqb k k'); [reflexivity|exact IH].
Qed.

(** The last write wins. *)
Lemma fold_assoc_get {A : Type} (k : string) (l acc : list (string * A)) :
  assoc_get k (fold_left (fun o kv => assoc_set (fst kv) (snd kv) o) l acc)
  = match assoc_get k (rev l) with Some v => Some v | None => assoc_get k acc end.
Proof.
  revert acc. induction l as [|[k0 v0] l IH]; intros acc; cbn; [reflexivity|].
  rewrite IH, assoc_get_app. destruct (assoc_get k (rev l)); [reflexivity|].
  cbn. destruct (String.eqb_spec k k0).
  - subst. apply assoc_get_set_eq.
  - apply assoc_get_set_ne. congruence.
Qed.

Lemma count_key_absent {A : Type} (k : string) (l : list (string * A)) :
  ~ In k (map fst l) -> count_key k l = 0.
Proof.
  induction l as [|[k' v'] l IH]; cbn; [reflexivity|].
  intros H. destruct (String.eqb_spec k' k); [subst; tauto|]. apply IH. tauto.
Qed.

Lemma count_key_NoDup {A : Type} (k : string) (l : list (string * A)) :
  List.NoDup (map fst l) ->
  count_key k l = match assoc_get k l with Some _ => 1 | None => 0 end.
Proof.
  induction l as [|[k' v'] l IH]; cbn; [reflexivity|].
  intros H. inversion H as [|? ? Hnin Hnd]; subst.
  rewrite (String.eqb_sym k k'). destruct (String.eqb_spec k' k).
  - subst. rewrite (count_key_absent k l Hnin). reflexivity.
  - apply IH, Hnd.
Qed.

Lemma objectMembers_spec (l : list (string * Serialized)) (ms : list (string * Json)) :
  objectMembers l = Some ms ->
  (forall k, In k (map fst ms) -> In k (map fst l))
  /\ (List.NoDup (map fst l) ->
      List.NoDup (map fst ms)
      /\ forall k, assoc_get k ms
                   = match assoc_get k l with Some (SJson j) => Some j | _ => None end).
Proof.
  revert ms. induction l as [|[k0 [| |j0]] l IH]; intros ms H; cbn in H.
  - inversion H; subst. cbn. split; [tauto|]. intros _. split; [constructor|reflexivity].
  - discriminate.
  - destruct (IH ms H) as (Hsub & Hnd). split; [cbn; auto|].
    intros Hl. inversion Hl as [|? ? Hnin Hl']; subst.
    destruct (Hnd Hl') as (Hm & Hget). split; [exact Hm|].
    intros k. cbn. destruct (String.eqb_spec k k0); [|apply Hget].
    subst. apply assoc_get_None. auto.
  - destruct (objectMembers l) as [ms'|] eqn:E; [|discriminate].
    inversion H; subst. destruct (IH ms' eq_refl) as (Hsub & Hnd).
    split; [cbn; intros k [->|Hk]; auto|].
    intros Hl. inversion Hl as [|? ? Hnin Hl']; subst.
    destruct (Hnd Hl') as (Hm & Hget). split.
    + cbn. constructor; auto.
    + intros k. cbn. destruct (String.eqb k k0); [reflexivity|apply Hget].
Qed.

Lemma assoc_get_serialized (k : string) (entries : list (string * JsValue)) :
  assoc_get k (serializedEntries entries) = option_map toJson (assoc_get k entries).
Proof.
  induction entries as [|[k' v'] l IH]; cbn; [reflexivity|].
  destruct (String.eqb k k'); [reflexivity|exact IH].
Qed.

Lemma serializedEntries_keys (entries : list (string * JsValue)) :
  map fst (serializedEntries entries) = map fst entries.
Proof.
  unfold serializedEntries. rewrite map_map. apply map_ext. intros [? ?]. reflexivity.
Qed.

Lemma toJson_object (props : list (string * JsValue)) :
  toJson (VObj props)
  = match objectMembers (serializedEntries props) with
    | Some ms => SJson (JObj ms)
    | None => SThrow
    end.
Proof. reflexivity. Qed.

(** [JSON.stringify] of an object: a text, or an exception; never
    [undefined]. *)
Lemma JSON_stringify_object (props : list (string * JsValue)) :
  JSON_stringify (VObj props)
  = match objectMembers (serializedEntries props) with
    | Some ms => Normal (Some (string_of_list_ascii (render (JObj ms))))
    | None => Throw (TypeError "Converting circular structure or BigInt to JSON")
    end.
Proof.
  unfold JSON_stringify. rewrite toJson_object.
  destruct (objectMembers (serializedEntries props)); reflexivity.
Qed.

Lemma fromJson_defined (j : Json) : isUndefined (fromJson j) = false.
Proof. destruct j; reflexivity. Qed.

Lemma fromJson_object_truthy (ms : list (string * Json)) :
  toBoolean (fromJson (JObj ms)) = true.
Proof. reflexivity. Qed.

Lemma assoc_get_map {A B : Type} (f : A -> B) (k : string) (l : list (string * A)) :
  assoc_get k (map (fun kx => let '(k0, x) := kx in (k0, f x)) l)
  = option_map f (assoc_get k l).
Proof.
  induction l as [|[k' v'] l IH]; cbn; [reflexivity|].
  destruct (String.eqb k k'); [reflexivity|exact IH].
Qed.

(** The own properties of a parsed object: the last member of each name. *)
Lemma ownProperty_fromJson (ms : list (string * Json)) (k : string) :
  List.NoDup (map fst ms) ->
  ownProperty (fromJson (JObj ms)) k = option_map fromJson (assoc_get k ms).
Proof.
  intros H. cbn [fromJson ownProperty].
  rewrite assoc_of_entries_NoDup.
  - apply assoc_get_map.
  - rewrite map_map.
    erewrite map_ext; [exact H|]. intros [? ?]. reflexivity.
Qed.

Lemma scriptText_whole (html : list ascii) :
  forallb (fun c => negb (c =? "<")%char) html = true -> scriptText html = html.
Proof.
  induction html as [|c html IH]; [reflexivity|].
  cbn [forallb]. intros H. apply andb_prop in H as [Hc Hrest].
  cbn [scriptText]. unfold at_script_end_tag. cbn [list_ascii_of_string strip_prefix_ci].
  assert ((("<"%char =? lower c)%char) = false) as ->.
  { destruct c as [[] [] [] [] [] [] [] []]; try reflexivity; discriminate. }
  rewrite IH by assumption. reflexivity.
Qed.

(** The document built from a script whose text holds no [<] carries that
    text. *)
Lemma loadDocument_whole (el : ScriptElement) :
  no_less_than (innerHTML el) = true ->
  loadDocument [el] = [ {| el_id := script_id el; textContent := innerHTML el |} ].
Proof.
  intros H. unfold loadDocument. cbn [map].
  rewrite scriptText_whole by exact H.
  rewrite string_of_list_ascii_of_string. reflexivity.
Qed.

Lemma requestEntries_NoDup (st : ServerState) (request : nat) :
  wf st -> List.NoDup (map fst (requestEntries st request)).
Proof.
  intros H. unfold requestEntries.
  destruct (requestCache st !! request); [apply deref_NoDup, H|constructor].
Qed.

Lemma pageEntries_NoDup (st : ServerState) (request : nat)
  (providers : list (string * JsValue)) :
  wf st -> List.NoDup (map fst (pageEntries st request providers)).
Proof. intros H. apply fold_assoc_set_keys_NoDup, requestEntries_NoDup, H. Qed.

Lemma pageEntries_last (st : ServerState) (request : nat)
  (providers : list (string * JsValue)) (bridgeId : string) (v : JsValue) :
  last_set bridgeId providers = Some v ->
  assoc_get bridgeId (pageEntries st request providers) = Some v.
Proof.
  intros H. unfold pageEntries, last_set in *. rewrite fold_assoc_get, H. reflexivity.
Qed.

(** A page: the Providers never throw, and [BridgeSerializer] answers for
    the entries they left. *)
Lemma renderPage_eq (node_env : option string) (request : nat)
  (providers : list (string * JsValue)) (st : ServerState) :
  wf st ->
  completion (renderPage node_env request providers st)
  = fst (serializerOutcome node_env (pageEntries st request providers)).
Proof.
  intros Hwf. unfold renderPage, bind.
  destruct (renderProviders_eq node_env request providers st Hwf) as (Hc & Hw & He).
  destruct (renderProviders node_env request providers st) as [[c st1] log].
  unfold completion, state_after in *. cbn [fst snd] in *. subst c.
  rewrite BridgeSerializer_eq. cbn [fst snd].
  rewrite He. case_decide; [reflexivity|congruence].
Qed.

Lemma serializerOutcome_script (node_env : option string) (entries : MapObject)
  (el : ScriptElement) :
  List.NoDup (map fst entries) ->
  fst (serializerOutcome node_env entries) = Normal (Some el) ->
  entries <> []
  /\ exists ms,
       objectMembers (serializedEntries entries) = Some ms
       /\ List.NoDup (map fst ms)
       /\ JSON_stringify (Object_fromEntries entries)
          = Normal (Some (string_of_list_ascii (render (JObj ms))))
       /\ el = storeScript (Some (string_of_list_ascii (render (JObj ms)))).
Proof.
  intros Hnd H. unfold serializerOutcome in H.
  destruct entries as [|e entries]; [discriminate|]. split; [discriminate|].
  unfold Object_fromEntries in *. rewrite assoc_of_entries_NoDup in * by exact Hnd.
  rewrite JSON_stringify_object in *.
  destruct (objectMembers (serializedEntries (e :: entries))) as [ms|] eqn:Hm.
  - exists ms. cbn in H. inversion H; subst.
    destruct (objectMembers_spec _ _ Hm) as (_ & Hs).
    rewrite serializedEntries_keys in Hs. destruct (Hs Hnd) as (Hms & _).
    repeat split; assumption.
  - destruct (isDevelopment node_env); discriminate.
Qed.

(** A browser that reads the blob whole hydrates the parsed document, and
    the hook answers from it. *)
Lemma hook_reads_blob (ms : list (string * Json)) (bridgeId : string)
  (defaultValue : JsValue) (cell : nat) :
  List.NoDup (map fst ms) ->
  completion (useBridgeData bridgeId defaultValue
                (Browser (blobDocument (string_of_list_ascii (render (JObj ms)))))
                cell freshClient)
  = Normal match assoc_get bridgeId ms with
           | Some j => fromJson j
           | None =>
               if isUndefined (objectPrototypeGet bridgeId) then defaultValue
               else objectPrototypeGet bridgeId
           end.
Proof.
  intros Hnd.
  pose proof (getHydratedStore_browser
                (blobDocument (string_of_list_ascii (render (JObj ms))))
                freshClient eq_refl) as Hg.
  unfold hydrate, hydrateWith in Hg.
  change (blobText (blobDocument (string_of_list_ascii (render (JObj ms)))))
    with (Some (string_of_list_ascii (render (JObj ms)))) in Hg.
  cbv beta iota in Hg. rewrite JSON_parse_render in Hg.
  rewrite (useBridgeData_first_render _ _ _ _ _ _ _ _ (lookup_empty cell) Hg).
  unfold completion, hookAnswer, jsOr. cbn [fst].
  rewrite fromJson_object_truthy, getV_truthy by reflexivity.
  rewrite ownProperty_fromJson by exact Hnd.
  destruct (assoc_get bridgeId ms) as [j|]; cbn [option_map]; [|reflexivity].
  rewrite fromJson_defined. reflexivity.
Qed.

Lemma getHydratedStore_once (document : Document) (st : ClientState) (rt : Runtime) :
  blobFalsy document = false ->
  hydrated (state_after (getHydratedStore (Browser document) st))
  /\ completion (getHydratedStore (Browser document) st)
     = Normal (clientStore (state_after (getHydratedStore (Browser document) st)))
  /\ getHydratedStore rt (state_after (getHydratedStore (Browser document) st))
     = (completion (getHydratedStore (Browser document) st),
        state_after (getHydratedStore (Browser document) st), []).
Proof.
  intros Hb. unfold hydrated.
  destruct (toBoolean (clientStore st)) eqn:Hc.
  - rewrite (getHydratedStore_cached (Browser document)) by assumption.
    unfold state_after, completion. cbn [fst snd].
    split; [exact Hc|split; [reflexivity|apply getHydratedStore_cached, Hc]].
  - rewrite getHydratedStore_browser by assumption.
    unfold hydrate, hydrateWith, blobFalsy, blobFalsyWith, state_after, completion in *.
    destruct (blobText document) as [text|];
      [destruct (JSON_parse text) as [v|e]|];
      cbn [fst snd with_store clientStore];
      try (split; [reflexivity|split; [reflexivity|
             apply getHydratedStore_cached; reflexivity]]).
    apply negb_false_iff in Hb. unfold jsOr.
    split; [exact Hb|]. rewrite Hb. split; [reflexivity|].
    rewrite getHydratedStore_cached by exact Hb. reflexivity.
Qed.

Lemma runHydratorWith_cached (parse : string -> Completion JsValue)
  (rts : list Runtime) (st : ClientState) :
  hydrated st ->
  runHydratorWith parse rts st
  = (map (fun _ => (Normal (clientStore st), [])) rts, st).
Proof.
  intros Hh. induction rts as [|rt rts IH]; [reflexivity|].
  cbn [runHydratorWith map]. rewrite getHydratedStoreWith_cached by exact Hh.
  unfold state_after, completion, events. cbn [fst snd]. rewrite IH. reflexivity.
Qed.

Lemma runHydrator_cached (rts : list Runtime) (st : ClientState) :
  hydrated st ->
  runHydrator rts st = (map (fun _ => (Normal (clientStore st), [])) rts, st).
Proof. apply runHydratorWith_cached. Qed.

Lemma JSON_parse_brace (s : string) (v : JsValue) :
  JSON_parse (String "{" s) = Normal v -> toBoolean v = true.
Proof.
  unfold JSON_parse, parse_fuel. cbn [list_ascii_of_string List.length].
  replace (2 * S (List.length (list_ascii_of_string s)) + 2)
    with (S (2 * S (List.length (list_ascii_of_string s)) + 1)) by lia.
  rewrite read_value_object.
  destruct (skip_ws (list_ascii_of_string s)) as [|c t]; [discriminate|].
  destruct (c =? "}")%char.
  - destruct (skip_ws t); [|discriminate]. intros [= <-]. reflexivity.
  - destruct (read_members _ _) as [[ms t']|]; [|discriminate].
    destruct (skip_ws t'); [|discriminate]. intros [= <-]. reflexivity.
Qed.

Lemma scriptText_brace (rest : list ascii) :
  scriptText ("{"%char :: rest) = "{"%char :: scriptText rest.
Proof. reflexivity. Qed.

(** What [BridgeSerializer] writes is never read back as a falsy value. *)
Lemma pageDocument_not_falsy (node_env : option string) (request : nat)
  (st : ServerState) :
  wf st ->
  blobFalsy (pageDocument (completion (BridgeSerializer node_env request st))) = false.
Proof.
  intros Hwf. rewrite BridgeSerializer_eq. unfold completion. cbn [fst].
  destruct (fst (serializerOutcome node_env (requestEntries st request)))
    as [[el|]|e] eqn:Hs; try reflexivity.
  destruct (serializerOutcome_script _ _ _ (requestEntries_NoDup st request Hwf) Hs)
    as (_ & ms & _ & _ & _ & ->).
  unfold pageDocument, loadDocument, blobFalsy, blobFalsyWith, blobText, storeScript.
  cbn [map innerHTML script_id default getElementById find el_id textContent render].
  unfold id. rewrite list_ascii_of_string_of_list_ascii, scriptText_brace.
  cbn [string_of_list_ascii]. rewrite String.eqb_refl.
  cbn [textContent String.eqb]. cbv beta iota.
  match goal with
  | |- context [JSON_parse ?t] => destruct (JSON_parse t) as [v|] eqn:Hp
  end; [|reflexivity].
  rewrite (JSON_parse_brace _ _ Hp). reflexivity.
Qed.

Lemma runHooks_hydrated (calls : list HookCall) (st : ClientState) :
  hydrated st ->
  fst (runHooks calls st)
  = map (fun c => hookAnswer (seenStore st (call_cell c))
                    (call_bridgeId c) (call_default c)) calls
  /\ clientStore (snd (runHooks calls st)) = clientStore st.
Proof.
  revert st. induction calls as [|c calls IH]; intros st Hh; [split; reflexivity|].
  cbn [runHooks]. unfold createBridgeHook.
  destruct (useBridgeData_hydrated (call_bridgeId c) (call_default c)
              (call_runtime c) (call_cell c) st Hh) as (Hc & Hs & Hseen).
  set (st1 := state_after _) in *.
  assert (Hh1 : hydrated st1) by (unfold hydrated; rewrite Hs; exact Hh).
  destruct (IH st1 Hh1) as (IHr & IHs).
  destruct (runHooks calls st1) as [results st'].
  cbn [fst snd] in *. split; [|congruence].
  cbn [map]. rewrite Hc, IHr. f_equal.
  apply map_ext. intros a. rewrite Hseen. reflexivity.
Qed.

Lemma useBridgeData_total (bridgeId : string) (defaultValue : JsValue)
  (rt : Runtime) (cell : nat) (st : ClientState) :
  cells_truthy st ->
  (exists v, completion (useBridgeData bridgeId defaultValue rt cell st) = Normal v)
  /\ cells_truthy (state_after (useBridgeData bridgeId defaultValue rt cell st)).
Proof.
  intros Hcells. destruct (memoCells st !! cell) as [store|] eqn:Hm.
  - rewrite (useBridgeData_memoized _ _ _ _ _ _ Hm).
    unfold completion, state_after, hookAnswer. cbn [fst snd].
    rewrite getV_truthy by eauto. split; [eauto|exact Hcells].
  - destruct (getHydratedStore_total rt st) as (store & Hc & Ht & Hcells').
    destruct (getHydratedStore rt st) as [[c st'] log] eqn:Hg.
    unfold completion, state_after in *. cbn [fst snd] in *. subst c.
    rewrite (useBridgeData_first_render _ _ _ _ _ _ _ _ Hm Hg).
    unfold hookAnswer. cbn [fst snd]. rewrite getV_truthy by exact Ht.
    split; [eauto|].
    intros c v. cbn [memoCells]. rewrite lookup_insert. case_decide.
    + intros [= <-]. exact Ht.
    + rewrite Hcells'. apply Hcells.
Qed.

Lemma runHooks_total (calls : list HookCall) (st : ClientState) :
  cells_truthy st ->
  Forall (fun r => exists v, r = Normal v) (fst (runHooks calls st)).
Proof.
  revert st. induction calls as [|c calls IH]; intros st Hcells; [constructor|].
  cbn [runHooks]. unfold createBridgeHook.
  destruct (useBridgeData_total (call_bridgeId c) (call_default c)
              (call_runtime c) (call_cell c) st Hcells) as (Hv & Hcells').
  specialize (IH _ Hcells').
  destruct (runHooks calls _) as [results st'].
  cbn [fst] in *. constructor; assumption.
Qed.



(** ** Pages, end to end *)

(** What the element of a page holds: the text of a JSON object with one
    member for each entry that has a JSON form, which [JSON.parse] reads
    back to an object with these members as its own properties. *)
Lemma serializer_members (node_env : option string) (entries : MapObject)
  (el : ScriptElement) :
  List.NoDup (map fst entries) ->
  fst (serializerOutcome node_env entries) = Normal (Some el) ->
  exists ms,
    List.NoDup (map fst ms)
    /\ el = storeScript (Some (string_of_list_ascii (render (JObj ms))))
    /\ forall k,
         assoc_get k ms
         = match assoc_get k entries with
           | Some v => match toJson v with SJson j => Some j | _ => None end
           | None => None
           end.
Proof.
  intros Hnd Hs.
  destruct (serializerOutcome_script _ _ _ Hnd Hs) as (_ & ms & Hm & Hms & _ & ->).
  exists ms. split; [exact Hms|]. split; [reflexivity|].
  intros k. destruct (objectMembers_spec _ _ Hm) as (_ & Hspec).
  rewrite serializedEntries_keys in Hspec. destruct (Hspec Hnd) as (_ & Hget).
  rewrite Hget, assoc_get_serialized.
  destruct (assoc_get k entries) as [v|]; reflexivity.
Qed.

Lemma fromJson_object_props (ms : list (string * Json)) :
  List.NoDup (map fst ms) ->
  fromJson (JObj ms) = VObj (map (fun kx => let '(k, x) := kx in (k, fromJson x)) ms).
Proof.
  intros Hnd. cbn [fromJson]. rewrite assoc_of_entries_NoDup; [reflexivity|].
  rewrite map_map. erewrite map_ext; [exact Hnd|]. intros [k x]. reflexivity.
Qed.

Lemma serializer_parses_back (node_env : option string) (entries : MapObject)
  (el : ScriptElement) :
  List.NoDup (map fst entries) ->
  fst (serializerOutcome node_env entries) = Normal (Some el) ->
  exists props,
    JSON_parse (innerHTML el) = Normal (VObj props)
    /\ List.NoDup (map fst props)
    /\ forall k,
         assoc_get k props
         = match assoc_get k entries with
           | Some v => match toJson v with SJson j => Some (fromJson j) | _ => None end
           | None => None
           end.
Proof.
  intros Hnd Hs.
  destruct (serializer_members _ _ _ Hnd Hs) as (ms & Hms & -> & Hget).
  exists (map (fun kx => let '(k, x) := kx in (k, fromJson x)) ms).
  split; [|split].
  - unfold storeScript. cbn [innerHTML default]. unfold id.
    rewrite JSON_parse_render. f_equal. apply fromJson_object_props, Hms.
  - rewrite map_map. erewrite map_ext; [exact Hms|]. intros [k x]. reflexivity.
  - intros k. rewrite assoc_get_map, Hget.
    destruct (assoc_get k entries) as [v|]; cbn [option_map]; [|reflexivity].
    destruct (toJson v); reflexivity.
Qed.

(** The blob the browser finds for the element of a page: an element with
    a text that starts with the brace, the whole text of the script when it
    holds no [<]. *)
Lemma page_blob_text (node_env : option string) (entries : MapObject)
  (el : ScriptElement) :
  List.NoDup (map fst entries) ->
  fst (serializerOutcome node_env entries) = Normal (Some el) ->
  exists blob rest,
    getElementById (pageDocument (Normal (Some el))) STORE_ELEMENT_ID = Some blob
    /\ textContent blob = String "{" rest
    /\ (no_less_than (innerHTML el) = true -> textContent blob = innerHTML el).
Proof.
  intros Hnd Hs.
  destruct (serializer_members _ _ _ Hnd Hs) as (ms & _ & -> & _).
  unfold pageDocument, loadDocument, storeScript.
  cbn [map innerHTML script_id default getElementById find el_id render].
  unfold id. rewrite list_ascii_of_string_of_list_ascii, scriptText_brace.
  eexists. eexists. split; [reflexivity|]. split; [reflexivity|].
  intros Hlt. unfold no_less_than in Hlt.
  rewrite list_ascii_of_string_of_list_ascii in Hlt.
  cbn [textContent]. rewrite <- scriptText_brace, (scriptText_whole _ Hlt).
  reflexivity.
Qed.

Section AnyParseOnce.
Variable parse : string -> Completion JsValue.

Lemma getHydratedStoreWith_once (parse' : string -> Completion JsValue)
  (document : Document) (st : ClientState) (rt : Runtime) :
  blobFalsyWith parse document = false ->
  hydrated (state_after (getHydratedStoreWith parse (Browser document) st))
  /\ completion (getHydratedStoreWith parse (Browser document) st)
     = Normal (clientStore (state_after (getHydratedStoreWith parse (Browser document) st)))
  /\ getHydratedStoreWith parse' rt
       (state_after (getHydratedStoreWith parse (Browser document) st))
     = (completion (getHydratedStoreWith parse (Browser document) st),
        state_after (getHydratedStoreWith parse (Browser document) st), []).
Proof.
  intros Hb. unfold hydrated.
  destruct (toBoolean (clientStore st)) eqn:Hc.
  - rewrite (getHydratedStoreWith_cached parse (Browser document)) by assumption.
    unfold state_after, completion. cbn [fst snd].
    split; [exact Hc|split; [reflexivity|apply getHydratedStoreWith_cached, Hc]].
  - rewrite getHydratedStoreWith_browser by assumption.
    unfold hydrateWith, blobFalsyWith, state_after, completion in *.
    destruct (blobText document) as [text|];
      [destruct (parse text) as [v|e]|];
      cbn [fst snd with_store clientStore];
      try (split; [reflexivity|split; [reflexivity|
             apply getHydratedStoreWith_cached; reflexivity]]).
    apply negb_false_iff in Hb. unfold jsOr.
    split; [exact Hb|]. rewrite Hb. split; [reflexivity|].
    rewrite getHydratedStoreWith_cached by exact Hb. reflexivity.
Qed.

Lemma useBridgeDataWith_total (bridgeId : string) (defaultValue : JsValue)
  (rt : Runtime) (cell : nat) (st : ClientState) :
  cells_truthy st ->
  (exists v, completion (useBridgeDataWith parse bridgeId defaultValue rt cell st)
             = Normal v)
  /\ cells_truthy (state_after (useBridgeDataWith parse bridgeId defaultValue rt cell st)).
Proof.
  intros Hcells. destruct (memoCells st !! cell) as [store|] eqn:Hm.
  - rewrite (useBridgeDataWith_memoized _ _ _ _ _ _ _ Hm).
    unfold completion, state_after, hookAnswer. cbn [fst snd].
    rewrite getV_truthy by eauto. split; [eauto|exact Hcells].
  - destruct (getHydratedStoreWith_total parse rt st) as (store & Hc & Ht & Hcells').
    destruct (getHydratedStoreWith parse rt st) as [[c st'] log] eqn:Hg.
    unfold completion, state_after in *. cbn [fst snd] in *. subst c.
    rewrite (useBridgeDataWith_first_render _ _ _ _ _ _ _ _ _ Hm Hg).
    unfold hookAnswer. cbn [fst snd]. rewrite getV_truthy by exact Ht.
    split; [eauto|].
    intros c v. cbn [memoCells]. rewrite lookup_insert. case_decide.
    + intros [= <-]. exact Ht.
    + rewrite Hcells'. apply Hcells.
Qed.

Lemma runHooksWith_total (calls : list HookCall) (st : ClientState) :
  cells_truthy st ->
  Forall (fun r => exists v, r = Normal v) (fst (runHooksWith parse calls st)).
Proof.
  revert st. induction calls as [|c calls IH]; intros st Hcells; [constructor|].
  cbn [runHooksWith].
  destruct (useBridgeDataWith_total (call_bridgeId c) (call_default c)
              (call_runtime c) (call_cell c) st Hcells) as (Hv & Hcells').
  specialize (IH _ Hcells').
  destruct (runHooksWith parse calls _) as [results st'].
  cbn [fst] in *. constructor; assumption.
Qed.

Lemma hook_without_blobWith (document : Document) (bridgeId : string)
  (defaultValue : JsValue) (cell : nat) :
  blobUnusableWith parse document = true ->
  completion (useBridgeDataWith parse bridgeId defaultValue (Browser document)
                cell freshClient)
  = Normal (unsetAnswer bridgeId defaultValue).
Proof.
  intros Hb.
  pose proof (getHydratedStoreWith_browser parse document freshClient eq_refl) as Hg.
  assert (Hh : hydrateWith parse document freshClient
               = (Normal (VObj []), with_store freshClient (VObj []),
                  events (hydrateWith parse document freshClient))).
  { unfold hydrateWith, blobUnusableWith in *.
    destruct (blobText document) as [text|]; [|reflexivity].
    destruct (parse text); [discriminate|reflexivity]. }
  rewrite Hh in Hg.
  rewrite (useBridgeDataWith_first_render _ _ _ _ _ _ _ _ _ (lookup_empty cell) Hg).
  unfold completion, hookAnswer, unsetAnswer. cbn.
  destruct (isUndefined (objectPrototypeGet bridgeId)); reflexivity.
Qed.

End AnyParseOnce.

Lemma hook_without_blob (document : Document) (bridgeId : string)
  (defaultValue : JsValue) (cell : nat) :
  blobUnusable document = true ->
  completion (useBridgeData bridgeId defaultValue (Browser document) cell freshClient)
  = Normal (unsetAnswer bridgeId defaultValue).
Proof. apply hook_without_blobWith. Qed.

(** ** Serialization and the render pass *)

Lemma objectMembers_None (l : list (string * Serialized)) :
  objectMembers l = None <-> exists k, In (k, SThrow) l.
Proof.
  induction l as [|[k s] l IH].
  - split; [discriminate|intros (k & [])].
  - cbn [objectMembers]. destruct s as [| |j].
    + split; [intros _; exists k; left; reflexivity|reflexivity].
    + rewrite IH. split; intros (k' & Hk); exists k'.
      * right. exact Hk.
      * destruct Hk as [[=]|Hk]; exact Hk.
    + destruct (objectMembers l) as [ms|] eqn:Hm; cbn [option_map].
      * split; [discriminate|]. intros (k' & [[=]|Hk]).
        apply proj2 in IH. discriminate IH. eauto.
      * split; [|reflexivity]. intros _.
        destruct (proj1 IH eq_refl) as (k' & Hk). exists k'. right. exact Hk.
Qed.

Lemma In_serializedEntries (k : string) (s : Serialized) (entries : list (string * JsValue)) :
  In (k, s) (serializedEntries entries) <-> exists v, In (k, v) entries /\ toJson v = s.
Proof.
  unfold serializedEntries. rewrite in_map_iff. split.
  - intros ([k' v] & [= <- <-] & Hin). eauto.
  - intros (v & Hin & <-). exists (k, v). split; [reflexivity|exact Hin].
Qed.

Lemma serializerOutcome_throws (node_env : option string) (entries : MapObject) :
  List.NoDup (map fst entries) ->
  (exists k v, In (k, v) entries /\ toJson v = SThrow) ->
  serializerOutcome node_env entries
  = if isDevelopment node_env
    then (Throw (Error SERIALIZE_ERROR),
          [ConsoleError "ContextBridge Error: Unable to serialize data."])
    else (Normal None, [ConsoleError "ContextBridge: Serialization error"]).
Proof.
  intros Hnd (k & v & Hin & Hv). unfold serializerOutcome.
  destruct entries as [|e rest] eqn:He; [destruct Hin|]. rewrite <- He in *.
  unfold Object_fromEntries. rewrite assoc_of_entries_NoDup by exact Hnd.
  rewrite JSON_stringify_object.
  assert (Hm : objectMembers (serializedEntries entries) = None).
  { apply objectMembers_None. exists k. apply In_serializedEntries. eauto. }
  rewrite Hm. reflexivity.
Qed.

Lemma serializerOutcome_writes (node_env : option string) (entries : MapObject) :
  List.NoDup (map fst entries) ->
  entries <> [] ->
  (forall k v, In (k, v) entries -> toJson v <> SThrow) ->
  exists ms,
    objectMembers (serializedEntries entries) = Some ms
    /\ serializerOutcome node_env entries
       = (Normal (Some (storeScript (Some (string_of_list_ascii (render (JObj ms)))))), []).
Proof.
  intros Hnd Hne Hall. unfold serializerOutcome.
  destruct entries as [|e rest] eqn:He; [congruence|]. rewrite <- He in *.
  unfold Object_fromEntries. rewrite assoc_of_entries_NoDup by exact Hnd.
  rewrite JSON_stringify_object.
  destruct (objectMembers (serializedEntries entries)) as [ms|] eqn:Hm.
  - exists ms. split; reflexivity.
  - apply objectMembers_None in Hm as (k & Hk).
    apply In_serializedEntries in Hk as (v & Hin & Hv).
    destruct (Hall k v Hin Hv).
Qed.

Lemma assoc_get_In {A : Type} (k : string) (v : A) (l : list (string * A)) :
  assoc_get k l = Some v -> In (k, v) l.
Proof.
  induction l as [|[k' x] l IH]; [discriminate|]. cbn [assoc_get].
  destruct (String.eqb k k') eqn:E.
  - apply String.eqb_eq in E. intros [= ->]. left. congruence.
  - intros H. right. apply IH, H.
Qed.

Lemma In_assoc_get {A : Type} (k : string) (v : A) (l : list (string * A)) :
  List.NoDup (map fst l) -> In (k, v) l -> assoc_get k l = Some v.
Proof.
  induction l as [|[k' x] l IH]; [intros _ []|]. cbn [map fst assoc_get].
  intros Hnd [Heq|Hin].
  - inversion Heq; subst. rewrite String.eqb_refl. reflexivity.
  - inversion Hnd as [|? ? Hk Hl]; subst.
    destruct (String.eqb k k') eqn:E.
    + apply String.eqb_eq in E. destruct Hk. rewrite <- E.
      apply in_map_iff. exists (k, v). split; [reflexivity|exact Hin].
    + apply IH; assumption.
Qed.

Lemma ensureStore_twice (st : ServerState) (request : nat) :
  ensureStore (ensureStore st request) request = ensureStore st request.
Proof.
  pose proof (ensureStore_cached request st) as Hc.
  unfold ensureStore at 1. rewrite Hc. reflexivity.
Qed.

Lemma renderProviders_events (node_env : option string) (request : nat)
  (providers : list (string * JsValue)) (st : ServerState) :
  events (renderProviders node_env request providers st)
  = pageWarnings node_env providers.
Proof.
  revert st. induction providers as [|[k v] providers IH]; intros st; [reflexivity|].
  cbn [renderProviders pageWarnings flat_map fst snd].
  unfold createBridgeProvider, bind. rewrite Provider_eq.
  specialize (IH (setEntry (ensureStore st request) (storeRef st request) k v)).
  destruct (renderProviders node_env request providers _) as [[c st'] log].
  unfold events in *. cbn [snd] in *. rewrite IH. reflexivity.
Qed.

Lemma renderPage_events (node_env : option string) (request : nat)
  (providers : list (string * JsValue)) (st : ServerState) :
  wf st ->
  events (renderPage node_env request providers st)
  = pageWarnings node_env providers
    ++ snd (serializerOutcome node_env (pageEntries st request providers)).
Proof.
  intros Hwf. unfold renderPage, bind.
  destruct (renderProviders_eq node_env request providers st Hwf) as (Hc & Hw & He).
  pose proof (renderProviders_events node_env request providers st) as Hl.
  destruct (renderProviders node_env request providers st) as [[c st1] log].
  unfold completion, state_after, events in *. cbn [fst snd] in *. subst c log.
  rewrite BridgeSerializer_eq. cbn [fst snd].
  rewrite He. case_decide; [reflexivity|congruence].
Qed.

Lemma pageWarnings_production (node_env : option string)
  (providers : list (string * JsValue)) :
  isDevelopment node_env = false -> pageWarnings node_env providers = [].
Proof.
  intros Hd. unfold pageWarnings, providerWarning. rewrite Hd. cbn [andb].
  induction providers as [|kv providers IH]; [reflexivity|exact IH].
Qed.

Lemma page_hook_answer (node_env : option string) (request : nat)
  (providers : list (string * JsValue)) (st : ServerState) (el : ScriptElement)
  (bridgeId : string) (defaultValue : JsValue) (cell : nat) :
  wf st ->
  completion (renderPage node_env request providers st) = Normal (Some el) ->
  no_less_than (innerHTML el) = true ->
  completion (useBridgeData bridgeId defaultValue (Browser (loadDocument [el]))
                cell freshClient)
  = Normal match assoc_get bridgeId (pageEntries st request providers) with
           | Some v =>
               match toJson v with
               | SJson j => fromJson j
               | _ => unsetAnswer bridgeId defaultValue
               end
           | None => unsetAnswer bridgeId defaultValue
           end.
Proof.
  intros Hwf Hpage Hlt.
  rewrite renderPage_eq in Hpage by exact Hwf.
  pose proof (pageEntries_NoDup st request providers Hwf) as Hnd.
  destruct (serializerOutcome_script _ _ _ Hnd Hpage) as (_ & ms & Hm & Hms & _ & ->).
  rewrite loadDocument_whole by exact Hlt.
  change {| el_id := _; textContent := _ |}
    with {| el_id := STORE_ELEMENT_ID;
            textContent := string_of_list_ascii (render (JObj ms)) |}.
  fold (blobDocument (string_of_list_ascii (render (JObj ms)))).
  rewrite hook_reads_blob by exact Hms.
  destruct (objectMembers_spec _ _ Hm) as (_ & Hspec).
  rewrite serializedEntries_keys in Hspec. destruct (Hspec Hnd) as (_ & Hget).
  rewrite Hget, assoc_get_serialized. unfold unsetAnswer.
  destruct (assoc_get bridgeId (pageEntries st request providers)) as [v|];
    cbn [option_map]; [destruct (toJson v)|]; reflexivity.
Qed.

Lemma assoc_get_Permutation {A : Type} (k : string) (l l' : list (string * A)) :
  Permutation l l' -> List.NoDup (map fst l) -> assoc_get k l = assoc_get k l'.
Proof.
  induction 1 as [|[k1 x1] l l' Hp IH|[k1 x1] [k2 x2] l|l l' l'' Hp1 IH1 Hp2 IH2];
    intros Hnd.
  - reflexivity.
  - cbn [assoc_get]. inversion Hnd; subst. rewrite IH by assumption. reflexivity.
  - cbn [assoc_get map fst] in *. inversion Hnd as [|? ? Hk _]; subst.
    destruct (String.eqb k k1) eqn:E1, (String.eqb k k2) eqn:E2; try reflexivity.
    apply String.eqb_eq in E1, E2. subst. destruct Hk. left. reflexivity.
  - rewrite IH1 by exact Hnd. apply IH2.
    eapply Permutation_NoDup; [|exact Hnd]. apply Permutation_map, Hp1.
Qed.

Lemma pageEntries_keys (providers acc : list (string * JsValue)) (k : string) :
  In k (map fst (fold_left (fun o kv => assoc_set (fst kv) (snd kv) o) providers acc))
  <-> In k (map fst acc) \/ In k (map fst providers).
Proof.
  revert acc. induction providers as [|[k' v] providers IH]; intros acc.
  - cbn. tauto.
  - cbn [fold_left fst snd map]. rewrite IH, assoc_set_keys.
    destruct (string_mem k' (map fst acc)) eqn:Hm.
    + apply string_mem_In in Hm. cbn [In]. split; [tauto|].
      intros [H|[<-|H]]; tauto.
    + rewrite in_app_iff. cbn [In]. tauto.
Qed.

Lemma pageEntries_length (providers acc : list (string * JsValue)) :
  List.length (fold_left (fun o kv => assoc_set (fst kv) (snd kv) o) providers acc)
  <= List.length acc + List.length providers.
Proof.
  revert acc. induction providers as [|[k' v] providers IH]; intros acc.
  - cbn. lia.
  - cbn [fold_left fst snd]. etransitivity; [apply IH|].
    assert (Hl : List.length (assoc_set k' v acc) <= S (List.length acc)).
    { rewrite <- (length_map fst (assoc_set k' v acc)), assoc_set_keys.
      destruct (string_mem k' (map fst acc)).
      - rewrite length_map. lia.
      - rewrite length_app, length_map. cbn. lia. }
    cbn [List.length]. lia.
Qed.

Lemma runCall_entries (c : ServerCall) (st : ServerState) (r : nat) :
  wf st ->
  requestEntries (runCall st c) r
  = if decide (r = callRequest c) then entriesAfter c (requestEntries st r)
    else requestEntries st r.
Proof.
  intros Hwf. destruct c as [request|node_env k v request|node_env request];
    cbn [runCall callRequest entriesAfter].
  - rewrite getRequestStore_eq. unfold state_after. cbn [fst snd].
    rewrite requestEntries_ensureStore by exact Hwf. case_decide; reflexivity.
  - rewrite Provider_entries by exact Hwf. case_decide; subst; reflexivity.
  - rewrite BridgeSerializer_entries by exact Hwf. case_decide; reflexivity.
Qed.

Lemma runCalls_entries (calls : list ServerCall) (st st' : ServerState) (request : nat) :
  wf st -> wf st' ->
  requestEntries st request = requestEntries st' request ->
  requestEntries (runCalls calls st) request
  = requestEntries (runCalls (callsOf request calls) st') request.
Proof.
  revert st st'. induction calls as [|c calls IH]; intros st st' Hwf Hwf' He.
  - exact He.
  - cbn [runCalls fold_left callsOf List.filter].
    destruct (Nat.eqb (callRequest c) request) eqn:E.
    + apply Nat.eqb_eq in E. cbn [fold_left].
      apply IH; [apply runCall_wf, Hwf|apply runCall_wf, Hwf'|].
      rewrite !runCall_entries by assumption.
      case_decide; [|congruence]. rewrite He. reflexivity.
    + apply Nat.eqb_neq in E.
      apply IH; [apply runCall_wf, Hwf|exact Hwf'|].
      rewrite runCall_entries by assumption.
      case_decide; [congruence|exact He].
Qed.

(** ** Sessions of hook calls *)

Lemma useBridgeData_answer (bridgeId : string) (defaultValue : JsValue)
  (rt : Runtime) (cell : nat) (st : ClientState) :
  cells_truthy st ->
  exists data,
    completion (useBridgeData bridgeId defaultValue rt cell st)
    = Normal (if isUndefined data then defaultValue else data).
Proof.
  intros Hcells. destruct (memoCells st !! cell) as [store|] eqn:Hm.
  - rewrite (useBridgeData_memoized _ _ _ _ _ _ Hm).
    unfold completion, hookAnswer. cbn [fst].
    rewrite getV_truthy by eauto. eauto.
  - destruct (getHydratedStore_total rt st) as (store & Hc & Ht & _).
    destruct (getHydratedStore rt st) as [[c st'] log] eqn:Hg.
    unfold completion in Hc. cbn [fst] in Hc. subst c.
    rewrite (useBridgeData_first_render _ _ _ _ _ _ _ _ Hm Hg).
    unfold completion, hookAnswer. cbn [fst]. rewrite getV_truthy by exact Ht. eauto.
Qed.

Lemma runHooks_defined (calls : list HookCall) (st : ClientState) :
  cells_truthy st ->
  Forall2 (fun c r => exists v, r = Normal v
                                /\ (isUndefined v = true
                                    -> isUndefined (call_default c) = true))
    calls (fst (runHooks calls st)).
Proof.
  revert st. induction calls as [|c calls IH]; intros st Hcells; [constructor|].
  cbn [runHooks]. unfold createBridgeHook.
  destruct (useBridgeData_total (call_bridgeId c) (call_default c)
              (call_runtime c) (call_cell c) st Hcells) as (_ & Hcells').
  destruct (useBridgeData_answer (call_bridgeId c) (call_default c)
              (call_runtime c) (call_cell c) st Hcells) as (data & Hd).
  specialize (IH _ Hcells').
  destruct (runHooks calls _) as [results st'].
  cbn [fst] in *. constructor; [|exact IH].
  rewrite Hd. eexists. split; [reflexivity|].
  destruct (isUndefined data) eqn:E; [tauto|congruence].
Qed.

(** ** The claims *)

(** C1 (the code departs from it). One Provider, whose value is the string
    of a script end tag.  The value is JSON-serializable and its round trip
    is itself; the serializer writes it into the script as it is; the
    browser ends the element at the tag, so the blob it reads stops inside
    the string; [JSON.parse] fails on it, and the hook answers its
    default. *)
Theorem C1_script_end_tag_in_a_value :
  let page := renderPage (Some "production") 1 [("post", VStr "</script>")] emptyServer in
  let document :=
    match completion page with
    | Normal (Some el) => loadDocument [el]
    | _ => []
    end in
  let hook := useBridgeData "post" (VStr "fallback") (Browser document) 0 freshClient in
  JSON_stringify (VStr "</script>") = Normal (Some (qq "'</script>'"))
  /\ JSON_parse (qq "'</script>'") = Normal (VStr "</script>")
  /\ completion page = Normal (Some (storeScript (Some (qq "{'post':'</script>'}"))))
  /\ document = blobDocument (qq "{'post':'")
  /\ completion hook = Normal (VStr "fallback")
  /\ clientStore (state_after hook) = VObj [].
Proof. vm_compute. repeat split. Qed.

(** The round trip of the serialize/hydrate protocol, for a blob that holds
    no [<]: in a page whose serialization succeeds, every identifier whose
    last value has a JSON form is answered by its hook with
    [JSON.parse(JSON.stringify(value))]. *)
Theorem roundtrip_of_a_blob_without_tag_opener :
  forall (calls : list ServerCall) (node_env : option string) (request : nat)
         (providers : list (string * JsValue)) (el : ScriptElement)
         (bridgeId : string) (v defaultValue : JsValue) (j : Json) (cell : nat),
    completion (renderPage node_env request providers (runCalls calls emptyServer))
    = Normal (Some el) ->
    no_less_than (innerHTML el) = true ->
    last_set bridgeId providers = Some v ->
    toJson v = SJson j ->
    exists text roundTrip,
      JSON_stringify v = Normal (Some text)
      /\ JSON_parse text = Normal roundTrip
      /\ completion (useBridgeData bridgeId defaultValue
                       (Browser (loadDocument [el])) cell freshClient)
         = Normal roundTrip.
Proof.
  intros calls node_env request providers el bridgeId v defaultValue j cell
    Hpage Hlt Hlast Hj.
  set (st := runCalls calls emptyServer) in *.
  assert (Hwf : wf st) by apply runCalls_wf, emptyServer_wf.
  rewrite renderPage_eq in Hpage by exact Hwf.
  pose proof (pageEntries_NoDup st request providers Hwf) as Hnd.
  destruct (serializerOutcome_script _ _ _ Hnd Hpage) as (_ & ms & Hm & Hms & _ & ->).
  destruct (JSON_parse_stringify v j Hj) as (text & Hs & Hp).
  exists text, (fromJson j). split; [exact Hs|split; [exact Hp|]].
  rewrite loadDocument_whole by exact Hlt.
  change {| el_id := _; textContent := _ |}
    with {| el_id := STORE_ELEMENT_ID;
            textContent := string_of_list_ascii (render (JObj ms)) |}.
  fold (blobDocument (string_of_list_ascii (render (JObj ms)))).
  rewrite hook_reads_blob by exact Hms.
  destruct (objectMembers_spec _ _ Hm) as (_ & Hspec).
  rewrite serializedEntries_keys in Hspec. destruct (Hspec Hnd) as (_ & Hget).
  rewrite Hget, assoc_get_serialized, (pageEntries_last _ _ _ _ _ Hlast).
  cbn [option_map]. rewrite Hj. reflexivity.
Qed.

Lemma roundtrip_of_a_blob_without_tag_opener_witness :
  exists text roundTrip,
    JSON_stringify (VArr [VNum 1; VUndefined; VNaN]) = Normal (Some text)
    /\ JSON_parse text = Normal roundTrip
    /\ completion
         (useBridgeData "list" VNull
            (Browser (loadDocument
               [storeScript (Some (qq "{'list':[1,null,null],'n':null}"))]))
            0 freshClient)
       = Normal roundTrip.
Proof.
  refine (roundtrip_of_a_blob_without_tag_opener []
            (Some "production") 1
            [("list", VNum 0); ("n", VNull); ("list", VArr [VNum 1; VUndefined; VNaN])]
            (storeScript (Some (qq "{'list':[1,null,null],'n':null}")))
            "list" (VArr [VNum 1; VUndefined; VNaN]) VNull
            (JArr [JNum 1; JNull; JNull]) 0 _ _ _ _);
    vm_compute; reflexivity.
Defined.

(** C2 (the code departs from it). No blob in the document: hydration finds
    no entry at all, the store is the empty object, and yet the hook made
    for the identifier [toString] answers the method every object inherits,
    not its default.  The same with the blob of an empty object and the
    identifier [constructor], answered with the function [Object]. *)
Theorem C2_inherited_name_is_not_defaulted :
  let r := useBridgeData "toString" (VStr "fallback") (Browser []) 0 freshClient in
  let doc := [ {| el_id := STORE_ELEMENT_ID; textContent := "{}" |} ] in
  let r' := useBridgeData "constructor" (VStr "fallback") (Browser doc) 0 freshClient in
  clientStore (state_after r) = VObj []
  /\ completion r = Normal (VFunction "toString")
  /\ clientStore (state_after r') = VObj []
  /\ completion r' = Normal (VFunction "Object").
Proof. vm_compute. repeat split. Qed.

(** What a hook answers at the first render of its component, whatever
    [JSON.parse] does, when the store hydration gives it is a plain object:
    the entry of the store for its identifier; with no entry, what
    [Object.prototype] holds under that name; and the default when that is
    nothing either. *)
Theorem hook_answer_at_first_render :
  forall (parse : string -> Completion JsValue) (bridgeId : string)
         (defaultValue : JsValue) (rt : Runtime) (cell : nat) (st : ClientState)
         (props : list (string * JsValue)),
    memoCells st !! cell = None ->
    completion (getHydratedStoreWith parse rt st) = Normal (VObj props) ->
    completion (useBridgeDataWith parse bridgeId defaultValue rt cell st)
    = Normal match assoc_get bridgeId props with
             | Some data => if isUndefined data then defaultValue else data
             | None =>
                 if isUndefined (objectPrototypeGet bridgeId) then defaultValue
                 else objectPrototypeGet bridgeId
             end.
Proof.
  intros parse bridgeId defaultValue rt cell st props Hm Hc.
  destruct (getHydratedStoreWith parse rt st) as [[c st'] log] eqn:Hg.
  unfold completion in Hc. cbn in Hc. subst c.
  rewrite (useBridgeDataWith_first_render _ _ _ _ _ _ _ _ _ Hm Hg).
  unfold completion, hookAnswer. cbn [fst getV ownProperty].
  destruct (assoc_get bridgeId props); reflexivity.
Qed.

Lemma hook_answer_at_first_render_witness :
  completion (useBridgeData "user" (VStr "guest")
                (Browser (blobDocument (qq "{'user':{'name':'Ann'},'theme':null}")))
                0 freshClient)
  = Normal (VObj [("name", VStr "Ann")])
  /\ completion (useBridgeData "lang" (VStr "en")
                   (Browser (blobDocument (qq "{'user':{'name':'Ann'},'theme':null}")))
                   0 freshClient)
     = Normal (VStr "en").
Proof.
  split.
  - exact (hook_answer_at_first_render JSON_parse "user" (VStr "guest")
             (Browser (blobDocument (qq "{'user':{'name':'Ann'},'theme':null}")))
             0 freshClient
             [("user", VObj [("name", VStr "Ann")]); ("theme", VNull)]
             eq_refl eq_refl).
  - exact (hook_answer_at_first_render JSON_parse "lang" (VStr "en")
             (Browser (blobDocument (qq "{'user':{'name':'Ann'},'theme':null}")))
             0 freshClient
             [("user", VObj [("name", VStr "Ann")]); ("theme", VNull)]
             eq_refl eq_refl).
Defined.

(** C3. Hydration happens once per client session.  First, for any
    document in which the element of the blob, if there is one, holds a
    text that starts with a brace, and whatever [JSON.parse] does, as long
    as it gives no falsy value for such a text (it gives an object or
    throws): the first call of [getHydratedStore] in the browser looks the
    element up once; when the element is there it parses its text, exactly
    once, and the store it answers and leaves in [clientStore] is what
    [JSON.parse] gave, or the empty object, with the error logged, when it
    threw; when the element is not there it parses nothing and the store
    is the empty object; and every later call, in whatever runtime and on
    whatever document, answers that same store, looks nothing up, parses
    nothing and changes nothing.  Second, the document of any page is such
    a document (whatever the server had served before, whichever request,
    in development or production): it holds the element exactly when
    [BridgeSerializer] rendered one, with a text that starts with the
    brace; and when that text holds no [<] the store of the first call is
    the object whose own properties are the entries of the request store
    that have a JSON form, each with its JSON round trip. *)
Theorem C3_hydration_happens_once :
  (forall (parse : string -> Completion JsValue) (document : Document)
          (later : list Runtime),
     (forall rest v, parse (String "{" rest) = Normal v -> toBoolean v = true) ->
     (forall blob, getElementById document STORE_ELEMENT_ID = Some blob ->
                   exists rest, textContent blob = String "{" rest) ->
     let first := getHydratedStoreWith parse (Browser document) freshClient in
     exists store,
       completion first = Normal store
       /\ clientStore (state_after first) = store
       /\ lookups (events first) = 1
       /\ match getElementById document STORE_ELEMENT_ID with
          | Some blob =>
              parses (events first) = 1
              /\ events first
                 = [DomLookup STORE_ELEMENT_ID; ParseCall (textContent blob)]
                   ++ match parse (textContent blob) with
                      | Normal _ => []
                      | Throw _ =>
                          [ConsoleError
                             "ContextBridge Error: Unable to parse data from server."]
                      end
              /\ store = match parse (textContent blob) with
                         | Normal parsed => parsed
                         | Throw _ => VObj []
                         end
          | None => events first = [DomLookup STORE_ELEMENT_ID] /\ store = VObj []
          end
       /\ runHydratorWith parse later (state_after first)
          = (map (fun _ => (Normal store, [])) later, state_after first))
  /\ (forall rest v, JSON_parse (String "{" rest) = Normal v -> toBoolean v = true)
  /\ (forall (calls : list ServerCall) (node_env : option string) (request : nat),
        let st := runCalls calls emptyServer in
        let rendered := completion (BridgeSerializer node_env request st) in
        let document := pageDocument rendered in
        (forall blob, getElementById document STORE_ELEMENT_ID = Some blob ->
                      exists rest, textContent blob = String "{" rest)
        /\ match rendered with
           | Normal (Some el) =>
               (exists blob, getElementById document STORE_ELEMENT_ID = Some blob)
               /\ (no_less_than (innerHTML el) = true ->
                   exists props,
                     completion (getHydratedStore (Browser document) freshClient)
                     = Normal (VObj props)
                     /\ forall k,
                          assoc_get k props
                          = match assoc_get k (requestEntries st request) with
                            | Some v =>
                                match toJson v with
                                | SJson j => Some (fromJson j)
                                | _ => None
                                end
                            | None => None
                            end)
           | _ => getElementById document STORE_ELEMENT_ID = None
           end).
Proof.
  split; [|split].
  - intros parse document later Hbrace Hdoc first.
    assert (He : first = hydrateWith parse document freshClient).
    { subst first. apply getHydratedStoreWith_browser. reflexivity. }
    assert (Hb : blobFalsyWith parse document = false).
    { unfold blobFalsyWith, blobText.
      destruct (getElementById document STORE_ELEMENT_ID) as [blob|] eqn:Hel;
        [|reflexivity].
      destruct (Hdoc blob eq_refl) as (rest & Ht). rewrite Ht. cbn [String.eqb].
      destruct (parse (String "{" rest)) as [v|e] eqn:Hp; [|reflexivity].
      rewrite (Hbrace _ _ Hp). reflexivity. }
    destruct (getHydratedStoreWith_once parse parse document freshClient
                ServerRuntime Hb) as (Hh & Hc & _).
    fold first in Hh, Hc.
    exists (clientStore (state_after first)).
    split; [exact Hc|]. split; [reflexivity|].
    split; [|split; [|apply runHydratorWith_cached, Hh]].
    + rewrite He. unfold hydrateWith.
      destruct (blobText document); [destruct (parse _)|]; reflexivity.
    + rewrite He. unfold hydrateWith, blobText.
      destruct (getElementById document STORE_ELEMENT_ID) as [blob|] eqn:Hel;
        [|split; reflexivity].
      destruct (Hdoc blob eq_refl) as (rest & Ht). rewrite Ht. cbn [String.eqb].
      destruct (parse (String "{" rest)) as [v|e] eqn:Hp.
      * unfold events, state_after, jsOr. cbn [fst snd with_store clientStore].
        repeat split.
      * unfold events, state_after. cbn [fst snd with_store clientStore].
        repeat split.
  - exact JSON_parse_brace.
  - intros calls node_env request st rendered document.
    assert (Hwf : wf st) by apply runCalls_wf, emptyServer_wf.
    pose proof (requestEntries_NoDup st request Hwf) as Hnd.
    assert (Hr : rendered = fst (serializerOutcome node_env (requestEntries st request))).
    { subst rendered. rewrite BridgeSerializer_eq. reflexivity. }
    subst document. destruct rendered as [[el|]|e] eqn:Hrd.
    + symmetry in Hr.
      destruct (page_blob_text _ _ _ Hnd Hr) as (blob & rest & Hblob & Htext & Hwhole).
      split; [|split].
      * intros blob' Hb'. rewrite Hblob in Hb'. injection Hb' as <-. eauto.
      * eauto.
      * intros Hlt.
        destruct (serializer_parses_back _ _ _ Hnd Hr) as (props & Hparse & _ & Hget).
        exists props. split; [|exact Hget].
        rewrite getHydratedStore_browser by reflexivity.
        unfold hydrate, hydrateWith, blobText. rewrite Hblob, Htext.
        cbn [String.eqb]. rewrite <- Htext, (Hwhole Hlt), Hparse. reflexivity.
    + split; [intros blob Hb; discriminate Hb|reflexivity].
    + split; [intros blob Hb; discriminate Hb|reflexivity].
Qed.

Lemma C3_witness :
  exists store,
    completion
      (getHydratedStore
         (Browser (pageDocument
                     (completion
                        (BridgeSerializer None 7
                           (runCalls [CallProvider None "user" (VStr "Ann") 7]
                              emptyServer)))))
         freshClient)
    = Normal store
    /\ runHydrator [ServerRuntime; Browser []]
         (state_after
            (getHydratedStore
               (Browser (pageDocument
                           (completion
                              (BridgeSerializer None 7
                                 (runCalls [CallProvider None "user" (VStr "Ann") 7]
                                    emptyServer)))))
               freshClient))
       = ([(Normal store, []); (Normal store, [])],
          state_after
            (getHydratedStore
               (Browser (pageDocument
                           (completion
                              (BridgeSerializer None 7
                                 (runCalls [CallProvider None "user" (VStr "Ann") 7]
                                    emptyServer)))))
               freshClient)).
Proof.
  destruct (proj1 C3_hydration_happens_once JSON_parse
              (pageDocument
                 (completion
                    (BridgeSerializer None 7
                       (runCalls [CallProvider None "user" (VStr "Ann") 7]
                          emptyServer))))
              [ServerRuntime; Browser []]
              (proj1 (proj2 C3_hydration_happens_once))
              (proj1 (proj2 (proj2 C3_hydration_happens_once)
                        [CallProvider None "user" (VStr "Ann") 7] None 7)))
    as (store & Hc & _ & _ & _ & Hlater).
  exists store. split; [exact Hc|exact Hlater].
Defined.

(** A blob that is not the serializer's: the JSON text [null].  The first
    call looks the element up and parses it, leaves [clientStore] at
    [null], and the second call looks it up and parses it again. *)
Example falsy_blob_is_parsed_again :
  let first := getHydratedStore (Browser nullBlobDocument) freshClient in
  let second := getHydratedStore (Browser nullBlobDocument) (state_after first) in
  events first = [DomLookup STORE_ELEMENT_ID; ParseCall "null"]
  /\ completion first = Normal (VObj [])
  /\ clientStore (state_after first) = VNull
  /\ events second = [DomLookup STORE_ELEMENT_ID; ParseCall "null"].
Proof. vm_compute. repeat split. Qed.

(** Hydration runs once for every other document, whatever [JSON.parse]
    does: when the blob is absent or empty, when [JSON.parse] throws on it,
    or when it gives a truthy value, the first call in a browser leaves the
    module hydrated, and every later call, in any runtime, answers the same
    store without a lookup or a parse. *)
Theorem hydration_runs_once :
  forall (parse parse' : string -> Completion JsValue) (document : Document)
         (st : ClientState) (rt : Runtime),
    blobFalsyWith parse document = false ->
    let first := getHydratedStoreWith parse (Browser document) st in
    hydrated (state_after first)
    /\ getHydratedStoreWith parse' rt (state_after first)
       = (completion first, state_after first, []).
Proof.
  intros parse parse' document st rt Hb first.
  destruct (getHydratedStoreWith_once parse parse' document st rt Hb) as (Hh & _ & Hg).
  split; [exact Hh|exact Hg].
Qed.

Lemma hydration_runs_once_witness :
  getHydratedStore ServerRuntime
    (state_after (getHydratedStore (Browser []) freshClient))
  = (Normal (VObj []), state_after (getHydratedStore (Browser []) freshClient), []).
Proof.
  exact (proj2 (hydration_runs_once JSON_parse JSON_parse [] freshClient ServerRuntime
                  eq_refl)).
Defined.

(** C4, counterexample. A store that is not empty, in production, with a
    value [JSON.stringify] throws on: [BridgeSerializer] logs and renders
    nothing. *)
Lemma C4_counterexample :
  let st := state_after (Provider (Some "production") "n" (VBigInt 1) 7 emptyServer) in
  requestEntries st 7 = [("n", VBigInt 1)]
  /\ BridgeSerializer (Some "production") 7 st
     = (Normal None, st, [ConsoleError "ContextBridge: Serialization error"]).
Proof. vm_compute. split; reflexivity. Qed.

(** C4, amended. In a server process that has served any calls:
    [BridgeSerializer] renders nothing, silently, for a request whose store
    is empty.  For a store that is not empty and that [JSON.stringify]
    serializes without throwing, it renders one script element, with the id
    [__CONTEXT_BRIDGE_STORE__] and the type [application/json], and logs
    nothing; the text of the element is JSON for one object, which
    [JSON.parse] reads back with, for each key of the store, the JSON round
    trip of its entry as an own property, entries whose value has no JSON
    form (undefined, a function, a symbol) being left out.  When
    [JSON.stringify] throws, no element is rendered: outside development
    the serializer logs the error and renders nothing, in development it
    logs and throws its [Error]. *)
Theorem C4_serializer_output :
  forall (calls : list ServerCall) (node_env : option string) (request : nat),
    let st := runCalls calls emptyServer in
    let entries := requestEntries st request in
    let rendered := BridgeSerializer node_env request st in
    (entries = [] -> completion rendered = Normal None /\ events rendered = [])
    /\ (forall text,
          entries <> [] ->
          JSON_stringify (Object_fromEntries entries) = Normal text ->
          exists el props,
            completion rendered = Normal (Some el)
            /\ events rendered = []
            /\ script_id el = "__CONTEXT_BRIDGE_STORE__"
            /\ script_type el = "application/json"
            /\ JSON_parse (innerHTML el) = Normal (VObj props)
            /\ forall k,
                 count_key k props <= 1
                 /\ assoc_get k props
                    = match assoc_get k entries with
                      | Some v =>
                          match toJson v with
                          | SJson j => Some (fromJson j)
                          | _ => None
                          end
                      | None => None
                      end)
    /\ (forall e,
          JSON_stringify (Object_fromEntries entries) = Throw e ->
          entries <> []
          /\ if isDevelopment node_env
             then completion rendered = Throw (Error SERIALIZE_ERROR)
                  /\ events rendered
                     = [ConsoleError "ContextBridge Error: Unable to serialize data."]
             else completion rendered = Normal None
                  /\ events rendered
                     = [ConsoleError "ContextBridge: Serialization error"]).
Proof.
  intros calls node_env request st entries rendered.
  assert (Hwf : wf st) by apply runCalls_wf, emptyServer_wf.
  pose proof (requestEntries_NoDup st request Hwf) as Hnd. fold entries in Hnd.
  subst rendered. rewrite BridgeSerializer_eq. unfold completion, events.
  cbn [fst snd]. fold entries. split; [|split].
  - intros ->. split; reflexivity.
  - intros text Hne Hs.
    assert (Ho : serializerOutcome node_env entries
                 = (Normal (Some (storeScript text)), [])).
    { unfold serializerOutcome. destruct entries; [congruence|].
      rewrite Hs. reflexivity. }
    assert (Hel : fst (serializerOutcome node_env entries)
                  = Normal (Some (storeScript text))) by (rewrite Ho; reflexivity).
    destruct (serializer_parses_back _ _ _ Hnd Hel) as (props & Hp & Hprops & Hget).
    exists (storeScript text), props. rewrite Ho.
    repeat (split; [reflexivity|]). split; [exact Hp|].
    intros k. split; [|apply Hget].
    rewrite count_key_NoDup by exact Hprops. destruct (assoc_get k props); lia.
  - intros e Hs. unfold serializerOutcome.
    destruct entries as [|kv rest] eqn:He.
    + vm_compute in Hs. discriminate.
    + split; [discriminate|]. rewrite Hs.
      destruct (isDevelopment node_env); split; reflexivity.
Qed.

Lemma C4_witness :
  exists el props,
    completion (BridgeSerializer None 7
                  (runCalls [CallProvider None "user" (VStr "Ann") 7;
                             CallProvider None "f" (VFunction "f") 7] emptyServer))
    = Normal (Some el)
    /\ script_id el = "__CONTEXT_BRIDGE_STORE__"
    /\ JSON_parse (innerHTML el) = Normal (VObj props)
    /\ assoc_get "user" props = Some (VStr "Ann")
    /\ assoc_get "f" props = None.
Proof.
  destruct (proj1 (proj2 (C4_serializer_output
                            [CallProvider None "user" (VStr "Ann") 7;
                             CallProvider None "f" (VFunction "f") 7]
                            None 7))
              (Some (qq "{'user':'Ann'}")))
    as (el & props & Hc & _ & Hid & _ & Hp & Hk).
  - vm_compute. discriminate.
  - vm_compute. reflexivity.
  - exists el, props. split; [exact Hc|]. split; [exact Hid|]. split; [exact Hp|].
    split; [exact (proj2 (Hk "user"))|exact (proj2 (Hk "f"))].
Defined.

(** C5, counterexample. In development a value [JSON.stringify] throws on
    makes [BridgeSerializer], and the render of the page with it, throw. *)
Lemma C5_counterexample :
  completion (renderPage (Some "development") 7 [("n", VBigInt 1)] emptyServer)
  = Throw (Error SERIALIZE_ERROR).
Proof. vm_compute. reflexivity. Qed.

(** C5, amended. Where errors surface.  On the client nothing throws,
    whatever [JSON.parse] does: [getHydratedStore] completes normally in
    every runtime and state, and so does every hook call of a session; a
    parse failure is caught and logged once with [console.error], and the
    store is then the empty object; when the blob is missing, empty or
    unparsable the hook answers its default, or for a name that
    [Object.prototype] defines the inherited property (the defect of C2).
    On the server a Provider never throws; [BridgeSerializer] never throws
    outside development, and throws only when the store is not empty and
    [JSON.stringify] throws; on such a store it logs the failure, and
    renders nothing outside development and throws its [Error] in
    development.  [useBridge] throws when no [BridgeProvider] gives it a
    defined value and answers the value otherwise. *)
Theorem C5_where_errors_surface :
  (forall parse rt st,
     exists store, completion (getHydratedStoreWith parse rt st) = Normal store)
  /\ (forall parse calls,
        Forall (fun r => exists v, r = Normal v)
          (fst (runHooksWith parse calls freshClient)))
  /\ (forall parse document st el e,
        toBoolean (clientStore st) = false ->
        getElementById document STORE_ELEMENT_ID = Some el ->
        textContent el <> "" ->
        parse (textContent el) = Throw e ->
        getHydratedStoreWith parse (Browser document) st
        = (Normal (VObj []), with_store st (VObj []),
           [DomLookup STORE_ELEMENT_ID; ParseCall (textContent el);
            ConsoleError "ContextBridge Error: Unable to parse data from server."]))
  /\ (forall parse document bridgeId defaultValue cell,
        blobUnusableWith parse document = true ->
        completion (useBridgeDataWith parse bridgeId defaultValue
                      (Browser document) cell freshClient)
        = Normal (if isUndefined (objectPrototypeGet bridgeId) then defaultValue
                  else objectPrototypeGet bridgeId))
  /\ (forall node_env bridgeId data request st,
        completion (Provider node_env bridgeId data request st) = Normal tt)
  /\ (forall node_env request st,
        isDevelopment node_env = false ->
        exists rendered,
          completion (BridgeSerializer node_env request st) = Normal rendered)
  /\ (forall node_env request st e,
        completion (BridgeSerializer node_env request st) = Throw e ->
        isDevelopment node_env = true
        /\ requestEntries st request <> []
        /\ exists e', JSON_stringify (Object_fromEntries (requestEntries st request))
                      = Throw e')
  /\ (forall node_env request st e,
        requestEntries st request <> [] ->
        JSON_stringify (Object_fromEntries (requestEntries st request)) = Throw e ->
        if isDevelopment node_env
        then completion (BridgeSerializer node_env request st)
             = Throw (Error SERIALIZE_ERROR)
             /\ events (BridgeSerializer node_env request st)
                = [ConsoleError "ContextBridge Error: Unable to serialize data."]
        else completion (BridgeSerializer node_env request st) = Normal None
             /\ events (BridgeSerializer node_env request st)
                = [ConsoleError "ContextBridge: Serialization error"])
  /\ useBridge None = Throw (Error "useBridge must be used within a BridgeProvider")
  /\ useBridge (Some VUndefined)
     = Throw (Error "useBridge must be used within a BridgeProvider")
  /\ (forall v, isUndefined v = false -> useBridge (Some v) = Normal v).
Proof.
  repeat apply conj.
  - intros parse rt st.
    destruct (getHydratedStoreWith_total parse rt st) as (store & H & _). eauto.
  - intros parse calls. apply runHooksWith_total.
    intros c v. cbn. rewrite lookup_empty. discriminate.
  - intros parse document st el e Hc Hel Ht Hp.
    rewrite getHydratedStoreWith_browser by exact Hc.
    unfold hydrateWith, blobText. rewrite Hel.
    apply String.eqb_neq in Ht. rewrite Ht, Hp. reflexivity.
  - intros parse document bridgeId defaultValue cell Hb.
    apply hook_without_blobWith, Hb.
  - intros. rewrite Provider_eq. reflexivity.
  - intros node_env request st Hd. rewrite BridgeSerializer_eq.
    unfold completion, serializerOutcome. cbn [fst]. rewrite Hd.
    destruct (requestEntries st request); [eauto|].
    destruct (JSON_stringify _); eauto.
  - intros node_env request st e. rewrite BridgeSerializer_eq.
    unfold completion, serializerOutcome. cbn [fst].
    destruct (requestEntries st request) as [|x l]; [discriminate|].
    destruct (JSON_stringify _) as [s|e'] eqn:Hs; [discriminate|].
    destruct (isDevelopment node_env); [|discriminate].
    intros _. repeat split; [discriminate|eauto].
  - intros node_env request st e Hne Hs. rewrite BridgeSerializer_eq.
    unfold completion, events, serializerOutcome. cbn [fst snd].
    destruct (requestEntries st request) as [|x l]; [congruence|].
    rewrite Hs. destruct (isDevelopment node_env); split; reflexivity.
  - reflexivity.
  - reflexivity.
  - intros v Hv. unfold useBridge, useContext. cbn. rewrite Hv. reflexivity.
Qed.

Lemma C5_witness :
  getHydratedStore (Browser (blobDocument (qq "{'user':"))) freshClient
  = (Normal (VObj []), with_store freshClient (VObj []),
     [DomLookup STORE_ELEMENT_ID; ParseCall (qq "{'user':");
      ConsoleError "ContextBridge Error: Unable to parse data from server."])
  /\ completion (useBridgeData "user" (VStr "guest")
                   (Browser (blobDocument (qq "{'user':")))
                   0 freshClient)
     = Normal (VStr "guest").
Proof.
  split.
  - refine (proj1 (proj2 (proj2 C5_where_errors_surface)) JSON_parse
              (blobDocument (qq "{'user':")) freshClient
              {| el_id := STORE_ELEMENT_ID; textContent := qq "{'user':" |}
              (SyntaxError "Unexpected token or end of JSON input")
              eq_refl eq_refl _ eq_refl).
    vm_compute. discriminate.
  - exact (proj1 (proj2 (proj2 (proj2 C5_where_errors_surface))) JSON_parse
             (blobDocument (qq "{'user':")) "user" (VStr "guest") 0 eq_refl).
Defined.



(** C7. No updates after the initial load: once the module holds a store,
    a session of hook calls (any hooks, any components, any runtime and
    document at each call) leaves [clientStore] as it was, and each call
    answers from the store its component reads, so calling the same hook
    again gives the same value. *)
Theorem C7_hydrated_store_is_never_modified :
  forall (st : ClientState) (calls : list HookCall),
    hydrated st ->
    clientStore (snd (runHooks calls st)) = clientStore st
    /\ fst (runHooks calls st)
       = map (fun c => hookAnswer (seenStore st (call_cell c))
                         (call_bridgeId c) (call_default c)) calls
    /\ forall rt, getHydratedStore rt (snd (runHooks calls st))
                  = (Normal (clientStore st), snd (runHooks calls st), []).
Proof.
  intros st calls Hh. destruct (runHooks_hydrated calls st Hh) as (Hr & Hs).
  repeat split; [exact Hs|exact Hr|].
  intros rt. rewrite getHydratedStore_cached; [rewrite Hs; reflexivity|].
  rewrite Hs. exact Hh.
Qed.

Lemma C7_witness :
  fst (runHooks sampleSession {| clientStore := sampleStore; memoCells := ∅ |})
  = [ Normal (VObj [("name", VStr "Ann")]); Normal VNull;
      Normal (VObj [("name", VStr "Ann")]); Normal (VObj [("name", VStr "Ann")]) ].
Proof.
  rewrite (proj1 (proj2 (C7_hydrated_store_is_never_modified
                           {| clientStore := sampleStore; memoCells := ∅ |}
                           sampleSession eq_refl))).
  reflexivity.
Defined.

(** C8, counterexample. A Provider stored [null] for [theme]; another one,
    in production, stored a value [JSON.stringify] throws on.  The store
    holds the [null], the page carries no blob, and the hook answers its
    default. *)
Lemma C8_counterexample :
  let providers := [("theme", VNull); ("count", VBigInt 1)] in
  let st := state_after (renderProviders (Some "production") 1 providers emptyServer) in
  let page := renderPage (Some "production") 1 providers emptyServer in
  assoc_get "theme" (requestEntries st 1) = Some VNull
  /\ completion page = Normal None
  /\ completion (useBridgeData "theme" (VStr "light")
                   (Browser (pageDocument (completion page))) 0 freshClient)
     = Normal (VStr "light").
Proof. vm_compute. repeat split. Qed.

(** C8, amended. [null] is a present value.  In a page whose blob is
    written and holds no [<], an identifier whose last Provider was given
    [null] has [null] in the store of the request, and its hook answers
    [null] in the browser, whatever its default.  In general the hook
    answers the value it finds under [bridgeId] in the store it reads
    whenever that value is not [undefined], whatever [JSON.parse] does, so
    [null], [0], [false] and the empty string are answered as they are, and
    the default is answered only when the lookup gives [undefined]. *)
Theorem C8_null_is_present :
  (forall (calls : list ServerCall) (node_env : option string) (request : nat)
          (providers : list (string * JsValue)) (el : ScriptElement)
          (bridgeId : string) (defaultValue : JsValue) (cell : nat),
     completion (renderPage node_env request providers (runCalls calls emptyServer))
     = Normal (Some el) ->
     no_less_than (innerHTML el) = true ->
     last_set bridgeId providers = Some VNull ->
     assoc_get bridgeId
       (requestEntries
          (state_after (renderProviders node_env request providers
                          (runCalls calls emptyServer)))
          request) = Some VNull
     /\ completion (useBridgeData bridgeId defaultValue
                      (Browser (loadDocument [el])) cell freshClient)
        = Normal VNull)
  /\ (forall (parse : string -> Completion JsValue) (bridgeId : string)
             (defaultValue : JsValue) (rt : Runtime) (cell : nat)
             (st : ClientState) (store data : JsValue),
        completion (useMemo cell (getHydratedStoreWith parse rt) st) = Normal store ->
        getV store bridgeId = Normal data ->
        completion (useBridgeDataWith parse bridgeId defaultValue rt cell st)
        = Normal (if isUndefined data then defaultValue else data)
        /\ (data <> VUndefined ->
            completion (useBridgeDataWith parse bridgeId defaultValue rt cell st)
            = Normal data)
        /\ (data = VUndefined ->
            completion (useBridgeDataWith parse bridgeId defaultValue rt cell st)
            = Normal defaultValue)).
Proof.
  split.
  - intros calls node_env request providers el bridgeId defaultValue cell
      Hpage Hlt Hlast.
    set (st := runCalls calls emptyServer) in *.
    assert (Hwf : wf st) by apply runCalls_wf, emptyServer_wf.
    pose proof (pageEntries_last st request providers bridgeId VNull Hlast) as Hget.
    split.
    + destruct (renderProviders_eq node_env request providers st Hwf) as (_ & _ & ->).
      case_decide; [exact Hget|congruence].
    + rewrite (page_hook_answer _ _ _ _ _ _ _ _ Hwf Hpage Hlt), Hget. reflexivity.
  - intros parse bridgeId defaultValue rt cell st store data Hm Hg.
    assert (H : completion (useBridgeDataWith parse bridgeId defaultValue rt cell st)
                = Normal (if isUndefined data then defaultValue else data)).
    { unfold useBridgeDataWith, bind, lift, ret, completion in *.
      destruct (useMemo cell (getHydratedStoreWith parse rt) st) as [[c st'] log].
      cbn [fst snd] in *. subst c. rewrite Hg.
      destruct (isUndefined data); reflexivity. }
    rewrite H. repeat split.
    + intros Hd. destruct data; try reflexivity. congruence.
    + intros ->. reflexivity.
Qed.

Lemma C8_witness :
  completion
    (useBridgeData "theme" (VStr "light")
       (Browser (loadDocument [storeScript (Some (qq "{'user':'Ann','theme':null}"))]))
       0 freshClient)
  = Normal VNull.
Proof.
  refine (proj2 (proj1 C8_null_is_present [] (Some "production") 1
                   [("user", VStr "Ann"); ("theme", VStr "dark"); ("theme", VNull)]
                   (storeScript (Some (qq "{'user':'Ann','theme':null}")))
                   "theme" (VStr "light") 0 _ _ _));
    vm_compute; reflexivity.
Defined.

(** C9, counterexample. Two Providers with the identifier [k], the second
    given [undefined]: the blob is the empty object, with no entry for [k]. *)
Lemma C9_counterexample :
  completion (renderPage (Some "production") 7 [("k", VNum 1); ("k", VUndefined)] emptyServer)
  = Normal (Some (storeScript (Some "{}"))).
Proof. vm_compute. reflexivity. Qed.

(** C9, amended. The last write wins.  After the Providers of a page have
    rendered, the store of the request holds one entry for an identifier
    they set, with the value of the Provider that rendered last; and in the
    blob, when one is written, the identifier has the JSON form of that
    value as its one entry, or no entry when that value has no JSON form
    (undefined, a function, a symbol). *)
Theorem C9_last_write_wins :
  forall (calls : list ServerCall) (node_env : option string) (request : nat)
         (providers : list (string * JsValue)) (bridgeId : string) (v : JsValue),
    last_set bridgeId providers = Some v ->
    let st := runCalls calls emptyServer in
    let entries :=
      requestEntries (state_after (renderProviders node_env request providers st))
        request in
    assoc_get bridgeId entries = Some v
    /\ count_key bridgeId entries = 1
    /\ forall el,
         completion (renderPage node_env request providers st) = Normal (Some el) ->
         exists members,
           innerHTML el = string_of_list_ascii (render (JObj members))
           /\ count_key bridgeId members
              = match toJson v with SJson _ => 1 | _ => 0 end
           /\ assoc_get bridgeId members
              = match toJson v with SJson j => Some j | _ => None end.
Proof.
  intros calls node_env request providers bridgeId v Hlast st entries.
  assert (Hwf : wf st) by apply runCalls_wf, emptyServer_wf.
  destruct (renderProviders_eq node_env request providers st Hwf) as (_ & Hwf1 & He).
  assert (Hent : entries = pageEntries st request providers).
  { subst entries. rewrite He. case_decide; [reflexivity|congruence]. }
  pose proof (pageEntries_NoDup st request providers Hwf) as Hnd.
  pose proof (pageEntries_last st request providers bridgeId v Hlast) as Hget.
  rewrite Hent. split; [exact Hget|]. split.
  - rewrite count_key_NoDup by exact Hnd. rewrite Hget. reflexivity.
  - intros el Hpage. rewrite renderPage_eq in Hpage by exact Hwf.
    destruct (serializerOutcome_script _ _ _ Hnd Hpage) as (_ & ms & Hm & Hms & _ & ->).
    exists ms. split; [reflexivity|].
    destruct (objectMembers_spec _ _ Hm) as (_ & Hspec).
    rewrite serializedEntries_keys in Hspec. destruct (Hspec Hnd) as (_ & Hk).
    rewrite count_key_NoDup by exact Hms.
    rewrite Hk, assoc_get_serialized, Hget. cbn [option_map].
    destruct (toJson v); split; reflexivity.
Qed.

Lemma C9_witness :
  assoc_get "k"
    (requestEntries
       (state_after (renderProviders None 7 [("k", VNum 1); ("k", VNum 2)] emptyServer)) 7)
  = Some (VNum 2).
Proof.
  exact (proj1 (C9_last_write_wins [] None 7 [("k", VNum 1); ("k", VNum 2)]
                  "k" (VNum 2) eq_refl)).
Defined.

(** C10 (the code departs from it). On the server the hydrator answers an
    empty object and writes nothing, but the hook made for the identifier
    [constructor] answers the function [Object], which the empty object
    inherits, rather than its default. *)
Theorem C10_inherited_name_on_the_server :
  getHydratedStore ServerRuntime freshClient = (Normal (VObj []), freshClient, [])
  /\ completion (useBridgeData "constructor" (VStr "fallback") ServerRuntime 0 freshClient)
     = Normal (VFunction "Object").
Proof. vm_compute. repeat split. Qed.

(** The server pass of the client module: with no window the hydrator
    answers an empty object, writes nothing and looks nothing up; the hook
    answers its default for every identifier that [Object.prototype] does
    not define, and leaves [clientStore] alone; and a call in a browser
    afterwards still looks the blob up. *)
Theorem server_pass_is_not_cached :
  forall (bridgeId : string) (defaultValue : JsValue) (cell : nat)
         (st : ClientState) (document : Document),
    toBoolean (clientStore st) = false ->
    memoCells st !! cell = None ->
    getHydratedStore ServerRuntime st = (Normal (VObj []), st, [])
    /\ completion (useBridgeData bridgeId defaultValue ServerRuntime cell st)
       = Normal (if isUndefined (objectPrototypeGet bridgeId) then defaultValue
                 else objectPrototypeGet bridgeId)
    /\ clientStore (state_after (useBridgeData bridgeId defaultValue ServerRuntime cell st))
       = clientStore st
    /\ getHydratedStore (Browser document) st = hydrate document st
    /\ hd_error (events (hydrate document st)) = Some (DomLookup STORE_ELEMENT_ID).
Proof.
  intros bridgeId defaultValue cell st document Hc Hm.
  pose proof (getHydratedStore_server st Hc) as Hs.
  rewrite (useBridgeData_first_render _ _ _ _ _ _ _ _ Hm Hs).
  repeat split; [exact Hs|apply getHydratedStore_browser, Hc|].
  unfold hydrate, hydrateWith. destruct (blobText document) as [text|]; [|reflexivity].
  destruct (JSON_parse text); reflexivity.
Qed.

Lemma server_pass_is_not_cached_witness :
  completion (useBridgeData "user" (VStr "guest") ServerRuntime 0 freshClient)
  = Normal (VStr "guest").
Proof.
  exact (proj1 (proj2 (server_pass_is_not_cached "user" (VStr "guest") 0
                         freshClient [] eq_refl eq_refl))).
Defined.

(** ** The server module, call by call and page by page *)

(** The blob of a request depends on the calls of that request only.
    However the calls of the requests a server process serves interleave,
    the store of a request holds what it would hold had the process served
    that request alone, and [BridgeSerializer] renders and logs for it what
    it would render and log then: nothing of another request reaches the
    page. *)
Theorem blob_depends_on_its_request_only :
  forall (calls : list ServerCall) (node_env : option string) (request : nat),
    let st := runCalls calls emptyServer in
    let alone := runCalls (callsOf request calls) emptyServer in
    requestEntries st request = requestEntries alone request
    /\ completion (BridgeSerializer node_env request st)
       = completion (BridgeSerializer node_env request alone)
    /\ events (BridgeSerializer node_env request st)
       = events (BridgeSerializer node_env request alone).
Proof.
  intros calls node_env request st alone.
  assert (He : requestEntries st request = requestEntries alone request).
  { apply runCalls_entries; [apply emptyServer_wf..|reflexivity]. }
  split; [exact He|].
  rewrite !BridgeSerializer_eq. unfold completion, events. cbn [fst snd].
  rewrite He. split; reflexivity.
Qed.

(** [BridgeSerializer] only reads.  In a server process that has served
    any calls, rendering it leaves the entries of every request as they
    were, and rendering it again gives the same completion and the same
    log and changes nothing more. *)
Theorem serializer_only_reads :
  forall (calls : list ServerCall) (node_env : option string) (request other : nat),
    let st := runCalls calls emptyServer in
    let first := BridgeSerializer node_env request st in
    requestEntries (state_after first) other = requestEntries st other
    /\ BridgeSerializer node_env request (state_after first)
       = (completion first, state_after first, events first).
Proof.
  intros calls node_env request other st first.
  assert (Hwf : wf st) by apply runCalls_wf, emptyServer_wf.
  split; [apply BridgeSerializer_entries, Hwf|].
  subst first. rewrite (BridgeSerializer_eq node_env request st).
  unfold completion, state_after, events. cbn [fst snd].
  rewrite BridgeSerializer_eq, ensureStore_twice.
  rewrite requestEntries_ensureStore by exact Hwf. reflexivity.
Qed.

(** Serialization is all or nothing.  [BridgeSerializer] renders a
    script element exactly when the store of the request is not empty and
    [JSON.stringify] throws on none of its values: one value it throws on
    (a BigInt, a cycle) leaves the whole page without a blob. *)
Theorem blob_is_written_exactly_when :
  forall (calls : list ServerCall) (node_env : option string) (request : nat),
    let st := runCalls calls emptyServer in
    let entries := requestEntries st request in
    (exists el, completion (BridgeSerializer node_env request st) = Normal (Some el))
    <-> (entries <> [] /\ forall k v, In (k, v) entries -> toJson v <> SThrow).
Proof.
  intros calls node_env request st entries.
  assert (Hwf : wf st) by apply runCalls_wf, emptyServer_wf.
  pose proof (requestEntries_NoDup st request Hwf) as Hnd. fold entries in Hnd.
  rewrite BridgeSerializer_eq. unfold completion. cbn [fst]. fold entries.
  split.
  - intros (el & Hel).
    destruct (serializerOutcome_script _ _ _ Hnd Hel) as (Hne & _).
    split; [exact Hne|]. intros k v Hin Hv.
    rewrite (serializerOutcome_throws node_env entries Hnd) in Hel by eauto.
    destruct (isDevelopment node_env); discriminate.
  - intros (Hne & Hall).
    destruct (serializerOutcome_writes node_env entries Hnd Hne Hall) as (ms & _ & ->).
    eauto.
Qed.

(** Outside development, one value [JSON.stringify] throws on costs the
    page every bridge: when the last value some Provider set is such a
    value, the page renders no script element and logs the serialization
    error, and in the browser every hook whose identifier [Object.prototype]
    does not define answers its default, whatever its Provider was given. *)
Theorem one_unserializable_value_loses_every_bridge :
  forall (calls : list ServerCall) (node_env : option string) (request : nat)
         (providers : list (string * JsValue)) (culprit : string) (v : JsValue)
         (bridgeId : string) (defaultValue : JsValue) (cell : nat),
    isDevelopment node_env = false ->
    last_set culprit providers = Some v ->
    toJson v = SThrow ->
    objectPrototypeGet bridgeId = VUndefined ->
    let page := renderPage node_env request providers (runCalls calls emptyServer) in
    completion page = Normal None
    /\ events page = [ConsoleError "ContextBridge: Serialization error"]
    /\ completion (useBridgeData bridgeId defaultValue
                     (Browser (pageDocument (completion page))) cell freshClient)
       = Normal defaultValue.
Proof.
  intros calls node_env request providers culprit v bridgeId defaultValue cell
    Hd Hlast Hv Hp page.
  set (st := runCalls calls emptyServer) in *.
  assert (Hwf : wf st) by apply runCalls_wf, emptyServer_wf.
  pose proof (pageEntries_NoDup st request providers Hwf) as Hnd.
  assert (Ho : serializerOutcome node_env (pageEntries st request providers)
               = (Normal None, [ConsoleError "ContextBridge: Serialization error"])).
  { rewrite serializerOutcome_throws; [rewrite Hd; reflexivity|exact Hnd|].
    exists culprit, v. split; [|exact Hv].
    apply assoc_get_In, pageEntries_last, Hlast. }
  assert (Hc : completion page = Normal None).
  { subst page. rewrite renderPage_eq by exact Hwf. rewrite Ho. reflexivity. }
  split; [exact Hc|]. split.
  - subst page. rewrite renderPage_events by exact Hwf.
    rewrite pageWarnings_production by exact Hd. rewrite Ho. reflexivity.
  - rewrite Hc. rewrite hook_without_blob by reflexivity.
    unfold unsetAnswer. rewrite Hp. reflexivity.
Qed.

Lemma one_unserializable_value_loses_every_bridge_witness :
  completion (renderPage (Some "production") 1
                [("user", VStr "Ann"); ("count", VBigInt 1)] emptyServer)
  = Normal None
  /\ completion
       (useBridgeData "user" (VStr "guest")
          (Browser (pageDocument
                      (completion (renderPage (Some "production") 1
                                     [("user", VStr "Ann"); ("count", VBigInt 1)]
                                     emptyServer))))
          0 freshClient)
     = Normal (VStr "guest").
Proof.
  pose proof (one_unserializable_value_loses_every_bridge [] (Some "production") 1
                [("user", VStr "Ann"); ("count", VBigInt 1)] "count" (VBigInt 1)
                "user" (VStr "guest") 0 eq_refl eq_refl eq_refl eq_refl) as H.
  split; [exact (proj1 H)|exact (proj2 (proj2 H))].
Defined.

(** The development warning of a Provider marks exactly the values
    that have no JSON form of their own.  In a server process that has
    served any calls, a Provider logs its warning when [NODE_ENV] is
    [development] and [JSON.stringify] would leave its value out
    (undefined, a function, a symbol), and logs nothing otherwise: not for
    a value [JSON.stringify] throws on, and not for a value that holds
    such values inside.  Warned or not, the value is stored. *)
Theorem provider_warns_exactly_for_values_without_json :
  forall (calls : list ServerCall) (node_env : option string) (bridgeId : string)
         (data : JsValue) (request : nat),
    let st := runCalls calls emptyServer in
    let rendered := Provider node_env bridgeId data request st in
    events rendered
    = (if isDevelopment node_env
       then match toJson data with
            | SOmit => [ConsoleWarn (providerWarningText bridgeId)]
            | _ => []
            end
       else [])
    /\ completion rendered = Normal tt
    /\ assoc_get bridgeId (requestEntries (state_after rendered) request) = Some data.
Proof.
  intros calls node_env bridgeId data request st rendered.
  assert (Hwf : wf st) by apply runCalls_wf, emptyServer_wf.
  split; [|split].
  - subst rendered. rewrite Provider_eq. unfold events, providerWarning. cbn [snd].
    destruct (isDevelopment node_env); [|reflexivity]. cbn [andb].
    destruct data; try reflexivity; cbn [isUndefined isFunction isSymbol orb toJson].
    + destruct (arrayElements _); reflexivity.
    + destruct (objectMembers _); reflexivity.
  - subst rendered. rewrite Provider_eq. reflexivity.
  - subst rendered. rewrite Provider_entries by exact Hwf.
    case_decide; [|congruence]. apply assoc_get_set_eq.
Qed.

(** Without a serialized entry the hook answers its default.  In a
    page whose blob is written and holds no [<], a hook whose identifier
    the store of the request does not hold, or holds with a value that has
    no JSON form (undefined, a function, a symbol), is answered in the
    browser as if nothing had been set: with the default, unless
    [Object.prototype] defines the name. *)
Theorem hook_defaults_without_a_serialized_entry :
  forall (calls : list ServerCall) (node_env : option string) (request : nat)
         (providers : list (string * JsValue)) (el : ScriptElement)
         (bridgeId : string) (defaultValue : JsValue) (cell : nat),
    completion (renderPage node_env request providers (runCalls calls emptyServer))
    = Normal (Some el) ->
    no_less_than (innerHTML el) = true ->
    (forall v,
       assoc_get bridgeId
         (requestEntries
            (state_after (renderProviders node_env request providers
                            (runCalls calls emptyServer)))
            request) = Some v ->
       toJson v = SOmit) ->
    completion (useBridgeData bridgeId defaultValue
                  (Browser (loadDocument [el])) cell freshClient)
    = Normal (if isUndefined (objectPrototypeGet bridgeId) then defaultValue
              else objectPrototypeGet bridgeId).
Proof.
  intros calls node_env request providers el bridgeId defaultValue cell
    Hpage Hlt Hv.
  assert (Hwf : wf (runCalls calls emptyServer)) by apply runCalls_wf, emptyServer_wf.
  rewrite (page_hook_answer _ _ _ _ _ _ _ _ Hwf Hpage Hlt).
  destruct (renderProviders_eq node_env request providers _ Hwf) as (_ & _ & He).
  rewrite He in Hv. case_decide; [|congruence].
  fold (pageEntries (runCalls calls emptyServer) request providers) in Hv.
  destruct (assoc_get bridgeId (pageEntries _ request providers)) as [v|];
    [rewrite (Hv v eq_refl)|]; reflexivity.
Qed.

Lemma hook_defaults_without_a_serialized_entry_witness :
  completion
    (useBridgeData "onClick" (VStr "none")
       (Browser (loadDocument [storeScript (Some (qq "{'user':'Ann'}"))]))
       0 freshClient)
  = Normal (VStr "none")
  /\ completion
       (useBridgeData "theme" (VStr "light")
          (Browser (loadDocument [storeScript (Some (qq "{'user':'Ann'}"))]))
          0 freshClient)
     = Normal (VStr "light").
Proof.
  split.
  - refine (hook_defaults_without_a_serialized_entry [] (Some "production") 1
              [("user", VStr "Ann"); ("onClick", VFunction "handler")]
              (storeScript (Some (qq "{'user':'Ann'}")))
              "onClick" (VStr "none") 0 _ _ _);
      [vm_compute; reflexivity..|].
    vm_compute. intros v Hv. injection Hv as <-. reflexivity.
  - refine (hook_defaults_without_a_serialized_entry [] (Some "production") 1
              [("user", VStr "Ann"); ("onClick", VFunction "handler")]
              (storeScript (Some (qq "{'user':'Ann'}")))
              "theme" (VStr "light") 0 _ _ _);
      [vm_compute; reflexivity..|].
    vm_compute. intros v Hv. discriminate Hv.
Defined.

(** The order of Providers with distinct identifiers does not matter.
    When no two Providers of a page share an identifier, rendering them in
    another order leaves every lookup in the store the same, and when both
    orders give a blob without [<], every hook answers the same in the
    browser. *)
Theorem provider_order_is_irrelevant :
  forall (calls : list ServerCall) (node_env : option string) (request : nat)
         (providers providers' : list (string * JsValue)),
    Permutation providers providers' ->
    List.NoDup (map fst providers) ->
    let st := runCalls calls emptyServer in
    (forall k,
       assoc_get k (requestEntries
                      (state_after (renderProviders node_env request providers st))
                      request)
       = assoc_get k (requestEntries
                        (state_after (renderProviders node_env request providers' st))
                        request))
    /\ (forall el el' bridgeId defaultValue cell,
          completion (renderPage node_env request providers st) = Normal (Some el) ->
          completion (renderPage node_env request providers' st) = Normal (Some el') ->
          no_less_than (innerHTML el) = true ->
          no_less_than (innerHTML el') = true ->
          completion (useBridgeData bridgeId defaultValue
                        (Browser (loadDocument [el])) cell freshClient)
          = completion (useBridgeData bridgeId defaultValue
                          (Browser (loadDocument [el'])) cell freshClient)).
Proof.
  intros calls node_env request providers providers' Hperm Hnd st.
  assert (Hwf : wf st) by apply runCalls_wf, emptyServer_wf.
  assert (Hget : forall k, assoc_get k (pageEntries st request providers)
                           = assoc_get k (pageEntries st request providers')).
  { intros k. unfold pageEntries. rewrite !fold_assoc_get.
    rewrite (assoc_get_Permutation k (rev providers) (rev providers')); [reflexivity| |].
    - rewrite <- !Permutation_rev. exact Hperm.
    - eapply Permutation_NoDup; [|exact Hnd].
      apply Permutation_map, Permutation_rev. }
  split.
  - intros k.
    destruct (renderProviders_eq node_env request providers st Hwf) as (_ & _ & ->).
    destruct (renderProviders_eq node_env request providers' st Hwf) as (_ & _ & ->).
    case_decide; [|congruence]. apply Hget.
  - intros el el' bridgeId defaultValue cell Hp Hp' Hlt Hlt'.
    rewrite (page_hook_answer _ _ _ _ _ _ _ _ Hwf Hp Hlt).
    rewrite (page_hook_answer _ _ _ _ _ _ _ _ Hwf Hp' Hlt').
    rewrite Hget. reflexivity.
Qed.

Lemma provider_order_is_irrelevant_witness :
  completion
    (useBridgeData "user" (VStr "guest")
       (Browser (loadDocument [storeScript (Some (qq "{'user':'Ann','theme':'dark'}"))]))
       0 freshClient)
  = completion
      (useBridgeData "user" (VStr "guest")
         (Browser (loadDocument [storeScript (Some (qq "{'theme':'dark','user':'Ann'}"))]))
         0 freshClient).
Proof.
  refine (proj2 (provider_order_is_irrelevant [] (Some "production") 1
                   [("user", VStr "Ann"); ("theme", VStr "dark")]
                   [("theme", VStr "dark"); ("user", VStr "Ann")]
                   (perm_swap _ _ _) _) _ _ "user" (VStr "guest") 0 _ _ _ _);
    [|vm_compute; reflexivity..].
  cbn [map fst]. repeat constructor; cbn [In]; intuition discriminate.
Defined.

(** The store after a render pass.  Whatever the store of the request
    held before, after the Providers of a page have rendered it holds every
    identifier once; its identifiers are the ones it held and the ones the
    Providers were made for; its size grows by at most one per Provider;
    and an identifier none of them was made for keeps its entry. *)
Theorem store_after_a_render_pass :
  forall (calls : list ServerCall) (node_env : option string) (request : nat)
         (providers : list (string * JsValue)),
    let st := runCalls calls emptyServer in
    let before := requestEntries st request in
    let entries :=
      requestEntries (state_after (renderProviders node_env request providers st))
        request in
    List.NoDup (map fst entries)
    /\ (forall k, In k (map fst entries)
                  <-> In k (map fst before) \/ In k (map fst providers))
    /\ List.length entries <= List.length before + List.length providers
    /\ (forall k, ~ In k (map fst providers) ->
                  assoc_get k entries = assoc_get k before).
Proof.
  intros calls node_env request providers st before entries.
  assert (Hwf : wf st) by apply runCalls_wf, emptyServer_wf.
  assert (He : entries = pageEntries st request providers).
  { subst entries.
    destruct (renderProviders_eq node_env request providers st Hwf) as (_ & _ & ->).
    case_decide; [reflexivity|congruence]. }
  rewrite He. split; [apply pageEntries_NoDup, Hwf|].
  split; [intros k; apply pageEntries_keys|].
  split; [apply pageEntries_length|].
  intros k Hk. unfold pageEntries. rewrite fold_assoc_get.
  assert (Hn : assoc_get k (rev providers) = None).
  { apply assoc_get_None. rewrite map_rev, <- in_rev. exact Hk. }
  rewrite Hn. reflexivity.
Qed.

(** What [BridgeSerializer] writes, [JSON.parse] reads back.  The text
    of the script element it renders parses, without an exception, to an
    object whose own properties are the entries of the store that have a
    JSON form, each with the value [JSON.parse(JSON.stringify(value))]
    gives, and nothing else. *)
Theorem serializer_text_parses_back :
  forall (calls : list ServerCall) (node_env : option string) (request : nat)
         (el : ScriptElement),
    let st := runCalls calls emptyServer in
    completion (BridgeSerializer node_env request st) = Normal (Some el) ->
    exists store,
      JSON_parse (innerHTML el) = Normal store
      /\ toBoolean store = true
      /\ forall k,
           ownProperty store k
           = match assoc_get k (requestEntries st request) with
             | Some v =>
                 match toJson v with SJson j => Some (fromJson j) | _ => None end
             | None => None
             end.
Proof.
  intros calls node_env request el st Hs.
  assert (Hwf : wf st) by apply runCalls_wf, emptyServer_wf.
  pose proof (requestEntries_NoDup st request Hwf) as Hnd.
  rewrite BridgeSerializer_eq in Hs. unfold completion in Hs. cbn [fst] in Hs.
  destruct (serializerOutcome_script _ _ _ Hnd Hs) as (_ & ms & Hm & Hms & _ & ->).
  exists (fromJson (JObj ms)).
  split; [apply JSON_parse_render|]. split; [apply fromJson_object_truthy|].
  intros k. rewrite ownProperty_fromJson by exact Hms.
  destruct (objectMembers_spec _ _ Hm) as (_ & Hspec).
  rewrite serializedEntries_keys in Hspec. destruct (Hspec Hnd) as (_ & Hget).
  rewrite Hget, assoc_get_serialized.
  destruct (assoc_get k (requestEntries st request)) as [v|]; cbn [option_map];
    [destruct (toJson v)|]; reflexivity.
Qed.

Lemma serializer_text_parses_back_witness :
  exists store,
    JSON_parse (qq "{'user':{'name':'Ann'},'tags':[1,null]}") = Normal store
    /\ toBoolean store = true
    /\ ownProperty store "user" = Some (VObj [("name", VStr "Ann")]).
Proof.
  destruct (serializer_text_parses_back
              [CallProvider None "user" (VObj [("name", VStr "Ann"); ("f", VFunction "f")]) 7;
               CallProvider None "tags" (VArr [VNum 1; VUndefined]) 7]
              None 7
              (storeScript (Some (qq "{'user':{'name':'Ann'},'tags':[1,null]}")))
              eq_refl) as (store & Hp & Ht & Hk).
  exists store. split; [exact Hp|]. split; [exact Ht|]. exact (Hk "user").
Defined.

(** ** The client module, call by call *)

(** A hook answers [undefined] only when its own default is
    [undefined].  In a client session of any hook calls, in whatever
    runtimes and on whatever documents, every call completes normally, and
    with a value other than [undefined] whenever the default it was made
    with is one. *)
Theorem hook_answers_undefined_only_by_default :
  forall calls : list HookCall,
    Forall2 (fun c r => exists v, r = Normal v
                                  /\ (isUndefined v = true
                                      -> isUndefined (call_default c) = true))
      calls (fst (runHooks calls freshClient)).
Proof.
  intros calls. apply runHooks_defined.
  intros c v. cbn. rewrite lookup_empty. discriminate.
Qed.

(** The parse error is logged exactly when there is a text to parse and
    [JSON.parse] throws on it, and once.  Whatever [JSON.parse] does, a
    call of [getHydratedStore] logs the console error when, and only when,
    the module holds no store yet, the call runs in a browser, the element
    is found with a text that is not empty and [JSON.parse] throws on that
    text: a missing element or an empty text is not an error.  After such a
    call the store is the empty object, and no later call, in whatever
    runtime, logs anything. *)
Theorem parse_error_is_logged_once :
  forall (parse : string -> Completion JsValue) (rt : Runtime) (st : ClientState)
         (later : list Runtime),
    let first := getHydratedStoreWith parse rt st in
    let logged :=
      In (ConsoleError "ContextBridge Error: Unable to parse data from server.")
         (events first) in
    (logged <->
     toBoolean (clientStore st) = false
     /\ exists document el e,
          rt = Browser document
          /\ getElementById document STORE_ELEMENT_ID = Some el
          /\ textContent el <> ""
          /\ parse (textContent el) = Throw e)
    /\ (logged ->
        completion first = Normal (VObj [])
        /\ clientStore (state_after first) = VObj []
        /\ Forall (fun out => snd out = [])
             (fst (runHydratorWith parse later (state_after first)))).
Proof.
  intros parse rt st later first logged. subst logged first.
  destruct (toBoolean (clientStore st)) eqn:Hc.
  - rewrite getHydratedStoreWith_cached by exact Hc. unfold events. cbn [snd].
    split; [split; [intros []|intros ([=] & _)]|intros []].
  - destruct rt as [|document].
    + rewrite getHydratedStoreWith_server by exact Hc. unfold events. cbn [snd].
      split; [split; [intros []|]|intros []].
      intros (_ & document & el & e & [=] & _).
    + rewrite getHydratedStoreWith_browser by exact Hc.
      unfold hydrateWith, blobText.
      destruct (getElementById document STORE_ELEMENT_ID) as [el|] eqn:Hel.
      * destruct (String.eqb (textContent el) "") eqn:Ht.
        -- apply String.eqb_eq in Ht. unfold events. cbn [snd In].
           split; [split|]; [intros [[=]|[]]| |intros [[=]|[]]].
           intros (_ & d & el' & e & [= <-] & Hel' & Hne & _).
           rewrite Hel in Hel'. injection Hel' as <-. contradiction.
        -- apply String.eqb_neq in Ht.
           destruct (parse (textContent el)) as [v|e] eqn:Hp.
           ++ unfold events. cbn [snd In].
              split; [split|]; [intros [[=]|[[=]|[]]]| |intros [[=]|[[=]|[]]]].
              intros (_ & d & el' & e & [= <-] & Hel' & _ & Hp').
              rewrite Hel in Hel'. injection Hel' as <-. congruence.
           ++ unfold events, completion, state_after. cbn [fst snd].
              split; [split|].
              ** intros _. split; [reflexivity|]. exists document, el, e. auto.
              ** intros _. right. right. left. reflexivity.
              ** intros _. split; [reflexivity|]. split; [reflexivity|].
                 rewrite runHydratorWith_cached by reflexivity. cbn [fst].
                 apply Forall_map. apply Forall_forall. reflexivity.
      * unfold events. cbn [snd In].
        split; [split|]; [intros [[=]|[]]| |intros [[=]|[]]].
        intros (_ & d & el' & e & [= <-] & Hel' & _). congruence.
Qed.

Lemma parse_error_is_logged_once_witness :
  completion (getHydratedStore (Browser (blobDocument (qq "{'user':"))) freshClient)
  = Normal (VObj [])
  /\ clientStore (state_after
                    (getHydratedStore (Browser (blobDocument (qq "{'user':"))) freshClient))
     = VObj [].
Proof.
  pose proof (proj2 (parse_error_is_logged_once JSON_parse
                       (Browser (blobDocument (qq "{'user':"))) freshClient [])) as H.
  cbv zeta in H.
  assert (Hin : In (ConsoleError "ContextBridge Error: Unable to parse data from server.")
                  (events (getHydratedStoreWith JSON_parse
                             (Browser (blobDocument (qq "{'user':"))) freshClient))).
  { vm_compute. right. right. left. reflexivity. }
  split; [exact (proj1 (H Hin))|exact (proj1 (proj2 (H Hin)))].
Defined.

(** ** The context bridge in a component tree *)

Lemma renderTree_provider (contexts : gmap nat JsValue) (bridge : Bridge) (data : JsValue)
  (children : list Element) :
  renderTree contexts (BridgeProviderEl bridge data children)
  = renderChildren (<[bridgeContext bridge := data]> contexts) children.
Proof.
  cbn [renderTree]. induction children as [|c r IH]; [reflexivity|].
  cbn [renderChildren]. rewrite <- IH. reflexivity.
Qed.

Lemma renderTree_host (contexts : gmap nat JsValue) (children : list Element) :
  renderTree contexts (HostEl children) = renderChildren contexts children.
Proof.
  cbn [renderTree]. induction children as [|c r IH]; [reflexivity|].
  cbn [renderChildren]. rewrite <- IH. reflexivity.
Qed.

Lemma renderTree_nest (frames : list (Bridge * JsValue)) (bridge : Bridge)
  (contexts : gmap nat JsValue) :
  renderTree contexts (nest frames (UseBridgeEl bridge))
  = match useBridge (match nearest bridge frames with
                     | Some v => Some v
                     | None => contexts !! bridgeContext bridge
                     end) with
    | Normal v => Normal [v]
    | Throw err => Throw err
    end.
Proof.
  revert contexts. induction frames as [|[b d] inner IH]; intros contexts.
  - reflexivity.
  - cbn [nest nearest]. rewrite renderTree_provider. cbn [renderChildren].
    rewrite IH. destruct (nearest bridge inner) as [v|].
    + destruct (useBridge (Some v)); [rewrite app_nil_r|]; reflexivity.
    + case_decide as Hb.
      * rewrite Hb. rewrite lookup_insert_eq.
        destruct (useBridge (Some d)); [rewrite app_nil_r|]; reflexivity.
      * rewrite lookup_insert_ne by exact Hb.
        destruct (useBridge _); [rewrite app_nil_r|]; reflexivity.
Qed.

Lemma renderTree_unused (bridge : Bridge) (data : JsValue) (e : Element) :
  uses bridge e = false ->
  forall contexts,
    renderTree (<[bridgeContext bridge := data]> contexts) e = renderTree contexts e.
Proof.
  induction e as [b d children IH|b|children IH] using Element_nested_ind;
    intros Hu contexts.
  - rewrite !renderTree_provider. cbn [uses] in Hu.
    destruct (decide (bridgeContext b = bridgeContext bridge)) as [Hb|Hb].
    + rewrite Hb, insert_insert_eq. reflexivity.
    + rewrite insert_insert_ne by exact Hb.
      generalize (<[bridgeContext b:=d]> contexts). intros ctx.
      induction IH as [|c r Hc _ IHr]; [reflexivity|].
      cbn [existsb] in Hu. apply orb_false_iff in Hu as [Hu1 Hu2].
      cbn [renderChildren]. rewrite (Hc Hu1), (IHr Hu2). reflexivity.
  - cbn [uses] in Hu. apply bool_decide_eq_false in Hu.
    cbn [renderTree]. unfold callUseBridge.
    rewrite lookup_insert_ne by congruence. reflexivity.
  - rewrite !renderTree_host. cbn [uses] in Hu.
    induction IH as [|c r Hc _ IHr]; [reflexivity|].
    cbn [existsb] in Hu. apply orb_false_iff in Hu as [Hu1 Hu2].
    cbn [renderChildren]. rewrite (Hc Hu1), (IHr Hu2). reflexivity.
Qed.

(** [useBridge] reads the nearest [BridgeProvider] of its own bridge.
    A component below any providers, of whatever bridges, reads the [data]
    of the innermost provider of its bridge; it throws when there is none,
    and also when that [data] is [undefined]. *)
Theorem useBridge_reads_the_nearest_provider :
  forall (frames : list (Bridge * JsValue)) (bridge : Bridge),
    renderTree ∅ (nest frames (UseBridgeEl bridge))
    = match nearest bridge frames with
      | Some data =>
          if isUndefined data
          then Throw (Error "useBridge must be used within a BridgeProvider")
          else Normal [data]
      | None => Throw (Error "useBridge must be used within a BridgeProvider")
      end.
Proof.
  intros frames bridge. rewrite renderTree_nest.
  destruct (nearest bridge frames) as [data|].
  - unfold useBridge, useContext. cbn [default]. unfold id.
    destruct (isUndefined data); reflexivity.
  - rewrite lookup_empty. reflexivity.
Qed.

Lemma nearest_app (bridge : Bridge) (outer inner : list (Bridge * JsValue)) :
  nearest bridge (outer ++ inner)
  = match nearest bridge inner with
    | Some v => Some v
    | None => nearest bridge outer
    end.
Proof.
  induction outer as [|[b d] outer IH]; cbn [app nearest].
  - destruct (nearest bridge inner); reflexivity.
  - rewrite IH. destruct (nearest bridge inner); reflexivity.
Qed.

Lemma nest_app (outer inner : list (Bridge * JsValue)) (e : Element) :
  nest (outer ++ inner) e = nest outer (nest inner e).
Proof.
  induction outer as [|[b d] outer IH]; cbn [app nest]; [reflexivity|].
  rewrite IH. reflexivity.
Qed.

(** Two bridges never share a context.  The bridges two calls of
    [createBridge] return, whatever other contexts were created before and
    between them, are apart: a [BridgeProvider] of the first, anywhere
    above a component, changes nothing about what [useBridge] of the
    second reads there, and alone it leaves that hook throwing. *)
Theorem bridges_do_not_share_a_context :
  forall (react between : nat),
    let first := createBridge react in
    let second := createBridge (between + state_after first) in
    exists b1 b2,
      completion first = Normal b1
      /\ completion second = Normal b2
      /\ (forall outer inner data,
            renderTree ∅ (nest (outer ++ (b1, data) :: inner) (UseBridgeEl b2))
            = renderTree ∅ (nest (outer ++ inner) (UseBridgeEl b2)))
      /\ (forall data,
            renderTree ∅ (BridgeProviderEl b1 data [UseBridgeEl b2])
            = Throw (Error "useBridge must be used within a BridgeProvider")).
Proof.
  intros react between first second.
  exists {| bridgeContext := react |}, {| bridgeContext := between + S react |}.
  split; [reflexivity|]. split; [reflexivity|].
  assert (Hn : forall data inner,
             nearest {| bridgeContext := between + S react |}
               (({| bridgeContext := react |}, data) :: inner)
             = nearest {| bridgeContext := between + S react |} inner).
  { intros data inner. cbn [nearest bridgeContext].
    destruct (nearest _ inner); [reflexivity|].
    case_decide; [lia|reflexivity]. }
  split.
  - intros outer inner data. rewrite !renderTree_nest, !nearest_app, Hn. reflexivity.
  - intros data.
    change (BridgeProviderEl ?b data [?e]) with (nest [(b, data)] e).
    rewrite renderTree_nest, Hn. cbn [nearest]. rewrite lookup_empty. reflexivity.
Qed.

(** A [BridgeProvider] is transparent to the components that do not
    use its bridge: when no component below it calls [useBridge] of its
    bridge, the tree renders as it does without the provider, whatever the
    providers above and below. *)
Theorem unused_provider_is_transparent :
  forall (contexts : gmap nat JsValue) (bridge : Bridge) (data : JsValue)
         (children : list Element),
    existsb (uses bridge) children = false ->
    renderTree contexts (BridgeProviderEl bridge data children)
    = renderTree contexts (HostEl children).
Proof.
  intros contexts bridge data children Hu.
  rewrite renderTree_provider, renderTree_host.
  induction children as [|c r IH]; [reflexivity|].
  cbn [existsb] in Hu. apply orb_false_iff in Hu as [Hu1 Hu2].
  cbn [renderChildren]. rewrite (renderTree_unused bridge data c Hu1), (IH Hu2).
  reflexivity.
Qed.

Lemma unused_provider_is_transparent_witness :
  renderTree ∅
    (BridgeProviderEl {| bridgeContext := 2 |} VNull
       [BridgeProviderEl {| bridgeContext := 1 |} (VStr "dark")
          [UseBridgeEl {| bridgeContext := 1 |}];
        HostEl []])
  = renderTree ∅
      (HostEl
         [BridgeProviderEl {| bridgeContext := 1 |} (VStr "dark")
            [UseBridgeEl {| bridgeContext := 1 |}];
          HostEl []]).
Proof.
  exact (unused_provider_is_transparent ∅ {| bridgeContext := 2 |} VNull
           [BridgeProviderEl {| bridgeContext := 1 |} (VStr "dark")
              [UseBridgeEl {| bridgeContext := 1 |}];
            HostEl []]
           eq_refl).
Defined.
